(** * Number Input Task: the verbalizer, the target generator and the trial
      state machine of [src/App.tsx], embedded and verified.

    The program is a single React function component.  Its pure helpers
    ([toWords], [randomTarget], [speechTextForTarget]) are embedded as
    functions; the component itself is embedded as an event loop over a
    [world]: the React state of the latest render, the render captured by the
    registered [keydown] listener, the [trialStartRef] cell, the pending
    [setTimeout] callbacks (each with the render it closed over) and the log
    of requests sent to the speech and audio services. *)

From Stdlib Require Import ZArith QArith Qround Qabs Qpower String Ascii.
From Stdlib Require Import List Bool Lia Lqa DecimalString.
Import ListNotations.

Local Open Scope Z_scope.
Local Open Scope string_scope.

(* ================================================================== *)
(** ** JavaScript values used by the program *)
(* ================================================================== *)

(** A JavaScript number: a finite value, kept as a rational, or one of the
    three non-finite values.  Where binary64 rounding can change what the
    program computes, in the product of [randomTarget], it is applied
    explicitly ([round64]).  The sums and differences of the program are
    exact on its integers (all far below 2^53), and its quotients are only
    floored or rounded to an integer, which a rounding error in the last
    place cannot change for the integers divided here. *)
Inductive number :=
| Fin (q : Q)
| NaN
| PosInfinity
| NegInfinity.

(** What an expression of the verbalizer can evaluate to: a string, or
    [undefined] (an array read outside the array). *)
Inductive value :=
| VString (s : string)
| VUndefined.

Definition value_eqb (a b : value) : bool :=
  match a, b with
  | VString s, VString t => String.eqb s t
  | VUndefined, VUndefined => true
  | _, _ => false
  end.

Definition Qltb (x y : Q) : bool := negb (Qle_bool y x).

(** [q] is an integer; its value is then [Qfloor q]. *)
Definition is_integer (q : Q) : bool :=
  (Qnum q mod Zpos (Qden q) =? 0)%Z.

(** [Math.floor]. *)
Definition Math_floor (q : Q) : Q := inject_Z (Qfloor q).

(** *** Binary64 rounding *)

Definition pow2 (e : Z) : Q := Qpower 2 e.

(** The binade of a positive rational: the [e] with [2^e <= q < 2^(e+1)]. *)
Definition binade (q : Q) : Z :=
  let d := (Z.log2 (Qnum q) - Z.log2 (Zpos (Qden q)))%Z in
  if Qle_bool (pow2 d) q then d else (d - 1)%Z.

(** The nearest integer, a tie going to the even one. *)
Definition round_half_even (q : Q) : Z :=
  let f := Qfloor q in
  let r := (q - inject_Z f)%Q in
  if Qltb r (1 # 2) then f
  else if Qltb (1 # 2) r then (f + 1)%Z
  else if Z.even f then f else (f + 1)%Z.

(** The step of the binary64 grid at a positive [q]: 53 significant bits,
    and steps of [2^-1074] in the subnormal range. *)
Definition ulp (q : Q) : Q := pow2 (Z.max (binade q - 52) (-1074)).

(** The binary64 value nearest to [q], ties to even, as every arithmetic
    operation of the language rounds its exact result (for results below
    [2^1024] in magnitude: nothing here overflows). *)
Definition round64 (q : Q) : Q :=
  if Qeq_bool q 0 then 0%Q
  else
    let a := Qabs q in
    let m := (inject_Z (round_half_even (a / ulp a)) * ulp a)%Q in
    if Qltb q 0 then (- m)%Q else m.

(** [q] is a binary64 value: rounding leaves it as it is. *)
Definition binary64 (q : Q) : bool := Qeq_bool (round64 q) q.

(** Rounding towards zero, as the remainder operator uses it. *)
Definition Qtrunc (q : Q) : Z := Z.quot (Qnum q) (Zpos (Qden q)).

(** [n % d] on finite numbers with [d] not zero: the result takes the sign
    of the dividend. *)
Definition js_rem (n d : Q) : Q := (n - d * inject_Z (Qtrunc (n / d)))%Q.

(** [Math.pow(10, e)] for an integer exponent. *)
Definition pow10 (e : Z) : Q := Qpower 10 e.

(** Truthiness of a finite number, as in [r ? a : b]. *)
Definition truthy (q : Q) : bool := negb (Qeq_bool q 0).

(** Decimal digits of an integer, with a leading minus sign when negative. *)
Definition decimal (z : Z) : string :=
  NilEmpty.string_of_int (Z.to_int z).

Definition is_digit (c : ascii) : bool :=
  let n := nat_of_ascii c in (48 <=? n)%nat && (n <=? 57)%nat.

Fixpoint all_digits (s : string) : bool :=
  match s with
  | EmptyString => true
  | String c s' => is_digit c && all_digits s'
  end.

(** Value of a string of decimal digits, most significant first. *)
Fixpoint digits_value (acc : Z) (s : string) : Z :=
  match s with
  | EmptyString => acc
  | String c s' => digits_value (10 * acc + (Z.of_nat (nat_of_ascii c) - 48)) s'
  end.

(** An array read [arr[i]]: the element when [i] is an integer index inside
    the array, [undefined] otherwise. *)
Definition index (arr : list string) (i : Q) : value :=
  if is_integer i && (0 <=? Qfloor i)%Z then
    match nth_error arr (Z.to_nat (Qfloor i)) with
    | Some s => VString s
    | None => VUndefined
    end
  else VUndefined.

(** A value interpolated into a template literal. *)
Definition interpolate (v : value) : string :=
  match v with
  | VString s => s
  | VUndefined => "undefined"
  end.

(* ================================================================== *)
(** ** The verbalizer *)
(* ================================================================== *)

Definition ones : list string :=
  [ "zero"; "one"; "two"; "three"; "four"; "five"; "six"; "seven"; "eight";
    "nine"; "ten"; "eleven"; "twelve"; "thirteen"; "fourteen"; "fifteen";
    "sixteen"; "seventeen"; "eighteen"; "nineteen" ].

Definition tens : list string :=
  [ ""; ""; "twenty"; "thirty"; "forty"; "fifty"; "sixty"; "seventy";
    "eighty"; "ninety" ].

(** The verbalizer is run in a small writer monad that records, in order,
    which table cells it reads and whether it left through the
    stringification fallback. *)
Inductive table := Ones | Tens.

Inductive trace_item :=
| Lookup (t : table) (i : Q)
| Stringified.

Definition M (A : Type) : Type := (A * list trace_item)%type.

Definition ret {A} (a : A) : M A := (a, []).

Definition bind {A B} (m : M A) (k : A -> M B) : M B :=
  let (a, l1) := m in let (b, l2) := k a in (b, (l1 ++ l2)%list).

Notation "x <- m ;; k" := (bind m (fun x => k))
  (at level 61, m at next level, right associativity).

Definition cells (t : table) : list string :=
  match t with Ones => ones | Tens => tens end.

Definition read (t : table) (i : Q) : M value :=
  (index (cells t) i, [Lookup t i]).

(** Two conversions of the JavaScript runtime are only modelled where the
    program's own data reaches them; elsewhere they are left to the runtime:
    - [String(n)] for a finite [n] that is not an integer of at most 2^53
      in magnitude (up to there every integer is a binary64 value and its
      shortest decimal form is its digits);
    - [Number(s)] for a string that is not a sequence of at most fifteen
      decimal digits. *)
Record runtime := {
  NumberToString_other : Q -> string;
  StringToNumber_other : string -> number
}.

Section Runtime.

Variable rt : runtime.

(** [String(n)]. *)
Definition String_ (n : number) : string :=
  match n with
  | NaN => "NaN"
  | PosInfinity => "Infinity"
  | NegInfinity => "-Infinity"
  | Fin q =>
      if is_integer q && (Z.abs (Qfloor q) <=? 2 ^ 53)%Z
      then decimal (Qfloor q)
      else NumberToString_other rt q
  end.

(** [Number(s)]. *)
Definition Number_ (s : string) : number :=
  if all_digits s && (String.length s <=? 15)%nat
  then Fin (inject_Z (digits_value 0 s))
  else StringToNumber_other rt s.

(** [toWords], with the trace of its table reads. *)
Definition toWords_traced (n : number) : M value :=
  match n with
  | Fin q =>
      if Qltb q 0 || Qltb 999 q then (VString (String_ n), [Stringified])
      else if Qltb q 20 then read Ones q
      else if Qltb q 100 then
        let t := Math_floor (q / 10) in
        let r := js_rem q 10 in
        if truthy r then
          a <- read Tens t ;;
          b <- read Ones r ;;
          ret (VString (interpolate a ++ " " ++ interpolate b))
        else read Tens t
      else
        let h := Math_floor (q / 100) in
        let r := js_rem q 100 in
        a <- read Ones h ;;
        let head := interpolate a ++ " hundred" in
        if Qeq_bool r 0 then ret (VString head)
        else if Qltb r 20 then
          b <- read Ones r ;;
          ret (VString (head ++ " and " ++ interpolate b))
        else
          let t := Math_floor (r / 10) in
          let u := js_rem r 10 in
          if truthy u then
            b <- read Tens t ;;
            c <- read Ones u ;;
            ret (VString (head ++ " and " ++ interpolate b ++ " "
                               ++ interpolate c))
          else
            b <- read Tens t ;;
            ret (VString (head ++ " and " ++ interpolate b))
  | _ => (VString (String_ n), [Stringified])
  end.

Definition toWords (n : number) : value := fst (toWords_traced n).

(* ================================================================== *)
(** ** The target generator *)
(* ================================================================== *)

(** [randomTarget digits]; [rnd] is the value [Math.random()] returns, a
    binary64 value.  The product is rounded to binary64 before
    [Math.floor] sees it; the other operations are exact on their
    operands. *)
Definition randomTarget (digits : Z) (rnd : Q) : string :=
  if (digits =? 1)%Z then String_ (Fin (Math_floor (round64 (rnd * 10))))
  else
    let min := pow10 (digits - 1) in
    let max := (pow10 digits - 1)%Q in
    String_ (Fin (Math_floor (round64 (rnd * (max - min + 1))) + min)%Q).


End Runtime.

(* ================================================================== *)
(** ** The component's state *)
(* ================================================================== *)

Module Trial.

(** One element of the [results] array. *)
Record t := mk {
  target : string;
  response : string;
  correct : bool;
  timeMs : Z
}.

End Trial.

Inductive Status := idle | listening | correct | incorrect | complete.

Definition Status_eqb (a b : Status) : bool :=
  match a, b with
  | idle, idle | listening, listening | correct, correct
  | incorrect, incorrect | complete, complete => true
  | _, _ => false
  end.

(** The values of the [useState] cells at one render.  A closure created
    during a render sees exactly these values, whatever the cells hold when
    it is eventually called. *)
Record state := mkState {
  level : Z;
  totalTrials : Z;
  trialIdx : Z;
  target : string;
  input : string;
  status : Status;
  results : list Trial.t;
  volume : Q;
  score : Z;
  hadErrorThisTarget : bool;
  showHint : bool;
  showGuide : bool
}.

Definition with_level v s :=
  mkState v (totalTrials s) (trialIdx s) (target s) (input s) (status s)
    (results s) (volume s) (score s) (hadErrorThisTarget s) (showHint s)
    (showGuide s).
Definition with_totalTrials v s :=
  mkState (level s) v (trialIdx s) (target s) (input s) (status s)
    (results s) (volume s) (score s) (hadErrorThisTarget s) (showHint s)
    (showGuide s).
Definition with_trialIdx v s :=
  mkState (level s) (totalTrials s) v (target s) (input s) (status s)
    (results s) (volume s) (score s) (hadErrorThisTarget s) (showHint s)
    (showGuide s).
Definition with_target v s :=
  mkState (level s) (totalTrials s) (trialIdx s) v (input s) (status s)
    (results s) (volume s) (score s) (hadErrorThisTarget s) (showHint s)
    (showGuide s).
Definition with_input v s :=
  mkState (level s) (totalTrials s) (trialIdx s) (target s) v (status s)
    (results s) (volume s) (score s) (hadErrorThisTarget s) (showHint s)
    (showGuide s).
Definition with_status v s :=
  mkState (level s) (totalTrials s) (trialIdx s) (target s) (input s) v
    (results s) (volume s) (score s) (hadErrorThisTarget s) (showHint s)
    (showGuide s).
Definition with_results v s :=
  mkState (level s) (totalTrials s) (trialIdx s) (target s) (input s)
    (status s) v (volume s) (score s) (hadErrorThisTarget s) (showHint s)
    (showGuide s).
Definition with_volume v s :=
  mkState (level s) (totalTrials s) (trialIdx s) (target s) (input s)
    (status s) (results s) v (score s) (hadErrorThisTarget s) (showHint s)
    (showGuide s).
Definition with_score v s :=
  mkState (level s) (totalTrials s) (trialIdx s) (target s) (input s)
    (status s) (results s) (volume s) v (hadErrorThisTarget s) (showHint s)
    (showGuide s).
Definition with_hadErrorThisTarget v s :=
  mkState (level s) (totalTrials s) (trialIdx s) (target s) (input s)
    (status s) (results s) (volume s) (score s) v (showHint s) (showGuide s).
Definition with_showHint v s :=
  mkState (level s) (totalTrials s) (trialIdx s) (target s) (input s)
    (status s) (results s) (volume s) (score s) (hadErrorThisTarget s) v
    (showGuide s).
Definition with_showGuide v s :=
  mkState (level s) (totalTrials s) (trialIdx s) (target s) (input s)
    (status s) (results s) (volume s) (score s) (hadErrorThisTarget s)
    (showHint s) v.

(** The [useState] initial values. *)
Definition initial_state : state :=
  mkState 1 10 0 "" "" idle [] 1 0 false false false.

(** Requests sent to the speech and audio services. *)
Inductive output :=
| SpeechCancel
| Speak (text : value) (rate : Q) (vol : Q)
| CorrectChime
| ErrorTone.

(** The callbacks handed to [setTimeout]; each carries the render it was
    created in.  (The timers internal to the two sound players only stop
    oscillators and are not modelled.) *)
Inductive callback :=
| CorrectTimeout (snap : state)
| RetryTimeout (snap : state)
| StartTimeout (snap : state).

Record timer := mkTimer { due : Z; cb : callback }.

(** The running component. *)
Record world := mkWorld {
  st : state;                  (* the [useState] cells now *)
  listener : state;            (* render whose [onKey] is registered *)
  trialStartRef : option Z;    (* [trialStartRef.current]; [None] is null *)
  timers : list timer;         (* pending timeouts, earliest first *)
  clock : Z;                   (* milliseconds *)
  out : list output            (* requests sent so far, oldest first *)
}.

Definition upd (f : state -> state) (w : world) : world :=
  mkWorld (f (st w)) (listener w) (trialStartRef w) (timers w) (clock w)
    (out w).

Definition emit (o : list output) (w : world) : world :=
  mkWorld (st w) (listener w) (trialStartRef w) (timers w) (clock w)
    (out w ++ o)%list.

Definition set_trialStartRef (v : option Z) (w : world) : world :=
  mkWorld (st w) (listener w) v (timers w) (clock w) (out w).

Definition set_timers (l : list timer) (w : world) : world :=
  mkWorld (st w) (listener w) (trialStartRef w) l (clock w) (out w).

Definition set_listener (s : state) (w : world) : world :=
  mkWorld (st w) s (trialStartRef w) (timers w) (clock w) (out w).

Definition set_clock (t : Z) (w : world) : world :=
  mkWorld (st w) (listener w) (trialStartRef w) (timers w) t (out w).

(** The state setters.  A call with a value overwrites the cell; a call
    with a function is applied to what the cell holds at that moment. *)
Definition setLevel v := upd (with_level v).
Definition setTotalTrials v := upd (with_totalTrials v).
Definition setTrialIdx v := upd (with_trialIdx v).
Definition setTarget v := upd (with_target v).
Definition setInput v := upd (with_input v).
Definition setInput_fn (f : string -> string) :=
  upd (fun s => with_input (f (input s)) s).
Definition setStatus v := upd (with_status v).
Definition setResults v := upd (with_results v).
Definition setResults_fn (f : list Trial.t -> list Trial.t) :=
  upd (fun s => with_results (f (results s)) s).
Definition setVolume v := upd (with_volume v).
Definition setScore v := upd (with_score v).
Definition setScore_fn (f : Z -> Z) :=
  upd (fun s => with_score (f (score s)) s).
Definition setHadErrorThisTarget v := upd (with_hadErrorThisTarget v).
Definition setShowHint v := upd (with_showHint v).
Definition setShowGuide v := upd (with_showGuide v).
Definition setShowGuide_fn (f : bool -> bool) :=
  upd (fun s => with_showGuide (f (showGuide s)) s).

(** [setTimeout(cb, delay)] called at time [now]: the queue is kept in firing
    order, a new timer going behind those due no later than itself. *)
Fixpoint enqueue (t : timer) (l : list timer) : list timer :=
  match l with
  | [] => [t]
  | t' :: l' => if (due t' <=? due t)%Z then t' :: enqueue t l' else t :: l
  end.

Definition setTimeout (c : callback) (delay now : Z) (w : world) : world :=
  set_timers (enqueue (mkTimer (now + delay) c) (timers w)) w.

(** [speak(text, voice, 0.9, volume)]: silence what is playing, then speak
    at the volume clamped to [0, 1]. *)
Definition clamp01 (v : Q) : Q :=
  let m := if Qltb v 1 then v else 1%Q in
  if Qltb m 0 then 0%Q else m.

Definition speak (text : value) (vol : Q) : world -> world :=
  emit [SpeechCancel; Speak text (9 # 10) (clamp01 vol)].

Definition playCorrectChime : world -> world := emit [CorrectChime].
Definition playErrorTone : world -> world := emit [ErrorTone].

(* ================================================================== *)
(** ** The component's functions *)
(* ================================================================== *)

Section Component.

Variable rt : runtime.

(** The [map] object of [speechTextForTarget] (its own keys; the keys an
    object inherits from its prototype are not digit strings). *)
Definition digit_words : list (string * string) :=
  [ ("0", "zero"); ("1", "one"); ("2", "two"); ("3", "three");
    ("4", "four"); ("5", "five"); ("6", "six"); ("7", "seven");
    ("8", "eight"); ("9", "nine") ].

Fixpoint lookup (k : string) (m : list (string * string)) : option string :=
  match m with
  | [] => None
  | (k', v) :: m' => if String.eqb k k' then Some v else lookup k m'
  end.

Definition speechTextForTarget (tgt : string) (lvl : Z) : value :=
  let n := Number_ rt tgt in
  if (2 <=? lvl)%Z then toWords rt n
  else
    match lookup tgt digit_words with
    | Some word => VString word
    | None => VString tgt
    end.

(** Every function below is a closure of some render [snap]: it reads the
    state, the level and the volume of that render, and writes through the
    setters into the cells of the running component. *)

(** [startNextTrial(lvl)]; called without argument, [lvl] is [level snap].
    [now] is [performance.now()] and [rnd] is [Math.random()]. *)
Definition startNextTrial (snap : state) (lvl : Z) (now : Z) (rnd : Q)
    (w : world) : world :=
  if (totalTrials snap <=? trialIdx snap)%Z then
    setStatus complete (setShowGuide false w)
  else
    let newIdx := (trialIdx snap + 1)%Z in
    let w := setTrialIdx newIdx w in
    let t := randomTarget rt lvl rnd in
    let w := setTarget t w in
    let w := setInput "" w in
    let w := setStatus listening w in
    let w := setShowHint false w in
    let w := setHadErrorThisTarget false w in
    let w := set_trialStartRef (Some now) w in
    let phrase := speechTextForTarget t lvl in
    speak phrase (volume snap) w.

Definition resetAll (snap : state) (now : Z) (w : world) : world :=
  let w := emit [SpeechCancel] w in
  let w := setResults [] w in
  let w := setScore 0 w in
  let w := setTrialIdx 0 w in
  let w := setStatus idle w in
  let w := setInput "" w in
  let w := setShowHint false w in
  let w := setShowGuide false w in
  let w := setHadErrorThisTarget false w in
  setTimeout (StartTimeout snap) 100 now w.

(** [s.slice(0, -1)]. *)
Fixpoint drop_last (s : string) : string :=
  match s with
  | EmptyString => EmptyString
  | String c EmptyString => EmptyString
  | String c s' => String c (drop_last s')
  end.

Definition backspace (snap : state) (w : world) : world :=
  if negb (Status_eqb (status snap) listening) then w
  else if (String.length (input snap) =? 0)%nat then w
  else setInput_fn drop_last w.

Definition clear (snap : state) (w : world) : world :=
  if negb (Status_eqb (status snap) listening) then w
  else setInput "" w.

Definition listen (snap : state) (w : world) : world :=
  if String.eqb (target snap) "" then w
  else
    let phrase := speechTextForTarget (target snap) (level snap) in
    speak phrase (volume snap) w.

(** The effect that runs when [level] has changed. *)
Definition level_effect (w : world) : world :=
  let w := emit [SpeechCancel] w in
  let w := setResults [] w in
  let w := setScore 0 w in
  let w := setTrialIdx 0 w in
  let w := setStatus idle w in
  let w := setInput "" w in
  let w := setShowHint false w in
  setHadErrorThisTarget false w.

(** The effect that runs when [totalTrials] has changed; [snap] is the
    render that has the new value. *)
Definition totalTrials_effect (snap : state) (now : Z) (w : world) : world :=
  if negb (Status_eqb (status snap) idle)
     || (0 <? length (results snap))%nat
     || (0 <? trialIdx snap)%Z
  then resetAll snap now w
  else w.

Definition handleDigit (snap : state) (d : string) (now : Z) (w : world)
    : world :=
  if negb (Status_eqb (status snap) listening) then w
  else if (String.length (target snap) <=? String.length (input snap))%nat
  then w
  else
    let next := input snap ++ d in
    let w := setInput next w in
    let need := String.length (target snap) in
    if (String.length next =? need)%nat then
      let is_correct := String.eqb next (target snap) in
      let started :=
        match trialStartRef w with Some t => t | None => now end in
      let timeMs := (now - started)%Z in
      let w :=
        setResults_fn
          (fun r =>
             (r ++ [Trial.mk (target snap) next is_correct timeMs])%list)
          w in
      let w := setStatus (if is_correct then correct else incorrect) w in
      if is_correct then
        let w := playCorrectChime w in
        setTimeout (CorrectTimeout snap) 2000 now w
      else
        let w := playErrorTone w in
        let w := setHadErrorThisTarget true w in
        setTimeout (RetryTimeout snap) 2000 now w
    else w.

(** The bodies of the three timeout callbacks. *)
Definition run_callback (c : callback) (now : Z) (rnd : Q) (w : world)
    : world :=
  match c with
  | CorrectTimeout snap =>
      let w :=
        if negb (hadErrorThisTarget snap)
        then setScore_fn (fun s => (s + 1)%Z) w else w in
      if (totalTrials snap <=? trialIdx snap)%Z then
        setStatus complete (setShowGuide false w)
      else startNextTrial snap (level snap) now rnd w
  | RetryTimeout snap =>
      let w := setInput "" w in
      let w := setStatus listening w in
      let phrase := speechTextForTarget (target snap) (level snap) in
      speak phrase (volume snap) w
  | StartTimeout snap =>
      startNextTrial snap (level snap) now rnd w
  end.

(** [e.key.toLowerCase()] on the letters the handler tests for. *)
Definition lower_ascii (c : ascii) : ascii :=
  let n := nat_of_ascii c in
  if (65 <=? n)%nat && (n <=? 90)%nat then ascii_of_nat (n + 32) else c.

Fixpoint toLowerCase (s : string) : string :=
  match s with
  | EmptyString => EmptyString
  | String c s' => String (lower_ascii c) (toLowerCase s')
  end.

(** [/^[0-9]$/.test(key)]. *)
Definition is_digit_key (key : string) : bool :=
  match key with
  | String c EmptyString => is_digit c
  | _ => false
  end.

Definition onKey (snap : state) (key : string) (now : Z) (rnd : Q)
    (w : world) : world :=
  if is_digit_key key then handleDigit snap key now w
  else if String.eqb key "Backspace" then backspace snap w
  else if String.eqb (toLowerCase key) "l" then listen snap w
  else if String.eqb (toLowerCase key) "c" then clear snap w
  else if String.eqb (toLowerCase key) "n"
  then startNextTrial snap (level snap) now rnd w
  else if String.eqb (toLowerCase key) "s" then resetAll snap now w
  else if String.eqb (toLowerCase key) "h" then setShowHint true w
  else if String.eqb (toLowerCase key) "g" then setShowGuide_fn negb w
  else w.

(** The dependency array of the effect that registers [onKey]. *)
Definition deps_eqb (a b : state) : bool :=
  Status_eqb (status a) (status b)
  && String.eqb (input a) (input b)
  && String.eqb (target a) (target b)
  && (level a =? level b)%Z
  && (totalTrials a =? totalTrials b)%Z
  && Qeq_bool (volume a) (volume b)
  && Bool.eqb (hadErrorThisTarget a) (hadErrorThisTarget b).

(** What happens after the updates of one task have been applied: the
    component renders again, and the [keydown] listener is replaced by the
    new render's [onKey] only if a dependency differs from the render that
    registered the current one. *)
Definition commit (w : world) : world :=
  if deps_eqb (st w) (listener w) then w else set_listener (st w) w.

(* ================================================================== *)
(** ** The event loop *)
(* ================================================================== *)

(** What the environment can do to the component.  Buttons call the
    functions of the latest render; a key press calls the registered
    listener. *)
Inductive event :=
| ClickDigit (d : string)     (* a keypad digit *)
| ClickBackspace
| ClickClear
| ClickGuide
| ClickHint
| ClickListen
| ClickNext
| ClickReset
| ClickStart                  (* the Start button of the idle screen *)
| ClickRestart                (* in the completion dialog *)
| ClickClose                  (* in the completion dialog *)
| ChangeLevel (v : Z)
| ChangeTotalTrials (v : Z)
| ChangeVolume (v : Q)
| KeyDown (key : string)
| Timeout.                    (* the earliest pending timeout fires *)

(** One task of the event loop.  The handler runs to its end, its state
    updates being applied in the order of the calls (React applies the
    updates of one task together), then the component renders again
    ([commit]).  A change of [level] or [totalTrials] renders once, runs the
    effect that depends on the changed cell with that render's closures, and
    renders again. *)
Definition exec (e : event) (now : Z) (rnd : Q) (w0 : world) : world :=
  let w := set_clock now w0 in
  let snap := st w in
  match e with
  | ClickDigit d => commit (handleDigit snap d now w)
  | ClickBackspace => commit (backspace snap w)
  | ClickClear => commit (clear snap w)
  | ClickGuide => commit (setShowGuide_fn negb w)
  | ClickHint => commit (setShowHint true w)
  | ClickListen => commit (listen snap w)
  | ClickNext => commit (startNextTrial snap (level snap) now rnd w)
  | ClickReset | ClickStart => commit (resetAll snap now w)
  | ClickRestart => commit (resetAll snap now (setStatus idle w))
  | ClickClose => commit (setStatus idle w)
  | ChangeLevel v =>
      if (v =? level snap)%Z then w
      else commit (level_effect (commit (setLevel v w)))
  | ChangeTotalTrials v =>
      if (v =? totalTrials snap)%Z then w
      else
        let w := commit (setTotalTrials v w) in
        commit (totalTrials_effect (st w) now w)
  | ChangeVolume v => commit (setVolume v w)
  | KeyDown key => commit (onKey (listener w) key now rnd w)
  | Timeout =>
      match timers w with
      | [] => w
      | t :: rest => commit (run_callback (cb t) now rnd (set_timers rest w))
      end
  end.

(** Which events the rendered page offers, and when: time does not run
    backwards, [Math.random()] is a binary64 value of [0, 1), a control
    that is not rendered
    or is disabled cannot be clicked, the selectors offer fixed values, and
    a timeout does not fire before it is due. *)
Definition enabled (e : event) (now : Z) (rnd : Q) (w : world) : bool :=
  (clock w <=? now)%Z && binary64 rnd && Qle_bool 0 rnd && Qltb rnd 1 &&
  match e with
  | ClickDigit d => is_digit_key d && Status_eqb (status (st w)) listening
  | ClickBackspace | ClickClear => Status_eqb (status (st w)) listening
  | ClickGuide | ClickHint | ClickListen =>
      negb (String.eqb (target (st w)) "")
  | ClickNext => negb (Status_eqb (status (st w)) complete)
  | ClickReset => true
  | ClickStart => Status_eqb (status (st w)) idle
  | ClickRestart | ClickClose => Status_eqb (status (st w)) complete
  | ChangeLevel v => (v =? 1)%Z || (v =? 2)%Z || (v =? 3)%Z
  | ChangeTotalTrials v => (v =? 10)%Z || (v =? 25)%Z || (v =? 50)%Z
  | ChangeVolume v => Qle_bool 0 v && Qle_bool v 1
  | KeyDown _ => true
  | Timeout =>
      match timers w with
      | [] => false
      | t :: _ => (due t <=? now)%Z
      end
  end.

(** The component once mounted: the mount run of the level effect has asked
    the speech service for silence and rewritten the initial values. *)
Definition initial_world : world :=
  mkWorld initial_state initial_state None [] 0 [SpeechCancel].

Inductive step : world -> world -> Prop :=
| step_event e now rnd w :
    enabled e now rnd w = true -> step w (exec e now rnd w).

Inductive reachable : world -> Prop :=
| reach_init : reachable initial_world
| reach_step w w' : reachable w -> step w w' -> reachable w'.

(** A scripted session: each entry is an event with the time and the random
    draw it happens at.  [None] when the script asks for an event that is
    not enabled. *)
Fixpoint run (script : list (event * Z * Q)) (w : world) : option world :=
  match script with
  | [] => Some w
  | (e, now, rnd) :: rest =>
      if enabled e now rnd w then run rest (exec e now rnd w) else None
  end.

End Component.

(* ================================================================== *)
(** ** The verbalizer as the specification words it *)
(* ================================================================== *)

(** The specification's algorithm, on integers: 0-19 from the word table;
    20-99 the tens word and, when the remainder is not zero, a space and
    the ones word; 100-999 the hundreds word and " hundred", then nothing,
    or " and " and the words of the remainder. *)
Definition verbalize (n : Z) : string :=
  let word (t : list string) (i : Z) := nth (Z.to_nat i) t "" in
  if (n <? 20)%Z then word ones n
  else if (n <? 100)%Z then
    word tens (n / 10)
      ++ (if (n mod 10 =? 0)%Z then "" else " " ++ word ones (n mod 10))
  else
    let r := (n mod 100)%Z in
    word ones (n / 100) ++ " hundred"
      ++ (if (r =? 0)%Z then ""
          else if (r <? 20)%Z then " and " ++ word ones r
          else " and " ++ word tens (r / 10)
                 ++ (if (r mod 10 =? 0)%Z then ""
                     else " " ++ word ones (r mod 10))).

(** The specification's oracle table. *)
Definition oracle : list (Z * string) :=
  [ (0, "zero"); (19, "nineteen"); (21, "twenty one"); (100, "one hundred");
    (101, "one hundred and one"); (110, "one hundred and ten");
    (219, "two hundred and nineteen"); (305, "three hundred and five");
    (340, "three hundred and forty"); (400, "four hundred");
    (999, "nine hundred and ninety nine") ].

Fixpoint oracle_at (n : Z) (t : list (Z * string)) : option string :=
  match t with
  | [] => None
  | (k, s) :: t' => if (k =? n)%Z then Some s else oracle_at n t'
  end.

(** A table read that stayed inside its table; leaving through the
    stringification fallback does not count as one. *)
Definition in_bounds (x : trace_item) : bool :=
  match x with
  | Lookup t i =>
      is_integer i && (0 <=? Qfloor i)%Z
      && (Qfloor i <? Z.of_nat (length (cells t)))%Z
  | Stringified => false
  end.

Definition nonempty (v : value) : bool :=
  match v with
  | VString (String _ _) => true
  | _ => false
  end.

(** A runtime for the scripted sessions below, none of which reaches the
    two conversions it provides. *)
Definition plain_runtime : runtime :=
  {| NumberToString_other := fun _ => "";
     StringToNumber_other := fun _ => NaN |}.

(** The shape of the decimal string of an integer of 0..999: one, two or
    three characters, and from 10 on a first character other than "0". *)
Definition decimal_shape (z : Z) : bool :=
  (String.length (decimal z) =?
     (if (z <? 10)%Z then 1 else if (z <? 100)%Z then 2 else 3))%nat
  && ((z <? 10)%Z
      || match decimal z with
         | String c _ => negb (Ascii.eqb c "0")
         | EmptyString => false
         end).

(** The time [handleDigit] records for an attempt made at [now]. *)
Definition elapsed (now : Z) (w : world) : Z :=
  (now - match trialStartRef w with Some t => t | None => now end)%Z.

(** The registered [keydown] listener agrees with the latest render on
    every dependency of its effect. *)
Definition coherent (w : world) : Prop := deps_eqb (st w) (listener w) = true.

(** The two ways a digit reaches [handleDigit]. *)
Definition digit_event (d : string) (e : event) : Prop :=
  e = ClickDigit d \/ (e = KeyDown d /\ is_digit_key d = true).

(** The ways to ask for the phrase again. *)
Definition replay_event (e : event) : Prop :=
  e = ClickListen \/ e = KeyDown "l" \/ e = KeyDown "L".

(** The full resets and the configuration changes. *)
Definition reset_event (e : event) : Prop :=
  e = ClickReset \/ e = ClickStart \/ e = ClickRestart
  \/ e = KeyDown "s" \/ e = KeyDown "S"
  \/ (exists v, e = ChangeLevel v) \/ (exists v, e = ChangeTotalTrials v).

(** Events applied one after the other, enabled or not. *)
Fixpoint exec_all (rt : runtime) (script : list (event * Z * Q)) (w : world)
    : world :=
  match script with
  | [] => w
  | (e, now, rnd) :: rest => exec_all rt rest (exec rt e now rnd w)
  end.

(** The characters of [s] clicked on the keypad, one after the other. *)
Fixpoint type_digits (rt : runtime) (s : string) (now : Z) (w : world)
    : world :=
  match s with
  | EmptyString => w
  | String c s' =>
      type_digits rt s' now (exec rt (ClickDigit (String c "")) now 0 w)
  end.

(** A listening component at level 2 with target "47" and "5" typed. *)
Definition sample_state : state :=
  mkState 2 10 1 "47" "5" listening [] 1 0 false false false.

Definition sample_world : world :=
  mkWorld sample_state sample_state (Some 0) [] 0 [].

(** Level 2; the target drawn is "47"; "57" is typed, the retry delay
    passes, "47" is typed. *)
Definition retry_session : list (event * Z * Q) :=
  [ (ChangeLevel 2, 0, 0%Q); (ClickStart, 1000, 0%Q);
    (Timeout, 1100, 27 # 64);
    (ClickDigit "5", 3000, 0%Q); (ClickDigit "7", 3500, 0%Q);
    (Timeout, 5500, 0%Q);
    (ClickDigit "4", 7000, 0%Q); (ClickDigit "7", 7500, 0%Q) ].

(** Level 1; the target "4" is answered at 1000 ms, Reset is clicked at
    1500 ms, and the reset's own start runs at 1600 ms.  The timeout of the
    answer is still to come, at 3000 ms. *)
Definition reset_session : list (event * Z * Q) :=
  [ (ClickStart, 0, 0%Q); (Timeout, 100, 7 # 16);
    (ClickDigit "4", 1000, 0%Q);
    (ClickReset, 1500, 0%Q); (Timeout, 1600, 3 # 4) ].

(** Twenty-five trials are selected on the untouched page; ten targets are
    presented, the tenth is answered; within the two seconds that follow,
    ten trials are selected; both pending timeouts then fire. *)
Definition overrun_session : list (event * Z * Q) :=
  [ (ChangeTotalTrials 25, 0, 0%Q); (ClickStart, 1000, 0%Q);
    (Timeout, 1100, 7 # 16);
    (ClickNext, 2000, 7 # 16); (ClickNext, 3000, 7 # 16);
    (ClickNext, 4000, 7 # 16); (ClickNext, 5000, 7 # 16);
    (ClickNext, 6000, 7 # 16); (ClickNext, 7000, 7 # 16);
    (ClickNext, 8000, 7 # 16); (ClickNext, 9000, 7 # 16);
    (ClickNext, 10000, 7 # 16);
    (ClickDigit "4", 11000, 0%Q);
    (ChangeTotalTrials 10, 11500, 0%Q);
    (Timeout, 11600, 0%Q);
    (Timeout, 13000, 0%Q) ].

(** Ten trials; nine targets are presented, the ninth is answered, and Next
    is clicked within the two seconds that follow. *)
Definition last_trial_session : list (event * Z * Q) :=
  [ (ClickStart, 0, 0%Q); (Timeout, 100, 7 # 16);
    (ClickNext, 1000, 7 # 16); (ClickNext, 2000, 7 # 16);
    (ClickNext, 3000, 7 # 16); (ClickNext, 4000, 7 # 16);
    (ClickNext, 5000, 7 # 16); (ClickNext, 6000, 7 # 16);
    (ClickNext, 7000, 7 # 16); (ClickNext, 8000, 7 # 16);
    (ClickDigit "4", 9000, 0%Q);
    (ClickNext, 9500, 3 # 4) ].

(** Ten trials, none answered: after the start, Next is clicked ten
    times. *)
Definition skipping_session : list (event * Z * Q) :=
  [ (ClickStart, 0, 0%Q); (Timeout, 100, 7 # 16);
    (ClickNext, 1000, 1 # 8); (ClickNext, 2000, 1 # 4);
    (ClickNext, 3000, 5 # 16); (ClickNext, 4000, 7 # 16);
    (ClickNext, 5000, 1 # 2); (ClickNext, 6000, 5 # 8);
    (ClickNext, 7000, 3 # 4); (ClickNext, 8000, 13 # 16);
    (ClickNext, 9000, 15 # 16); (ClickNext, 10000, 0%Q) ].

(** Level 1; the target "4" is answered "5"; within the two seconds that
    follow, level 2 is selected; the retry timeout of the wrong answer
    fires and "4" is typed. *)
Definition forgiven_session : list (event * Z * Q) :=
  [ (ClickStart, 0, 0%Q); (Timeout, 100, 7 # 16);
    (ClickDigit "5", 1000, 0%Q);
    (ChangeLevel 2, 1500, 0%Q);
    (Timeout, 3000, 0%Q);
    (ClickDigit "4", 4000, 0%Q) ].

(** Level 1; the target "4" is answered "5"; within the two seconds that
    follow, Next presents "7", which is answered "5" too. *)
Definition crossed_retry_session : list (event * Z * Q) :=
  [ (ClickStart, 0, 0%Q); (Timeout, 100, 7 # 16);
    (ClickDigit "5", 1000, 0%Q);
    (ClickNext, 1500, 3 # 4);
    (ClickDigit "5", 2000, 0%Q) ].

(** Level 1; the target "4" is answered at 1000 ms, and level 2 is selected
    at 1500 ms.  The timeout of the answer is still to come, at 3000 ms. *)
Definition level_change_session : list (event * Z * Q) :=
  [ (ClickStart, 0, 0%Q); (Timeout, 100, 7 # 16);
    (ClickDigit "4", 1000, 0%Q);
    (ChangeLevel 2, 1500, 0%Q) ].

(** The key "n" pressed twice on the untouched page, the two draws giving
    the same target "4". *)
Definition key_next_session : list (event * Z * Q) :=
  [ (KeyDown "n", 0, 7 # 16); (KeyDown "n", 1000, 7 # 16) ].

(* ================================================================== *)
(** ** The other functions of the file *)
(* ================================================================== *)

(** Strings are taken as sequences of code units below 256. *)

(** [\s] on such code units: tab, line feed, vertical tab, form feed,
    carriage return, space and no-break space. *)
Definition is_space (c : ascii) : bool :=
  let n := nat_of_ascii c in
  ((9 <=? n)%nat && (n <=? 13)%nat) || (n =? 32)%nat || (n =? 160)%nat.

(** [s] without the prefix [p], when [p] is a prefix of [s]. *)
Fixpoint strip_prefix (p s : string) : option string :=
  match p, s with
  | EmptyString, _ => Some s
  | String a p', String b s' =>
      if Ascii.eqb a b then strip_prefix p' s' else None
  | String _ _, EmptyString => None
  end.

(** An alternation [(a1|a2|...)] at the start of [s]: the first alternative
    that is a prefix of [s], and what follows it. *)
Fixpoint first_alternative (alts : list string) (s : string)
    : option (string * string) :=
  match alts with
  | [] => None
  | a :: alts' =>
      match strip_prefix a s with
      | Some rest => Some (a, rest)
      | None => first_alternative alts' s
      end
  end.

Definition tens_words : list string :=
  [ "twenty"; "thirty"; "forty"; "fifty"; "sixty"; "seventy"; "eighty";
    "ninety" ].

Definition ones_words : list string :=
  [ "one"; "two"; "three"; "four"; "five"; "six"; "seven"; "eight"; "nine" ].

(** The regular expression of [hyphenateCompoundWords] tried at the start of
    [s]: the two captured groups.  (No word of either alternation is a
    prefix of another word of it, so at most one alternative applies and
    there is nothing to backtrack into.) *)
Definition match_here (s : string) : option (string * string) :=
  match first_alternative tens_words s with
  | Some (t, String c r) =>
      if is_space c then
        match first_alternative ones_words r with
        | Some (o, _) => Some (t, o)
        | None => None
        end
      else None
  | _ => None
  end.

(** [s.replace(re, "$1-$2")] with the global flag: the text is scanned from
    the left; at a match the replacement is written and the scan resumes
    behind the match ([skip] counts the code units of the match still to
    pass over); elsewhere the code unit is copied. *)
Fixpoint replace_from (skip : nat) (s : string) : string :=
  match s with
  | EmptyString => EmptyString
  | String c s' =>
      match skip with
      | S k => replace_from k s'
      | O =>
          match match_here s with
          | Some (t, o) =>
              t ++ "-" ++ o
                ++ replace_from (String.length t + String.length o) s'
          | None => String c (replace_from 0 s')
          end
      end
  end.

Definition hyphenateCompoundWords (s : string) : string := replace_from 0 s.

Definition upper_ascii (c : ascii) : ascii :=
  let n := nat_of_ascii c in
  if (97 <=? n)%nat && (n <=? 122)%nat then ascii_of_nat (n - 32) else c.

(** [toUpperCase] of a one-unit string: the ASCII rule below 128; above,
    what the runtime's case tables give ([toUpperCase_high], which can be
    several units long). *)
Definition toUpperCase_unit (toUpperCase_high : ascii -> string) (c : ascii)
    : string :=
  if (nat_of_ascii c <? 128)%nat then String (upper_ascii c) EmptyString
  else toUpperCase_high c.

Definition capitaliseFirst (toUpperCase_high : ascii -> string) (s : string)
    : string :=
  match s with
  | EmptyString => s
  | String c rest => toUpperCase_unit toUpperCase_high c ++ rest
  end.

(** The hint line of the page, for the render [s]: nothing unless the
    input panel is rendered ([status !== "idle"]), the hint is on and a
    target exists; otherwise the capitalised, hyphenated phrase.
    [HintThrows] is the render failing because the phrase is [undefined]. *)
Inductive hint :=
| NoHint
| HintText (text : string)
| HintThrows.

Definition hintLine (rt : runtime) (toUpperCase_high : ascii -> string)
    (s : state) : hint :=
  if negb (Status_eqb (status s) idle)
     && (showHint s && negb (String.eqb (target s) "")) then
    match speechTextForTarget rt (target s) (level s) with
    | VString phrase =>
        HintText
          (capitaliseFirst toUpperCase_high (hyphenateCompoundWords phrase))
    | VUndefined => HintThrows
    end
  else NoHint.

(** [classNames(...v)]: [None] stands for [false], [null] and [undefined];
    the empty string is falsy too. *)
Definition truthy_class (x : option string) : bool :=
  match x with
  | Some (String _ _) => true
  | _ => false
  end.

Fixpoint join (sep : string) (l : list string) : string :=
  match l with
  | [] => ""
  | [a] => a
  | a :: l' => a ++ sep ++ join sep l'
  end.

Fixpoint somes (l : list (option string)) : list string :=
  match l with
  | [] => []
  | Some a :: l' => a :: somes l'
  | None :: l' => somes l'
  end.

Definition classNames (v : list (option string)) : string :=
  join " " (somes (filter truthy_class v)).

(** [Math.round]: the nearest integer, a tie going up. *)
Definition Math_round (q : Q) : Z := Qfloor (q + (1 # 2)).

(** The [accuracy] memo of the render [s]. *)
Definition accuracy (s : state) : Z :=
  if (trialIdx s =? 0)%Z then 0%Z
  else Math_round ((100 * inject_Z (score s)) / inject_Z (trialIdx s)).

(** The [highlighted] attribute of the keypad key [d]:
    [showGuide && status === "listening" && d === String(target)[input.length]]. *)
Definition highlighted (s : state) (d : string) : bool :=
  showGuide s && Status_eqb (status s) listening
  && match String.get (String.length (input s)) (target s) with
     | Some c => String.eqb d (String c EmptyString)
     | None => false
     end.

(** *** Voice selection *)

Record Voice := mkVoice { name : string; lang : string }.

(** A literal of a case-insensitive pattern against a code unit: both are
    compared after ASCII case folding (a unit of 128 or more never folds to
    an ASCII letter). *)
Definition unit_ci (p c : ascii) : bool :=
  Ascii.eqb (lower_ascii p) (lower_ascii c).

Fixpoint strip_prefix_ci (p s : string) : option string :=
  match p, s with
  | EmptyString, _ => Some s
  | String a p', String b s' =>
      if unit_ci a b then strip_prefix_ci p' s' else None
  | String _ _, EmptyString => None
  end.

(** [.] stops at a line terminator. *)
Definition line_terminator (c : ascii) : bool :=
  let n := nat_of_ascii c in (n =? 10)%nat || (n =? 13)%nat.

(** [.*p] at the start of [s]: the text behind the first occurrence of [p]
    that no line terminator separates from the start. *)
Fixpoint after_in_line (p s : string) : option string :=
  match strip_prefix_ci p s with
  | Some rest => Some rest
  | None =>
      match s with
      | EmptyString => None
      | String c s' => if line_terminator c then None else after_in_line p s'
      end
  end.

(** [.*p1.*p2...] at the start of [s]. *)
Fixpoint rest_in_line (ps : list string) (s : string) : bool :=
  match ps with
  | [] => true
  | p :: ps' =>
      match after_in_line p s with
      | Some rest => rest_in_line ps' rest
      | None => false
      end
  end.

(** [/p0.*p1.*p2.../i.test(s)]: some occurrence of [p0] is followed, on its
    line, by the other words in order. *)
Fixpoint test_words (p0 : string) (ps : list string) (s : string) : bool :=
  match strip_prefix_ci p0 s with
  | Some rest =>
      rest_in_line ps rest
      || match s with
         | EmptyString => false
         | String _ s' => test_words p0 ps s'
         end
  | None =>
      match s with
      | EmptyString => false
      | String _ s' => test_words p0 ps s'
      end
  end.

Definition is_exact (v : Voice) : bool :=
  String.eqb (name v) "Google UK English Male".
Definition is_nameContains (v : Voice) : bool :=
  test_words "Google" ["UK"; "English"; "Male"] (name v).
Definition is_gbMale (v : Voice) : bool :=
  test_words "en-GB" [] (lang v) && test_words "male" [] (name v).
Definition is_gbAny (v : Voice) : bool := test_words "en-GB" [] (lang v).
Definition is_usMale (v : Voice) : bool :=
  test_words "en-US" [] (lang v) && test_words "male" [] (name v).

(** [a || b] on results of [find]. *)
Definition or_else {A} (a b : option A) : option A :=
  match a with Some _ => a | None => b end.

(** [pick]: the voice handed to [setVoice]; [None] when the list is empty
    and [setVoice] is not called. *)
Definition pick (voices : list Voice) : option Voice :=
  match voices with
  | [] => None
  | first :: _ =>
      let exact := find is_exact voices in
      let nameContains := find is_nameContains voices in
      let gbMale := find is_gbMale voices in
      let gbAny := find is_gbAny voices in
      let usMale := find is_usMale voices in
      let fallback := Some first in
      or_else exact
        (or_else nameContains
           (or_else gbMale (or_else gbAny (or_else usMale fallback))))
  end.

(** *** The self-test run at mount *)

(** [/^\d{n}$/.test(s)] and [/^0/.test(s)]. *)
Definition is_digits (n : nat) (s : string) : bool :=
  (String.length s =? n)%nat && all_digits s.

Definition starts_with_0 (s : string) : bool :=
  match s with
  | String c _ => Ascii.eqb c "0"
  | EmptyString => false
  end.

(** The table [W] of the self-test. *)
Definition W : list (Z * string) :=
  [ (0, "zero"); (7, "seven"); (10, "ten"); (19, "nineteen");
    (20, "twenty"); (21, "twenty one"); (34, "thirty four");
    (43, "forty three"); (70, "seventy"); (80, "eighty");
    (99, "ninety nine"); (100, "one hundred");
    (101, "one hundred and one"); (110, "one hundred and ten");
    (219, "two hundred and nineteen"); (305, "three hundred and five");
    (340, "three hundred and forty"); (400, "four hundred");
    (999, "nine hundred and ninety nine") ].

(** The conditions handed to [console.assert], in the order of the calls;
    [draw i] is the value of the i-th call of [Math.random()]. *)
Definition selfTest (rt : runtime) (draw : nat -> Q) : list bool :=
  let d1 := randomTarget rt 1 (draw 0%nat) in
  let d2 := randomTarget rt 2 (draw 1%nat) in
  let d3 := randomTarget rt 3 (draw 2%nat) in
  [ is_digits 1 d1; is_digits 2 d2; is_digits 3 d3;
    negb (starts_with_0 d2); negb (starts_with_0 d3) ]
  ++ flat_map
       (fun k =>
          let a := randomTarget rt 1 (draw (3 + 3 * k)%nat) in
          let b := randomTarget rt 2 (draw (4 + 3 * k)%nat) in
          let c := randomTarget rt 3 (draw (5 + 3 * k)%nat) in
          [ is_digits 1 a;
            is_digits 2 b && negb (starts_with_0 b);
            is_digits 3 c && negb (starts_with_0 c) ])
       (seq 0 100)
  ++ map
       (fun '(n, expect) =>
          value_eqb (toWords rt (Fin (inject_Z n))) (VString expect))
       W.

(** *** Statement-side definitions for the properties added below *)

(** The displayed form of the words of [n], written from the number: as
    [verbalize], with a hyphen between a tens word and the ones word that
    follows it. *)
Definition verbalize_hyphenated (n : Z) : string :=
  let word (t : list string) (i : Z) := nth (Z.to_nat i) t "" in
  if (n <? 20)%Z then word ones n
  else if (n <? 100)%Z then
    word tens (n / 10)
      ++ (if (n mod 10 =? 0)%Z then "" else "-" ++ word ones (n mod 10))
  else
    let r := (n mod 100)%Z in
    word ones (n / 100) ++ " hundred"
      ++ (if (r =? 0)%Z then ""
          else if (r <? 20)%Z then " and " ++ word ones r
          else " and " ++ word tens (r / 10)
                 ++ (if (r mod 10 =? 0)%Z then ""
                     else "-" ++ word ones (r mod 10))).

(** [b] is [a] with some whitespace units turned into hyphens and nothing
    else changed. *)
Fixpoint spaces_to_hyphens (a b : string) : Prop :=
  match a, b with
  | EmptyString, EmptyString => True
  | String x a', String y b' =>
      (x = y \/ (is_space x = true /\ y = "-"%char))
      /\ spaces_to_hyphens a' b'
  | _, _ => False
  end.

Definition is_lower (c : ascii) : bool :=
  let n := nat_of_ascii c in (97 <=? n)%nat && (n <=? 122)%nat.

(** Words of lower-case letters separated by single spaces. *)
Fixpoint words_from (after_letter : bool) (s : string) : bool :=
  match s with
  | EmptyString => after_letter
  | String c s' =>
      if is_lower c then words_from true s'
      else Ascii.eqb c " " && after_letter && words_from false s'
  end.

Definition well_spaced_words (s : string) : bool := words_from false s.

Fixpoint distinct (l : list string) : bool :=
  match l with
  | [] => true
  | a :: l' => negb (existsb (String.eqb a) l') && distinct l'
  end.

(** The place of a voice in the order of preference: the first test of
    [pick] it passes. *)
Definition rank (v : Voice) : nat :=
  if is_exact v then 0
  else if is_nameContains v then 1
  else if is_gbMale v then 2
  else if is_gbAny v then 3
  else if is_usMale v then 4
  else 5.

(** The shape the self-test asks of a target: [n] digits, and from two
    digits on a first digit other than 0. *)
Definition target_shape (z : Z) : bool :=
  let t := decimal z in
  is_digits (if (z <? 10)%Z then 1 else if (z <? 100)%Z then 2 else 3) t
  && ((z <? 10)%Z || negb (starts_with_0 t)).

(** The target is the decimal string of an integer of 0..999. *)
Definition generated (t : string) : Prop :=
  exists z : Z, (0 <= z <= 999)%Z /\ t = decimal z.

(** What holds of every render the component keeps: in the state cells, in
    the registered listener and in the pending timeouts. *)
Definition good_snap (s : state) : Prop :=
  (level s = 1 \/ level s = 2 \/ level s = 3)%Z
  /\ (totalTrials s = 10 \/ totalTrials s = 25 \/ totalTrials s = 50)%Z
  /\ (0 <= trialIdx s <= 50)%Z.

Definition good_timer (t : timer) : Prop :=
  match cb t with
  | CorrectTimeout snap => good_snap snap
  | RetryTimeout snap => good_snap snap /\ generated (target snap)
  | StartTimeout snap => good_snap snap
  end.

Definition is_start (t : timer) : Prop :=
  match cb t with StartTimeout _ => True | _ => False end.

Definition good_record (r : Trial.t) : Prop :=
  generated (Trial.target r)
  /\ String.length (Trial.response r) = String.length (Trial.target r)
  /\ Trial.correct r = String.eqb (Trial.response r) (Trial.target r)
  /\ (0 <= Trial.timeMs r)%Z.

(** A request to speak with a proper text, the fixed rate and a volume of
    [0, 1]. *)
Definition good_speak (o : output) : Prop :=
  match o with
  | Speak text rate vol =>
      (exists s, text = VString s /\ s <> "")
      /\ rate = (9 # 10)%Q /\ (0 <= vol)%Q /\ (vol <= 1)%Q
  | _ => True
  end.

(** The log is made of requests for silence, of the two sounds, and of
    requests to speak that directly follow a request for silence. *)
Inductive log_ok : list output -> Prop :=
| log_nil : log_ok []
| log_cancel l : log_ok l -> log_ok (l ++ [SpeechCancel])
| log_chime l : log_ok l -> log_ok (l ++ [CorrectChime])
| log_tone l : log_ok l -> log_ok (l ++ [ErrorTone])
| log_speak l text rate vol :
    log_ok l -> good_speak (Speak text rate vol) ->
    log_ok (l ++ [SpeechCancel; Speak text rate vol]).

(** What every reachable world satisfies (see [reachable_sound]). *)
Record Sound (w : world) : Prop := mkSound {
  snd_st : good_snap (st w);
  snd_listener : good_snap (listener w);
  snd_timers : Forall good_timer (timers w);
  snd_score : (0 <= score (st w))%Z;
  snd_target : target (st w) = "" \/ generated (target (st w));
  snd_blank :
    target (st w) = "" ->
    (status (st w) = idle \/ status (st w) = complete)
    /\ Forall is_start (timers w);
  snd_input :
    (String.length (input (st w)) <= String.length (target (st w)))%nat;
  snd_listening :
    status (st w) = listening ->
    (String.length (input (st w)) < String.length (target (st w)))%nat;
  snd_results : Forall good_record (results (st w));
  snd_ref : forall t, trialStartRef w = Some t -> (t <= clock w)%Z;
  snd_out : log_ok (out w)
}.

Definition Inv (w : world) : Prop := Sound w /\ coherent w.


(** *** Inputs of the worked instances *)

(** The world a scripted session ends in, from the mounted component. *)
Definition world_after (script : list (event * Z * Q)) : world :=
  match run plain_runtime script initial_world with
  | Some w => w
  | None => initial_world
  end.

(** The binary64 value nearest to 37/90.  Its exact product with 90 is
    below 37; rounded to binary64 the product is 37. *)
Definition near_37_90 : Q := 3702959693615741 # 9007199254740992.

(** Level 1; the target "4" is presented and the hint is asked for. *)
Definition hint_session : list (event * Z * Q) :=
  [ (ClickStart, 0, 0%Q); (Timeout, 100, 7 # 16); (ClickHint, 500, 0%Q) ].

(** Level 3, first trial: the target is "470" and "4" has been typed. *)
Definition sample_state3 : state :=
  mkState 3 10 1 "470" "4" listening [] 1 0 false false false.

Definition sample_world3 : world :=
  mkWorld sample_state3 sample_state3 (Some 0) [] 0 [].

(** Level 2, the hint is shown for the target "47". *)
Definition hint_state : state := with_showHint true sample_state.

(** Three trials started, two credited. *)
Definition scored_state : state :=
  with_score 2 (with_trialIdx 3 sample_state).

(** A browser's voices: no "Google UK English Male" among them; the name
    pattern finds "Male" inside "Female". *)
Definition sample_voices : list Voice :=
  [ mkVoice "Samantha" "en-US"; mkVoice "Daniel" "en-GB";
    mkVoice "Google UK English Female" "en-GB";
    mkVoice "Microsoft George - English (United Kingdom) male" "en-GB" ].

(* ================================================================== *)
(** ** Properties of the verbalizer and of the target generator *)
(* ================================================================== *)

Section Verbalizer.

Variable rt : runtime.

(** A boolean test that holds on 0..999 one by one holds on every integer
    of the range. *)
Lemma check_0_999 (P : Z -> bool) :
  forallb P (map Z.of_nat (seq 0 1000)) = true ->
  forall z, (0 <= z <= 999)%Z -> P z = true.
Proof.
  intros H z Hz.
  rewrite forallb_forall in H. apply H.
  rewrite <- (Z2Nat.id z) by lia.
  apply in_map, in_seq. lia.
Qed.

Lemma toWords_verbalize (z : Z) :
  (0 <= z <= 999)%Z ->
  value_eqb (toWords rt (Fin (inject_Z z))) (VString (verbalize z)) = true.
Proof.
  revert z. apply check_0_999. vm_compute. reflexivity.
Qed.

Lemma value_eqb_eq (a b : value) : value_eqb a b = true -> a = b.
Proof.
  destruct a, b; simpl; try discriminate; auto.
  intros H. apply String.eqb_eq in H. now subst.
Qed.

Lemma toWords_oracle (z : Z) :
  (0 <= z <= 999)%Z ->
  match oracle_at z oracle with
  | Some s => value_eqb (toWords rt (Fin (inject_Z z))) (VString s)
  | None => true
  end = true.
Proof.
  revert z. apply check_0_999. vm_compute. reflexivity.
Qed.

(** C1. For every integer n with 0 <= n <= 999, [toWords n] is the string
    the specification's algorithm gives, and where the specification's
    oracle table has an entry for n, it is that entry. *)
Theorem toWords_matches_spec (z : Z) (H : (0 <= z <= 999)%Z) :
  toWords rt (Fin (inject_Z z)) = VString (verbalize z)
  /\ (forall s, oracle_at z oracle = Some s ->
        toWords rt (Fin (inject_Z z)) = VString s).
Proof.
  split.
  - apply value_eqb_eq, toWords_verbalize, H.
  - intros s Hs. pose proof (toWords_oracle z H) as Ho.
    rewrite Hs in Ho. now apply value_eqb_eq.
Qed.

Lemma lookups_checked (z : Z) :
  (0 <= z <= 999)%Z ->
  (let (v, tr) := toWords_traced rt (Fin (inject_Z z)) in
   forallb in_bounds tr && nonempty v) = true.
Proof.
  revert z. apply check_0_999. vm_compute. reflexivity.
Qed.

Lemma Qeq_inject_integer (q : Q) (z : Z) :
  (q == inject_Z z)%Q -> is_integer q = true /\ Qfloor q = z.
Proof.
  intros H. split.
  - unfold is_integer. unfold Qeq in H. simpl in H.
    rewrite Z.mul_1_r in H. rewrite H. rewrite Z.mod_mul; [reflexivity|lia].
  - rewrite (Qfloor_comp _ _ H). apply Qfloor_Z.
Qed.

Lemma is_integer_iff (q : Q) :
  is_integer q = true <-> exists z, (q == inject_Z z)%Q.
Proof.
  split.
  - unfold is_integer. intros H. apply Z.eqb_eq in H.
    exists (Qnum q / Zpos (Qden q))%Z.
    unfold Qeq. simpl. rewrite Z.mul_1_r.
    rewrite Z.mul_comm. apply Z.div_exact; [discriminate|exact H].
  - intros [z Hz]. apply (Qeq_inject_integer q z Hz).
Qed.

Lemma not_integer_shift (q q' : Q) (m : Z) :
  is_integer q = false -> (q' == q - inject_Z m)%Q -> is_integer q' = false.
Proof.
  intros Hq E. destruct (is_integer q') eqn:H'; [|reflexivity].
  apply is_integer_iff in H'. destruct H' as [z Hz].
  assert (Hi : is_integer q = true).
  { apply is_integer_iff. exists (z + m)%Z.
    rewrite inject_Z_plus, <- Hz, E. ring. }
  congruence.
Qed.

Lemma js_rem_not_integer (q : Q) (m : Z) :
  is_integer q = false -> is_integer (js_rem q (inject_Z m)) = false.
Proof.
  intros Hq.
  apply (not_integer_shift q _ (m * Qtrunc (q / inject_Z m)) Hq).
  unfold js_rem. rewrite inject_Z_mult. reflexivity.
Qed.

Lemma not_integer_truthy (q : Q) : is_integer q = false -> truthy q = true.
Proof.
  intros Hq. unfold truthy. destruct (Qeq_bool q 0) eqn:E; [|reflexivity].
  apply Qeq_bool_eq in E.
  assert (Hi : is_integer q = true) by (apply is_integer_iff; now exists 0%Z).
  congruence.
Qed.

Lemma not_integer_nonzero (q : Q) :
  is_integer q = false -> Qeq_bool q 0 = false.
Proof.
  intros Hq. pose proof (not_integer_truthy q Hq) as H. unfold truthy in H.
  now destruct (Qeq_bool q 0).
Qed.

Lemma fractional_read_out_of_table (q : Q) :
  (0 <= q)%Q -> (q <= 999)%Q -> is_integer q = false ->
  exists i, In (Lookup Ones i) (snd (toWords_traced rt (Fin q)))
            /\ in_bounds (Lookup Ones i) = false.
Proof.
  intros H0 H1 Hq.
  assert (out : forall i, is_integer i = false ->
            in_bounds (Lookup Ones i) = false).
  { intros i Hi. unfold in_bounds. now rewrite Hi. }
  unfold toWords_traced.
  replace (Qltb q 0) with false
    by (symmetry; unfold Qltb; apply negb_false_iff, Qle_bool_iff; exact H0).
  replace (Qltb 999 q) with false
    by (symmetry; unfold Qltb; apply negb_false_iff, Qle_bool_iff; exact H1).
  simpl orb. cbv iota.
  pose proof (js_rem_not_integer q 10 Hq) as R10.
  pose proof (js_rem_not_integer q 100 Hq) as R100.
  change (inject_Z 10) with 10%Q in R10.
  change (inject_Z 100) with 100%Q in R100.
  destruct (Qltb q 20).
  { exists q. split; [left; reflexivity|now apply out]. }
  destruct (Qltb q 100).
  { rewrite (not_integer_truthy _ R10).
    exists (js_rem q 10). split; [right; left; reflexivity|now apply out]. }
  rewrite (not_integer_nonzero _ R100).
  destruct (Qltb (js_rem q 100) 20).
  { exists (js_rem q 100). split; [right; left; reflexivity|now apply out]. }
  pose proof (js_rem_not_integer (js_rem q 100) 10 R100) as U.
  change (inject_Z 10) with 10%Q in U.
  rewrite (not_integer_truthy _ U).
  exists (js_rem (js_rem q 100) 10).
  split; [right; right; left; reflexivity|now apply out].
Qed.
(** C10. For an integer n with 0 <= n <= 999, every table read of
    [toWords n] is inside its table, the stringification fallback is not
    taken, and the result is a non-empty string.  The range alone does not
    give this: for every n of the range that is not an integer, a read of
    [ones] is outside the table; for one half, it is the only read and the
    result is [undefined]. *)
Theorem toWords_lookups_in_bounds (z : Z) (H : (0 <= z <= 999)%Z) :
  (forall x, In x (snd (toWords_traced rt (Fin (inject_Z z)))) ->
     in_bounds x = true /\ x <> Stringified)
  /\ (exists s, toWords rt (Fin (inject_Z z)) = VString s /\ s <> "")
  /\ (forall q : Q,
        (0 <= q)%Q -> (q <= 999)%Q -> is_integer q = false ->
        exists i, In (Lookup Ones i) (snd (toWords_traced rt (Fin q)))
                  /\ in_bounds (Lookup Ones i) = false)
  /\ toWords_traced rt (Fin (1 # 2)) = (VUndefined, [Lookup Ones (1 # 2)]).
Proof.
  pose proof (lookups_checked z H) as Hc. unfold toWords.
  destruct (toWords_traced rt (Fin (inject_Z z))) as [v tr]. simpl.
  apply andb_prop in Hc. destruct Hc as [Hb Hn].
  split; [|split; [|split]].
  - intros x Hx. rewrite forallb_forall in Hb. specialize (Hb x Hx).
    split; [exact Hb|]. intros ->. discriminate.
  - destruct v as [[|c s]|]; try discriminate.
    exists (String c s). split; [reflexivity|discriminate].
  - apply fractional_read_out_of_table.
  - reflexivity.
Qed.

End Verbalizer.

(* ================================================================== *)
(** ** Binary64 rounding of the generator's product *)
(* ================================================================== *)

Lemma pow2_pos (e : Z) : (0 < pow2 e)%Q.
Proof. apply Qpower_0_lt. reflexivity. Qed.

Lemma pow2_le (a b : Z) : (a <= b)%Z -> (pow2 a <= pow2 b)%Q.
Proof. intros H. apply Qpower_le_compat_l; [exact H|discriminate]. Qed.

Lemma pow2_lt_inv (a b : Z) : (pow2 a < pow2 b)%Q -> (a < b)%Z.
Proof. intros H. apply (Qpower_lt_compat_l_inv 2); [exact H|reflexivity]. Qed.

Lemma pow2_add (a b : Z) : (pow2 (a + b) == pow2 a * pow2 b)%Q.
Proof. apply Qpower_plus. discriminate. Qed.

Lemma pow2_Z (n : Z) : (0 <= n)%Z -> (inject_Z (2 ^ n) == pow2 n)%Q.
Proof. intros H. apply (Zpower_Qpower 2 n H). Qed.

Lemma inject_Z_lt (a b : Z) : (a < b)%Z -> (inject_Z a < inject_Z b)%Q.
Proof. intros H. rewrite <- Zlt_Qlt. exact H. Qed.

Lemma inject_Z_le (a b : Z) : (a <= b)%Z -> (inject_Z a <= inject_Z b)%Q.
Proof. intros H. rewrite <- Zle_Qle. exact H. Qed.

(** A positive integer lies in the binade its [Z.log2] names. *)
Lemma log2_binade (n : Z) :
  (0 < n)%Z ->
  (pow2 (Z.log2 n) <= inject_Z n)%Q /\ (inject_Z n < pow2 (Z.log2 n + 1))%Q.
Proof.
  intros Hn. destruct (Z.log2_spec n Hn) as [Hlo Hhi].
  pose proof (Z.log2_nonneg n) as H0.
  split.
  - rewrite <- pow2_Z by exact H0. apply inject_Z_le, Hlo.
  - rewrite <- pow2_Z by lia. apply inject_Z_lt.
    replace (Z.log2 n + 1)%Z with (Z.succ (Z.log2 n)) by lia. exact Hhi.
Qed.

Lemma Q_as_fraction (q : Q) :
  (q * inject_Z (Zpos (Qden q)) == inject_Z (Qnum q))%Q.
Proof.
  destruct q as [n d]. unfold Qeq, Qmult, inject_Z. simpl. lia.
Qed.

Lemma binade_spec (q : Q) :
  (0 < q)%Q ->
  (pow2 (binade q) <= q)%Q /\ (q < pow2 (binade q + 1))%Q.
Proof.
  intros Hq.
  assert (Hn : (0 < Qnum q)%Z).
  { destruct q as [n d]. unfold Qlt in Hq. simpl in *. lia. }
  destruct (log2_binade (Qnum q) Hn) as [Hn1 Hn2].
  destruct (log2_binade (Zpos (Qden q)) (Pos2Z.is_pos _)) as [Hd1 Hd2].
  pose proof (Q_as_fraction q) as Hf.
  set (a := Z.log2 (Qnum q)) in *. set (b := Z.log2 (Zpos (Qden q))) in *.
  set (m := inject_Z (Zpos (Qden q))) in *.
  set (n := inject_Z (Qnum q)) in *.
  assert (Hm : (0 < m)%Q) by (apply (inject_Z_lt 0), Pos2Z.is_pos).
  (* the two crude bounds *)
  assert (Hup : (q < pow2 (a - b + 1))%Q).
  { apply (Qmult_lt_r _ _ (pow2 b)); [apply pow2_pos|].
    rewrite <- pow2_add. replace (a - b + 1 + b)%Z with (a + 1)%Z by lia.
    apply Qle_lt_trans with (q * m)%Q.
    - apply Qmult_le_l; [exact Hq|exact Hd1].
    - rewrite Hf. exact Hn2. }
  assert (Hdown : (pow2 (a - b - 1) < q)%Q).
  { apply (Qmult_lt_r _ _ m); [exact Hm|].
    rewrite Hf. apply Qlt_le_trans with (pow2 a); [|exact Hn1].
    replace a with (a - b - 1 + (b + 1))%Z at 2 by lia.
    rewrite pow2_add. apply Qmult_lt_l; [apply pow2_pos|exact Hd2]. }
  unfold binade. fold a b.
  destruct (Qle_bool (pow2 (a - b)) q) eqn:E.
  - apply Qle_bool_iff in E. split; [exact E|exact Hup].
  - split; [apply Qlt_le_weak, Hdown|].
    replace (a - b - 1 + 1)%Z with (a - b)%Z by lia.
    apply Qnot_le_lt. intros H. apply Qle_bool_iff in H. congruence.
Qed.

Lemma Qltb_lt (x y : Q) : Qltb x y = true <-> (x < y)%Q.
Proof.
  unfold Qltb. rewrite negb_true_iff. split.
  - intros H. apply Qnot_le_lt. intros H'. apply Qle_bool_iff in H'.
    congruence.
  - intros H. destruct (Qle_bool y x) eqn:E; [|reflexivity].
    apply Qle_bool_iff in E. exfalso. apply (Qlt_not_le _ _ H E).
Qed.

Lemma Qltb_ge (x y : Q) : Qltb x y = false <-> (y <= x)%Q.
Proof.
  unfold Qltb. rewrite negb_false_iff. apply Qle_bool_iff.
Qed.

(** Rounding to the nearest integer moves a number by at most one half. *)
Lemma round_half_even_near (q : Q) :
  (q - (1 # 2) <= inject_Z (round_half_even q))%Q
  /\ (inject_Z (round_half_even q) <= q + (1 # 2))%Q.
Proof.
  pose proof (Qfloor_le q) as Hlo. pose proof (Qlt_floor q) as Hhi.
  rewrite inject_Z_plus in Hhi. change (inject_Z 1) with 1%Q in Hhi.
  unfold round_half_even.
  destruct (Qltb (q - inject_Z (Qfloor q)) (1 # 2)) eqn:E1.
  - apply Qltb_lt in E1. split; lra.
  - apply Qltb_ge in E1.
    assert (Hup : (q - (1 # 2) <= inject_Z (Qfloor q + 1))%Q
                  /\ (inject_Z (Qfloor q + 1) <= q + (1 # 2))%Q).
    { rewrite inject_Z_plus. change (inject_Z 1) with 1%Q. split; lra. }
    destruct (Qltb (1 # 2) (q - inject_Z (Qfloor q))) eqn:E2;
      [exact Hup|].
    apply Qltb_ge in E2.
    destruct (Z.even (Qfloor q)); [split; lra|exact Hup].
Qed.

Lemma round_half_even_nonneg (q : Q) :
  (0 <= q)%Q -> (0 <= round_half_even q)%Z.
Proof.
  intros Hq.
  assert (H0 : (0 <= Qfloor q)%Z).
  { change 0%Z with (Qfloor 0). apply Qfloor_resp_le, Hq. }
  unfold round_half_even.
  destruct (Qltb _ _); [exact H0|].
  destruct (Qltb _ _); [lia|]. destruct (Z.even _); lia.
Qed.

Lemma round64_pos (q : Q) :
  (0 < q)%Q ->
  (round64 q == inject_Z (round_half_even (q / ulp q)) * ulp q)%Q.
Proof.
  intros Hq. unfold round64.
  destruct (Qeq_bool q 0) eqn:E0.
  { apply Qeq_bool_iff in E0. rewrite E0 in Hq. discriminate. }
  assert (Ea : Qabs q = q).
  { destruct q as [[|n|n] d]; try reflexivity; discriminate. }
  assert (El : Qltb q 0 = false) by (apply Qltb_ge; lra).
  rewrite El, Ea. reflexivity.
Qed.

Lemma round64_near (q : Q) :
  (0 < q)%Q ->
  (0 <= round64 q)%Q /\ (round64 q <= q + ulp q * (1 # 2))%Q.
Proof.
  intros Hq. rewrite (round64_pos q Hq).
  pose proof (pow2_pos (Z.max (binade q - 52) (-1074))) as Hu.
  fold (ulp q) in Hu. set (u := ulp q) in *.
  assert (Hx : (0 <= q / u)%Q).
  { apply Qle_shift_div_l; [exact Hu|]. lra. }
  split.
  - apply Qmult_le_0_compat; [|lra].
    apply (inject_Z_le 0), round_half_even_nonneg, Hx.
  - destruct (round_half_even_near (q / u)) as [_ H].
    apply Qle_trans with ((q / u + (1 # 2)) * u)%Q.
    + apply Qmult_le_compat_r; [exact H|lra].
    + assert (E : ((q / u + (1 # 2)) * u == q + u * (1 # 2))%Q).
      { field. intros H0. rewrite H0 in Hu. discriminate. }
      rewrite E. apply Qle_refl.
Qed.

Ltac literal_powers :=
  let a := eval vm_compute in (2 ^ 53)%positive in
  let b := eval vm_compute in (2 ^ 52)%positive in
  change (2 ^ 53)%positive with a in *;
  change (2 ^ 52)%positive with b in *.

(** The largest binary64 value below 1 is [1 - 2^-53]. *)
Lemma binary64_below_one (rnd : Q) :
  binary64 rnd = true -> (0 <= rnd)%Q -> (rnd < 1)%Q ->
  (rnd <= 1 - (1 # 2 ^ 53))%Q.
Proof.
  intros Hb H0 H1.
  destruct (Qeq_bool rnd 0) eqn:E0.
  { apply Qeq_bool_iff in E0. rewrite E0. discriminate. }
  assert (Hpos : (0 < rnd)%Q).
  { apply Qeq_bool_neq in E0. apply Qnot_le_lt. intros H.
    apply E0. apply Qle_antisym; assumption. }
  destruct (binade_spec rnd Hpos) as [Hlo Hhi].
  assert (He : (binade rnd < 0)%Z).
  { apply pow2_lt_inv. apply Qle_lt_trans with rnd; [exact Hlo|exact H1]. }
  destruct (Z.eq_dec (binade rnd) (-1)) as [E|E].
  - apply Qeq_bool_iff in Hb. rewrite (round64_pos rnd Hpos) in Hb.
    unfold ulp in Hb. rewrite E in Hb.
    change (pow2 (Z.max (-1 - 52) (-1074))) with (1 # 2 ^ 53)%Q in Hb.
    set (N := round_half_even _) in Hb.
    rewrite <- Hb in H1 |- *.
    assert (HN : (N < 2 ^ 53)%Z).
    { unfold Qlt, Qmult, inject_Z in H1. simpl in H1. lia. }
    unfold Qle, Qmult, Qminus, Qplus, Qopp, inject_Z. simpl. lia.
  - apply Qle_trans with (pow2 (-1)); [|discriminate].
    apply Qlt_le_weak. apply Qlt_le_trans with (pow2 (binade rnd + 1));
      [exact Hhi|].
    apply pow2_le. lia.
Qed.

(** A product that stays [k * 2^-53] below an integer [k] which is not a
    power of two is rounded to a value below [k]. *)
Lemma round64_below (k E : Z) (x : Q) :
  (pow2 E < inject_Z k)%Q -> (inject_Z k < pow2 (E + 1))%Q ->
  (-1022 <= E)%Z ->
  (0 < x)%Q -> (x <= inject_Z k * (1 - (1 # 2 ^ 53)))%Q ->
  (0 <= round64 x)%Q /\ (round64 x < inject_Z k)%Q.
Proof.
  intros Hk1 Hk2 HE Hx Hxk.
  destruct (round64_near x Hx) as [H0 Hup]. split; [exact H0|].
  assert (Hu : (ulp x <= pow2 E * (1 # 2 ^ 52))%Q); [|literal_powers; lra].
  destruct (binade_spec x Hx) as [Hlo _].
  pose proof (pow2_pos E) as HpE.
  assert (He : (binade x <= E)%Z).
  { assert (binade x < E + 1)%Z; [|lia]. apply pow2_lt_inv.
    apply Qle_lt_trans with x; [exact Hlo|].
    apply Qle_lt_trans with (inject_Z k * (1 - (1 # 2 ^ 53)))%Q;
      [exact Hxk|].
    apply Qlt_trans with (inject_Z k); [|exact Hk2].
    literal_powers. lra. }
  change (1 # 2 ^ 52)%Q with (pow2 (-52)). rewrite <- pow2_add.
  apply pow2_le. unfold ulp. lia.
Qed.

(** [Math.floor(Math.random() * k)] is one of [0 .. k-1]. *)
Lemma floor_scaled (k E : Z) (rnd : Q) :
  (pow2 E < inject_Z k)%Q -> (inject_Z k < pow2 (E + 1))%Q ->
  (-1022 <= E)%Z ->
  binary64 rnd = true -> (0 <= rnd)%Q -> (rnd < 1)%Q ->
  (0 <= Qfloor (round64 (rnd * inject_Z k)) < k)%Z.
Proof.
  intros Hk1 Hk2 HE Hb H0 H1.
  pose proof (pow2_pos E) as HpE.
  assert (Hk : (0 < k)%Z).
  { rewrite Zlt_Qlt. apply Qlt_trans with (pow2 E); assumption. }
  destruct (Qeq_bool (rnd * inject_Z k) 0) eqn:Ez.
  { unfold round64. rewrite Ez. change (Qfloor 0) with 0%Z. lia. }
  assert (Hx : (0 < rnd * inject_Z k)%Q).
  { apply Qeq_bool_neq in Ez. apply Qnot_le_lt. intros H. apply Ez.
    apply Qle_antisym; [exact H|].
    apply Qmult_le_0_compat; [exact H0|]. apply (inject_Z_le 0). lia. }
  pose proof (binary64_below_one rnd Hb H0 H1) as Hr.
  assert (Hxk : (rnd * inject_Z k <= inject_Z k * (1 - (1 # 2 ^ 53)))%Q).
  { rewrite (Qmult_comm rnd). apply Qmult_le_l; [|exact Hr].
    apply (inject_Z_lt 0), Hk. }
  destruct (round64_below k E _ Hk1 Hk2 HE Hx Hxk) as [Ha Hb'].
  split.
  - change 0%Z with (Qfloor 0). apply Qfloor_resp_le, Ha.
  - rewrite Zlt_Qlt. apply Qle_lt_trans with (round64 (rnd * inject_Z k));
      [apply Qfloor_le|exact Hb'].
Qed.

Section Generator.

Variable rt : runtime.

Lemma String_integer (q : Q) (z : Z) :
  (q == inject_Z z)%Q -> (Z.abs z <= 2 ^ 53)%Z ->
  String_ rt (Fin q) = decimal z.
Proof.
  intros H Hz. destruct (Qeq_inject_integer q z H) as [Hi Hf].
  unfold String_. rewrite Hi, Hf.
  apply Z.leb_le in Hz. rewrite Hz. reflexivity.
Qed.

Lemma decimal_shape_ok (z : Z) : (0 <= z <= 999)%Z -> decimal_shape z = true.
Proof. revert z. apply check_0_999. vm_compute. reflexivity. Qed.

(** What [randomTarget] returns at each level, for a binary64 draw of
    [0, 1): the rounded product never reaches the multiplier. *)
Lemma randomTarget_value (digits : Z) (rnd : Q) :
  digits = 1%Z \/ digits = 2%Z \/ digits = 3%Z ->
  binary64 rnd = true -> (0 <= rnd)%Q -> (rnd < 1)%Q ->
  exists z : Z,
    randomTarget rt digits rnd = decimal z
    /\ ((digits = 1 /\ 0 <= z <= 9) \/ (digits = 2 /\ 10 <= z <= 99)
        \/ (digits = 3 /\ 100 <= z <= 999))%Z.
Proof.
  intros Hd Hb H0 H1.
  destruct Hd as [-> | [-> | ->]]; unfold randomTarget; simpl Z.eqb; cbv iota.
  - pose proof (floor_scaled 10 3 rnd ltac:(reflexivity) ltac:(reflexivity)
                  ltac:(lia) Hb H0 H1) as Hk.
    change (inject_Z 10) with 10%Q in Hk.
    set (k := Qfloor (round64 (rnd * 10))) in *.
    exists k. split; [|lia].
    apply String_integer; [reflexivity|lia].
  - pose proof (floor_scaled 90 6 rnd ltac:(reflexivity) ltac:(reflexivity)
                  ltac:(lia) Hb H0 H1) as Hk.
    change (pow10 2 - 1 - pow10 (2 - 1) + 1)%Q with (inject_Z 90).
    unfold Math_floor.
    set (k := Qfloor (round64 (rnd * inject_Z 90))) in *.
    exists (k + 10)%Z. split; [|lia].
    apply String_integer; [|lia].
    rewrite inject_Z_plus. apply Qplus_comp; reflexivity.
  - pose proof (floor_scaled 900 9 rnd ltac:(reflexivity) ltac:(reflexivity)
                  ltac:(lia) Hb H0 H1) as Hk.
    change (pow10 3 - 1 - pow10 (3 - 1) + 1)%Q with (inject_Z 900).
    unfold Math_floor.
    set (k := Qfloor (round64 (rnd * inject_Z 900))) in *.
    exists (k + 100)%Z. split; [|lia].
    apply String_integer; [|lia].
    rewrite inject_Z_plus. apply Qplus_comp; reflexivity.
Qed.

(** C6. For every level in {1, 2, 3} and every value [Math.random()] can
    return, a binary64 value of [0, 1), [randomTarget] returns the decimal
    string of an integer of 0..9, 10..99 or 100..999 respectively, the
    product being rounded as the language rounds it; the string has exactly
    as many characters as the level, and from level 2 on it does not start
    with "0". *)
Theorem randomTarget_range (digits : Z) (rnd : Q)
    (Hd : digits = 1%Z \/ digits = 2%Z \/ digits = 3%Z)
    (Hb : binary64 rnd = true)
    (H0 : (0 <= rnd)%Q) (H1 : (rnd < 1)%Q) :
  exists z : Z,
    randomTarget rt digits rnd = decimal z
    /\ ((digits = 1 /\ 0 <= z <= 9) \/ (digits = 2 /\ 10 <= z <= 99)
        \/ (digits = 3 /\ 100 <= z <= 999))%Z
    /\ String.length (randomTarget rt digits rnd) = Z.to_nat digits
    /\ (digits <> 1%Z ->
        exists c rest, randomTarget rt digits rnd = String c rest
                       /\ c <> "0"%char).
Proof.
  destruct (randomTarget_value digits rnd Hd Hb H0 H1) as (z & E & Hz).
  exists z. split; [exact E|]. split; [exact Hz|]. rewrite E.
  assert (Hr : (0 <= z <= 999)%Z) by lia.
  pose proof (decimal_shape_ok z Hr) as Hs.
  unfold decimal_shape in Hs. apply andb_prop in Hs. destruct Hs as [Hl Hc].
  apply Nat.eqb_eq in Hl. split.
  - rewrite Hl. destruct Hz as [[-> Hz] | [[-> Hz] | [-> Hz]]].
    + replace (z <? 10)%Z with true by (symmetry; apply Z.ltb_lt; lia).
      reflexivity.
    + replace (z <? 10)%Z with false by (symmetry; apply Z.ltb_ge; lia).
      replace (z <? 100)%Z with true by (symmetry; apply Z.ltb_lt; lia).
      reflexivity.
    + replace (z <? 10)%Z with false by (symmetry; apply Z.ltb_ge; lia).
      replace (z <? 100)%Z with false by (symmetry; apply Z.ltb_ge; lia).
      reflexivity.
  - intros Hn. apply orb_prop in Hc. destruct Hc as [Hc|Hc].
    + apply Z.ltb_lt in Hc. lia.
    + destruct (decimal z) as [|c rest]; [discriminate|].
      exists c, rest. split; [reflexivity|].
      intros ->. discriminate.
Qed.
End Generator.

(** The rounding matters: at the binary64 value nearest to 37/90 the exact
    product with 90 is below 37, the rounded product is 37, and the target
    is "47". *)
Lemma product_is_rounded :
  binary64 near_37_90 = true
  /\ Qfloor (near_37_90 * 90) = 36%Z
  /\ Qfloor (round64 (near_37_90 * 90)) = 37%Z
  /\ randomTarget plain_runtime 2 near_37_90 = "47".
Proof.
  split; [|split; [|split]]; vm_compute; reflexivity.
Qed.

(* ================================================================== *)
(** ** Properties of the trial state machine *)
(* ================================================================== *)

Section Machine.

Variable rt : runtime.


Lemma Status_eqb_eq (a b : Status) : Status_eqb a b = true <-> a = b.
Proof.
  destruct a, b; simpl; split; intros H; try reflexivity; discriminate.
Qed.

Lemma Status_eqb_refl (a : Status) : Status_eqb a a = true.
Proof. now destruct a. Qed.

Lemma deps_eqb_refl (s : state) : deps_eqb s s = true.
Proof.
  unfold deps_eqb.
  now rewrite Status_eqb_refl, !String.eqb_refl, !Z.eqb_refl, Qeq_bool_refl,
    Bool.eqb_reflx.
Qed.

Lemma deps_eqb_fields (a b : state) :
  deps_eqb a b = true ->
  status a = status b /\ input a = input b /\ target a = target b
  /\ level a = level b /\ totalTrials a = totalTrials b
  /\ (volume a == volume b)%Q
  /\ hadErrorThisTarget a = hadErrorThisTarget b.
Proof.
  unfold deps_eqb. intros H.
  repeat (apply andb_prop in H; destruct H as [H ?]).
  repeat split.
  - now apply Status_eqb_eq.
  - now apply String.eqb_eq.
  - now apply String.eqb_eq.
  - now apply Z.eqb_eq.
  - now apply Z.eqb_eq.
  - now apply Qeq_bool_eq.
  - now apply Bool.eqb_prop.
Qed.

Lemma commit_coherent (w : world) : coherent (commit w).
Proof.
  unfold coherent, commit. destruct (deps_eqb (st w) (listener w)) eqn:E.
  - exact E.
  - simpl. apply deps_eqb_refl.
Qed.

Lemma commit_id (w : world) : coherent w -> commit w = w.
Proof. unfold coherent, commit. now intros ->. Qed.

Lemma st_commit (w : world) : st (commit w) = st w.
Proof. unfold commit. now destruct (deps_eqb (st w) (listener w)). Qed.

Lemma timers_commit (w : world) : timers (commit w) = timers w.
Proof. unfold commit. now destruct (deps_eqb (st w) (listener w)). Qed.

Lemma out_commit (w : world) : out (commit w) = out w.
Proof. unfold commit. now destruct (deps_eqb (st w) (listener w)). Qed.

Lemma ref_commit (w : world) : trialStartRef (commit w) = trialStartRef w.
Proof. unfold commit. now destruct (deps_eqb (st w) (listener w)). Qed.

Lemma exec_coherent e now rnd w : coherent w -> coherent (exec rt e now rnd w).
Proof.
  intros H. unfold exec.
  destruct e; try apply commit_coherent.
  - destruct (v =? level _)%Z; [exact H|apply commit_coherent].
  - destruct (v =? totalTrials _)%Z; [exact H|apply commit_coherent].
  - simpl. destruct (timers w); [exact H|apply commit_coherent].
Qed.

Lemma reachable_coherent w : reachable rt w -> coherent w.
Proof.
  induction 1 as [|w w' _ IH Hs].
  - reflexivity.
  - destruct Hs. now apply exec_coherent.
Qed.

Lemma length_append (a b : string) :
  String.length (a ++ b) = (String.length a + String.length b)%nat.
Proof. induction a as [|c a IH]; simpl; [reflexivity|now rewrite IH]. Qed.

Lemma append_assoc (a b c : string) : (a ++ b) ++ c = a ++ (b ++ c).
Proof. induction a as [|x a IH]; simpl; [reflexivity|now rewrite IH]. Qed.

Lemma append_empty_r (a : string) : a ++ "" = a.
Proof. induction a as [|x a IH]; simpl; [reflexivity|now rewrite IH]. Qed.

Lemma In_enqueue t l : In t (enqueue t l).
Proof.
  induction l as [|t' l IH]; simpl; [now left|].
  destruct (due t' <=? due t)%Z; simpl; auto.
Qed.

Lemma In_enqueue_old t t' l : In t l -> In t (enqueue t' l).
Proof.
  induction l as [|x l IH]; simpl; [tauto|].
  intros [E|H]; destruct (due x <=? due t')%Z; simpl; auto.
Qed.

Lemma In_enqueue_inv t t' l : In t (enqueue t' l) -> t = t' \/ In t l.
Proof.
  induction l as [|x l IH]; simpl.
  - intros [H|[]]; auto.
  - destruct (due x <=? due t')%Z; simpl; intros [H|H]; auto.
    destruct (IH H); auto.
Qed.

(* handleDigit on a wrong, length-complete attempt *)
Lemma handleDigit_wrong snap d now w :
  status snap = listening ->
  (String.length (input snap) < String.length (target snap))%nat ->
  String.length (input snap ++ d) = String.length (target snap) ->
  input snap ++ d <> target snap ->
  handleDigit snap d now w =
  setTimeout (RetryTimeout snap) 2000 now
    (setHadErrorThisTarget true
      (playErrorTone
        (setStatus incorrect
          (setResults_fn
             (fun r => (r ++ [Trial.mk (target snap) (input snap ++ d) false
                         (elapsed now w)])%list)
             (setInput (input snap ++ d) w))))).
Proof.
  intros Hs Hlt Hlen Hne. unfold handleDigit.
  rewrite Hs. simpl negb. cbv iota.
  replace (String.length (target snap) <=? String.length (input snap))%nat
    with false by (symmetry; apply Nat.leb_gt; exact Hlt).
  rewrite Hlen, Nat.eqb_refl.
  replace (input snap ++ d =? target snap)%string with false
    by (symmetry; now apply String.eqb_neq).
  reflexivity.
Qed.

Lemma handleDigit_right snap d now w :
  status snap = listening ->
  (String.length (input snap) < String.length (target snap))%nat ->
  input snap ++ d = target snap ->
  handleDigit snap d now w =
  setTimeout (CorrectTimeout snap) 2000 now
      (playCorrectChime
        (setStatus correct
          (setResults_fn
             (fun r => (r ++ [Trial.mk (target snap) (input snap ++ d) true
                         (elapsed now w)])%list)
             (setInput (input snap ++ d) w)))).
Proof.
  intros Hs Hlt He. unfold handleDigit.
  rewrite Hs. simpl negb. cbv iota.
  replace (String.length (target snap) <=? String.length (input snap))%nat
    with false by (symmetry; apply Nat.leb_gt; exact Hlt).
  rewrite He, Nat.eqb_refl, String.eqb_refl.
  reflexivity.
Qed.

Lemma handleDigit_partial snap d now w :
  status snap = listening ->
  (String.length (input snap ++ d) < String.length (target snap))%nat ->
  handleDigit snap d now w = setInput (input snap ++ d) w.
Proof.
  intros Hs Hlt. unfold handleDigit.
  rewrite Hs. simpl negb. cbv iota.
  rewrite length_append in Hlt.
  replace (String.length (target snap) <=? String.length (input snap))%nat
    with false by (symmetry; apply Nat.leb_gt; lia).
  rewrite length_append.
  replace (String.length (input snap) + String.length d
           =? String.length (target snap))%nat
    with false by (symmetry; apply Nat.eqb_neq; lia).
  reflexivity.
Qed.

Lemma handleDigit_ignored snap d now w :
  status snap <> listening
  \/ (String.length (target snap) <= String.length (input snap))%nat ->
  handleDigit snap d now w = w.
Proof.
  intros [H|H]; unfold handleDigit.
  - destruct (Status_eqb (status snap) listening) eqn:E.
    + apply Status_eqb_eq in E. contradiction.
    + reflexivity.
  - destruct (negb (Status_eqb (status snap) listening)); [reflexivity|].
    apply Nat.leb_le in H. now rewrite H.
Qed.


Lemma score_startNextTrial snap lvl now rnd w :
  score (st (startNextTrial rt snap lvl now rnd w)) = score (st w).
Proof.
  unfold startNextTrial. now destruct (totalTrials snap <=? trialIdx snap)%Z.
Qed.

Lemma results_startNextTrial snap lvl now rnd w :
  results (st (startNextTrial rt snap lvl now rnd w)) = results (st w).
Proof.
  unfold startNextTrial. now destruct (totalTrials snap <=? trialIdx snap)%Z.
Qed.

Lemma correct_timeout_no_credit snap now rnd w :
  hadErrorThisTarget snap = true ->
  score (st (run_callback rt (CorrectTimeout snap) now rnd w)) = score (st w).
Proof.
  intros H. unfold run_callback. rewrite H. simpl negb. cbv iota.
  destruct (totalTrials snap <=? trialIdx snap)%Z; [reflexivity|].
  apply score_startNextTrial.
Qed.

Lemma typing_the_target (suf : string) :
  forall (pre : string) (now : Z) (w : world),
    suf <> "" ->
    status (st w) = listening ->
    input (st w) = pre ->
    target (st w) = pre ++ suf ->
    let w' := type_digits rt suf now w in
    status (st w') = correct
    /\ score (st w') = score (st w)
    /\ exists snap,
         timers w' = enqueue (mkTimer (now + 2000) (CorrectTimeout snap))
                       (timers w)
         /\ hadErrorThisTarget snap = hadErrorThisTarget (st w).
Proof.
  induction suf as [|c suf IH]; intros pre now w Hne Hs Hi Ht; [congruence|].
  cbn [type_digits]. unfold exec.
  set (w0 := set_clock now w).
  assert (Hs0 : status (st w0) = listening) by exact Hs.
  destruct suf as [|c' suf].
  - simpl. rewrite st_commit, timers_commit.
    rewrite handleDigit_right.
    + simpl. repeat split. exists (st w). split; reflexivity.
    + exact Hs0.
    + change (st w0) with (st w). rewrite Hi, Ht, length_append. simpl. lia.
    + change (st w0) with (st w). now rewrite Hi, Ht.
  - assert (Hp : handleDigit (st w0) (String c "") now w0
                 = setInput (input (st w0) ++ String c "") w0).
    { apply handleDigit_partial; [exact Hs0|].
      change (st w0) with (st w). rewrite Hi, Ht, !length_append. simpl. lia. }
    rewrite Hp.
    specialize (IH (pre ++ String c "") now
                  (commit (setInput (input (st w0) ++ String c "") w0))).
    rewrite st_commit, timers_commit in IH. simpl in IH.
    apply IH.
    + discriminate.
    + exact Hs.
    + now rewrite Hi.
    + rewrite Ht, append_assoc. reflexivity.
Qed.

(** X27. The retry when nothing comes between.  A length-complete wrong
    attempt puts the machine in [incorrect] and schedules the retry.  When
    that attempt's own retry callback runs next (the queue then being
    [rest]), the machine is listening again with the input empty, the same
    target and the same [trialIdx] (no target is generated), the target's
    phrase is sent to speech again and [hadErrorThisTarget] is set.  When
    the target is typed correctly right after, the machine reaches
    [correct], and the timeout of that answer leaves [score] where it was
    before the wrong attempt. *)
Theorem retry_keeps_target (w : world) (snap : state) (d : string)
    (now now1 now2 : Z) (rnd : Q) (rest : list timer)
    (Hsnap : deps_eqb snap (st w) = true)
    (Hlistening : status (st w) = listening)
    (Hshort :
       (String.length (input (st w)) < String.length (target (st w)))%nat)
    (Hcomplete :
       String.length (input (st w) ++ d) = String.length (target (st w)))
    (Hwrong : input (st w) ++ d <> target (st w)) :
  let w1 := handleDigit snap d now w in
  let w2 :=
    run_callback rt (RetryTimeout snap) now1 rnd (set_timers rest w1) in
  let w3 := type_digits rt (target (st w)) now2 (commit w2) in
  (status (st w1) = incorrect
   /\ timers w1
      = enqueue (mkTimer (now + 2000) (RetryTimeout snap)) (timers w))
  /\ (status (st w2) = listening
      /\ input (st w2) = ""
      /\ target (st w2) = target (st w)
      /\ trialIdx (st w2) = trialIdx (st w)
      /\ score (st w2) = score (st w)
      /\ hadErrorThisTarget (st w2) = true
      /\ out w2 = (out w1 ++
           [SpeechCancel;
            Speak (speechTextForTarget rt (target (st w)) (level (st w)))
              (9 # 10) (clamp01 (volume snap))])%list)
  /\ (status (st w3) = correct
      /\ exists snap3,
           timers w3
           = enqueue (mkTimer (now2 + 2000) (CorrectTimeout snap3)) rest
           /\ hadErrorThisTarget snap3 = true
           /\ forall now3 rnd3,
                score
                  (st (run_callback rt (CorrectTimeout snap3) now3 rnd3 w3))
                = score (st w)).
Proof.
  destruct (deps_eqb_fields _ _ Hsnap) as (Es & Ei & Et & El & _ & _ & _).
  intros w1 w2 w3.
  assert (E1 : w1 = setTimeout (RetryTimeout snap) 2000 now
    (setHadErrorThisTarget true
      (playErrorTone
        (setStatus incorrect
          (setResults_fn
             (fun r => (r ++ [Trial.mk (target snap) (input snap ++ d) false
                         (elapsed now w)])%list)
             (setInput (input snap ++ d) w)))))).
  { apply handleDigit_wrong; rewrite ?Es, ?Ei, ?Et; assumption. }
  assert (P2 : status (st w2) = listening
      /\ input (st w2) = ""
      /\ target (st w2) = target (st w)
      /\ trialIdx (st w2) = trialIdx (st w)
      /\ score (st w2) = score (st w)
      /\ hadErrorThisTarget (st w2) = true
      /\ out w2 = (out w1 ++
           [SpeechCancel;
            Speak (speechTextForTarget rt (target (st w)) (level (st w)))
              (9 # 10) (clamp01 (volume snap))])%list).
  { subst w2. rewrite E1. simpl. rewrite Et, El. repeat split. }
  assert (T2 : timers w2 = rest) by reflexivity.
  split; [|split].
  - rewrite E1. split; reflexivity.
  - exact P2.
  - destruct P2 as (S2 & I2 & G2 & _ & C2 & F2 & _).
    assert (Hne : target (st w) <> "").
    { intros E. rewrite E in Hshort. simpl in Hshort. lia. }
    destruct (typing_the_target (target (st w)) "" now2 (commit w2) Hne)
      as (S3 & C3 & snap3 & T3 & F3).
    + now rewrite st_commit.
    + now rewrite st_commit.
    + now rewrite st_commit.
    + fold w3 in S3, C3, T3.
      rewrite st_commit in C3, F3. rewrite timers_commit, T2 in T3.
      split; [exact S3|].
      exists snap3. split; [exact T3|]. split; [congruence|].
      intros now3 rnd3. rewrite correct_timeout_no_credit; congruence.
Qed.

(** C7. When the status is not [listening], or the input already has the
    target's length, a digit (clicked or typed) changes nothing: state,
    timers, reference cell and output log are as before, only the clock has
    moved.  Conversely a digit that changes anything found the machine
    listening with the input strictly shorter than the target. *)
Theorem digit_ignored (w : world) (d : string) (e : event) (now : Z) (rnd : Q)
    (Hcoh : coherent w) (He : digit_event d e) :
  ((status (st w) <> listening
    \/ (String.length (target (st w)) <= String.length (input (st w)))%nat) ->
   exec rt e now rnd w = set_clock now w)
  /\ (exec rt e now rnd w <> set_clock now w ->
      status (st w) = listening
      /\ (String.length (input (st w)) < String.length (target (st w)))%nat).
Proof.
  assert (Hcoh0 : coherent (set_clock now w)) by exact Hcoh.
  assert (ignored :
    status (st w) <> listening
    \/ (String.length (target (st w)) <= String.length (input (st w)))%nat ->
    exec rt e now rnd w = set_clock now w).
  { intros Hc. destruct He as [-> | [-> Hk]]; unfold exec.
    - rewrite handleDigit_ignored by exact Hc. now apply commit_id.
    - unfold onKey. rewrite Hk.
      destruct (deps_eqb_fields _ _ Hcoh) as (Es & Ei & Et & _).
      rewrite handleDigit_ignored.
      + now apply commit_id.
      + simpl. now rewrite <- Es, <- Ei, <- Et. }
  split; [exact ignored|].
  intros Hchg.
  destruct (status (st w)) eqn:Es;
    try (exfalso; apply Hchg, ignored; left; discriminate).
  split; [reflexivity|].
  destruct (Nat.le_gt_cases (String.length (target (st w)))
              (String.length (input (st w)))) as [Hle|Hgt]; [|exact Hgt].
  exfalso. apply Hchg, ignored. now right.
Qed.

Lemma st_listen snap w : st (listen rt snap w) = st w.
Proof. unfold listen. now destruct (target snap =? "")%string. Qed.

Lemma timers_listen snap w : timers (listen rt snap w) = timers w.
Proof. unfold listen. now destruct (target snap =? "")%string. Qed.

Lemma ref_listen snap w : trialStartRef (listen rt snap w) = trialStartRef w.
Proof. unfold listen. now destruct (target snap =? "")%string. Qed.

Lemma replay_one e now rnd w :
  replay_event e ->
  st (exec rt e now rnd w) = st w
  /\ timers (exec rt e now rnd w) = timers w
  /\ trialStartRef (exec rt e now rnd w) = trialStartRef w.
Proof.
  intros [-> | [-> | ->]]; unfold exec;
    rewrite st_commit, timers_commit, ref_commit;
    [ | change (onKey rt ?s "l" now rnd ?x) with (listen rt s x)
      | change (onKey rt ?s "L" now rnd ?x) with (listen rt s x) ];
    now rewrite st_listen, timers_listen, ref_listen.
Qed.

(** C8. When a target exists, asking for the phrase again, any number of
    times and by button or key, leaves the whole state (so [trialIdx],
    [score], [input], [target] and [status]), the pending timeouts and the
    reference cell unchanged; each request only sends the current target's
    phrase to speech. *)
Theorem replay_changes_nothing (w : world) (script : list (event * Z * Q))
    (Htarget : target (st w) <> "")
    (Hreplay : Forall (fun x => replay_event (fst (fst x))) script) :
  (st (exec_all rt script w) = st w
   /\ timers (exec_all rt script w) = timers w
   /\ trialStartRef (exec_all rt script w) = trialStartRef w)
  /\ (forall e now rnd,
        replay_event e -> coherent w ->
        exists v,
          (v == volume (st w))%Q
          /\ out (exec rt e now rnd w)
             = (out w ++
                [SpeechCancel;
                 Speak (speechTextForTarget rt (target (st w)) (level (st w)))
                   (9 # 10) (clamp01 v)])%list).
Proof.
  split.
  - clear Htarget. revert w.
    induction Hreplay as [|[[e now] rnd] rest He _ IH]; intros w.
    + repeat split.
    + simpl. destruct (replay_one e now rnd w He) as (E1 & E2 & E3).
      destruct (IH (exec rt e now rnd w)) as (F1 & F2 & F3).
      repeat split; congruence.
  - intros e now rnd He Hcoh.
    destruct (deps_eqb_fields _ _ Hcoh) as (_ & _ & Et & El & _ & Ev & _).
    apply String.eqb_neq in Htarget.
    destruct He as [-> | [-> | ->]]; unfold exec; rewrite out_commit;
      [ exists (volume (st w))
      | exists (volume (listener w));
        change (onKey rt ?s "l" now rnd ?x) with (listen rt s x)
      | exists (volume (listener w));
        change (onKey rt ?s "L" now rnd ?x) with (listen rt s x) ];
      unfold listen; simpl; rewrite <- ?Et, <- ?El, Htarget;
      (split; [first [reflexivity | symmetry; exact Ev] | reflexivity]).
Qed.

(** C3, as amended.  Every length-complete attempt, right or wrong, appends
    exactly one record for the current target, with the typed response, the
    verdict and the elapsed time, and leaves the earlier records as they
    are; the retry transition adds no record and removes none. *)
Theorem attempt_appends_record (w : world) (snap : state) (d : string)
    (now : Z)
    (Hsnap : deps_eqb snap (st w) = true)
    (Hlistening : status (st w) = listening)
    (Hshort :
       (String.length (input (st w)) < String.length (target (st w)))%nat)
    (Hcomplete :
       String.length (input (st w) ++ d) = String.length (target (st w))) :
  results (st (handleDigit snap d now w))
  = (results (st w) ++
     [Trial.mk (target (st w)) (input (st w) ++ d)
        (String.eqb (input (st w) ++ d) (target (st w)))
        (elapsed now w)])%list
  /\ (forall snap' now' rnd' w',
        results (st (run_callback rt (RetryTimeout snap') now' rnd' w'))
        = results (st w')).
Proof.
  destruct (deps_eqb_fields _ _ Hsnap) as (Es & Ei & Et & _).
  split; [|reflexivity].
  destruct (String.eqb_spec (input (st w) ++ d) (target (st w))) as [E|E].
  - rewrite handleDigit_right by (rewrite ?Es, ?Ei, ?Et; assumption).
    simpl. now rewrite Ei, Et.
  - rewrite handleDigit_wrong by (rewrite ?Es, ?Ei, ?Et; assumption).
    simpl. now rewrite Ei, Et.
Qed.

Lemma results_run_callback c now rnd w :
  results (st (run_callback rt c now rnd w)) = results (st w).
Proof.
  destruct c as [snap|snap|snap]; simpl.
  - destruct (negb (hadErrorThisTarget snap));
      (destruct (totalTrials snap <=? trialIdx snap)%Z;
       [reflexivity | now rewrite results_startNextTrial]).
  - reflexivity.
  - apply results_startNextTrial.
Qed.

(** X28. No reset and no configuration change removes a pending timeout:
    whatever was pending before Reset, Start, Restart, the key "s" or a
    change of level or session length is pending after it.  When a
    timeout fires, whichever it is, it does not touch the records; the
    retry timeout moreover leaves [trialIdx], [score] and [target] as they
    are and sets the status to [listening] and the input to empty. *)
Theorem reset_keeps_timers (w : world) (e : event) (now : Z) (rnd : Q)
    (t : timer)
    (Hreset : reset_event e) (Hpending : In t (timers w)) :
  In t (timers (exec rt e now rnd w))
  /\ (forall c now' rnd' w',
        results (st (run_callback rt c now' rnd' w')) = results (st w'))
  /\ (forall snap now' rnd' w',
        let w'' := run_callback rt (RetryTimeout snap) now' rnd' w' in
        trialIdx (st w'') = trialIdx (st w')
        /\ score (st w'') = score (st w')
        /\ target (st w'') = target (st w')
        /\ status (st w'') = listening
        /\ input (st w'') = "").
Proof.
  split; [|split].
  - unfold exec.
    destruct Hreset as [-> | [-> | [-> | [-> | [-> | [[v ->] | [v ->]]]]]]];
      try (rewrite timers_commit; apply In_enqueue_old; exact Hpending).
    + destruct (v =? level _)%Z; [exact Hpending|].
      rewrite timers_commit.
      change (timers (level_effect ?x)) with (timers x).
      rewrite timers_commit. exact Hpending.
    + destruct (v =? totalTrials _)%Z; [exact Hpending|].
      rewrite timers_commit. unfold totalTrials_effect.
      match goal with |- context [if ?b then _ else _] => destruct b end.
      * change (timers (resetAll ?s ?n ?x))
          with (enqueue (mkTimer (n + 100) (StartTimeout s)) (timers x)).
        apply In_enqueue_old. rewrite timers_commit. exact Hpending.
      * rewrite timers_commit. exact Hpending.
  - apply results_run_callback.
  - intros. subst w''. simpl. repeat split.
Qed.
End Machine.

(* ================================================================== *)
(** ** Scripted sessions *)
(* ================================================================== *)

Lemma run_reachable (rt : runtime) (script : list (event * Z * Q)) :
  forall w w', reachable rt w -> run rt script w = Some w' -> reachable rt w'.
Proof.
  induction script as [|[[e now] rnd] rest IH]; intros w w' Hw Hrun.
  - injection Hrun as <-. exact Hw.
  - simpl in Hrun. destruct (enabled e now rnd w) eqn:En; [|discriminate].
    apply (IH (exec rt e now rnd w)); [|exact Hrun].
    apply reach_step with w; [exact Hw|]. now constructor.
Qed.

(** The scripted sessions used below, each with the event that follows it
    there, run the same under every runtime: they never reach the two
    conversions a runtime provides. *)
Lemma sessions_any_runtime (rt : runtime) :
  run rt retry_session initial_world
  = run plain_runtime retry_session initial_world
  /\ run rt (reset_session ++ [(Timeout, 3000%Z, 1 # 4)])%list initial_world
     = run plain_runtime (reset_session ++ [(Timeout, 3000%Z, 1 # 4)])%list
         initial_world
  /\ run rt overrun_session initial_world
     = run plain_runtime overrun_session initial_world
  /\ run rt (last_trial_session ++ [(Timeout, 11000%Z, 1 # 4)])%list
       initial_world
     = run plain_runtime (last_trial_session ++ [(Timeout, 11000%Z, 1 # 4)])%list
         initial_world
  /\ run rt (key_next_session ++ [(KeyDown "n", 2000%Z, 3 # 4)])%list
       initial_world
     = run plain_runtime
         (key_next_session ++ [(KeyDown "n", 2000%Z, 3 # 4)])%list
         initial_world.
Proof.
  split; [|split; [|split; [|split]]]; vm_compute; reflexivity.
Qed.

(** The Next button, for comparison with the key "n": below the last trial
    it drops the current target without a record, counts one more trial,
    draws and speaks a target, and clears the input and the error flag. *)
Lemma next_button_starts_trial (rt : runtime) (w : world) (now : Z) (rnd : Q) :
  (trialIdx (st w) < totalTrials (st w))%Z ->
  let w' := exec rt ClickNext now rnd w in
  let t := randomTarget rt (level (st w)) rnd in
  trialIdx (st w') = (trialIdx (st w) + 1)%Z
  /\ target (st w') = t
  /\ input (st w') = ""
  /\ hadErrorThisTarget (st w') = false
  /\ status (st w') = listening
  /\ results (st w') = results (st w)
  /\ out w' = (out w ++
       [SpeechCancel;
        Speak (speechTextForTarget rt t (level (st w))) (9 # 10)
          (clamp01 (volume (st w)))])%list.
Proof.
  intros H w' t. subst w'. unfold exec. rewrite st_commit, out_commit.
  unfold startNextTrial. simpl.
  replace (totalTrials (st w) <=? trialIdx (st w))%Z with false
    by (symmetry; apply Z.leb_gt; exact H).
  repeat split.
Qed.

(** The same button once every trial has been presented: no target is
    generated and nothing is spoken; the machine goes to [complete]. *)
Lemma next_button_at_total (rt : runtime) (w : world) (now : Z) (rnd : Q) :
  (totalTrials (st w) <= trialIdx (st w))%Z ->
  let w' := exec rt ClickNext now rnd w in
  status (st w') = complete
  /\ target (st w') = target (st w)
  /\ trialIdx (st w') = trialIdx (st w)
  /\ out w' = out w.
Proof.
  intros H w'. subst w'. unfold exec. rewrite st_commit, out_commit.
  unfold startNextTrial. simpl.
  replace (totalTrials (st w) <=? trialIdx (st w))%Z with true
    by (symmetry; apply Z.leb_le; exact H).
  repeat split.
Qed.

(** Targets dropped with Next leave no record: [skipping_session] ends
    complete with ten trials started and no record at all. *)
Lemma skipped_targets_leave_no_record :
  exists w,
    run plain_runtime skipping_session initial_world = Some w
    /\ status (st w) = complete
    /\ trialIdx (st w) = 10%Z
    /\ results (st w) = [].
Proof.
  eexists. split; [vm_compute; reflexivity|].
  split; [reflexivity|]. split; reflexivity.
Qed.

(** C3, counterexample.  In [retry_session] one target has been presented
    ([trialIdx] is 1), and after one wrong and one right attempt on it the
    records hold two entries for it. *)
Lemma retries_add_records :
  exists w,
    run plain_runtime retry_session initial_world = Some w
    /\ trialIdx (st w) = 1%Z
    /\ map Trial.target (results (st w)) = ["47"; "47"]
    /\ map Trial.response (results (st w)) = ["57"; "47"]
    /\ map Trial.correct (results (st w)) = [false; true].
Proof.
  eexists. split; [vm_compute; reflexivity|]. repeat split.
Qed.

(** C4, the code at the failing input.  In [reset_session] the timeout of
    the answer given before the reset is still the pending one after the
    reset and its start; the reset left [score] at 0 and the start presented
    "7"; when the stale timeout fires it raises [score] to 1 and replaces
    the target by "2".  In [level_change_session] the change of level left
    the page idle with [score] and [trialIdx] at 0; when the stale timeout
    fires, the page starts by itself: it is listening at level 2 to the
    one-digit target "2", with [score] 1 and [trialIdx] 2. *)
Theorem stale_timeout_mutates_state :
  (exists w snap,
     run plain_runtime reset_session initial_world = Some w
     /\ reachable plain_runtime w
     /\ timers w = [mkTimer 3000 (CorrectTimeout snap)]
     /\ target snap = "4"
     /\ enabled Timeout 3000 (1 # 4) w = true
     /\ score (st w) = 0%Z
     /\ target (st w) = "7"
     /\ score (st (exec plain_runtime Timeout 3000 (1 # 4) w)) = 1%Z
     /\ target (st (exec plain_runtime Timeout 3000 (1 # 4) w)) = "2"
     /\ st (exec plain_runtime Timeout 3000 (1 # 4) w) <> st w)
  /\ (exists w snap,
        run plain_runtime level_change_session initial_world = Some w
        /\ reachable plain_runtime w
        /\ timers w = [mkTimer 3000 (CorrectTimeout snap)]
        /\ enabled Timeout 3000 (1 # 4) w = true
        /\ (status (st w) = idle /\ level (st w) = 2%Z
            /\ score (st w) = 0%Z /\ trialIdx (st w) = 0%Z)
        /\ let w' := exec plain_runtime Timeout 3000 (1 # 4) w in
           status (st w') = listening /\ level (st w') = 2%Z
           /\ target (st w') = "2"
           /\ score (st w') = 1%Z /\ trialIdx (st w') = 2%Z).
Proof.
  split.
  - assert (R : exists w,
        run plain_runtime reset_session initial_world = Some w)
      by (eexists; vm_compute; reflexivity).
    destruct R as [w R].
    pose proof (run_reachable plain_runtime reset_session initial_world w
                  (reach_init plain_runtime) R) as Hr.
    vm_compute in R. injection R as <-.
    eexists. eexists. split; [vm_compute; reflexivity|].
    split; [exact Hr|].
    split; [reflexivity|]. split; [reflexivity|]. split; [reflexivity|].
    split; [reflexivity|]. split; [reflexivity|]. split; [reflexivity|].
    split; [reflexivity|]. discriminate.
  - assert (R : exists w,
        run plain_runtime level_change_session initial_world = Some w)
      by (eexists; vm_compute; reflexivity).
    destruct R as [w R].
    pose proof (run_reachable plain_runtime level_change_session
                  initial_world w (reach_init plain_runtime) R) as Hr.
    vm_compute in R. injection R as <-.
    eexists. eexists. split; [vm_compute; reflexivity|].
    split; [exact Hr|].
    split; [reflexivity|]. split; [reflexivity|].
    split; [split; [|split; [|split]]; reflexivity|].
    split; [|split; [|split; [|split]]]; vm_compute; reflexivity.
Qed.

(** C2, the code at the failing input.  In [forgiven_session] the target
    "4" was answered wrongly, and a change of level came before the retry:
    when the retry transition has run the machine is listening to "4" again
    but the error flag is clear, and the timeout of the right answer that
    follows raises [score] from 0 to 1.  In [crossed_retry_session] the
    machine is in [incorrect] after a wrong answer to "7"; the retry
    transition that takes it back to listening is the one left over from
    the target "4", and it speaks "four". *)
Theorem interrupted_retry_misbehaves :
  (exists w,
     run plain_runtime forgiven_session initial_world = Some w
     /\ reachable plain_runtime w
     /\ (status (st w) = correct /\ target (st w) = "4"
         /\ map Trial.response (results (st w)) = ["4"]
         /\ score (st w) = 0%Z)
     /\ enabled Timeout 6000 (1 # 4) w = true
     /\ score (st (exec plain_runtime Timeout 6000 (1 # 4) w)) = 1%Z)
  /\ (exists w,
        run plain_runtime crossed_retry_session initial_world = Some w
        /\ reachable plain_runtime w
        /\ (status (st w) = incorrect /\ target (st w) = "7"
            /\ hadErrorThisTarget (st w) = true)
        /\ enabled Timeout 3000 0 w = true
        /\ let w' := exec plain_runtime Timeout 3000 0 w in
           status (st w') = listening /\ target (st w') = "7"
           /\ input (st w') = ""
           /\ out w'
              = (out w ++
                 [SpeechCancel; Speak (VString "four") (9 # 10) 1])%list).
Proof.
  split.
  - assert (R : exists w,
        run plain_runtime forgiven_session initial_world = Some w)
      by (eexists; vm_compute; reflexivity).
    destruct R as [w R].
    pose proof (run_reachable plain_runtime forgiven_session initial_world w
                  (reach_init plain_runtime) R) as Hr.
    vm_compute in R. injection R as <-.
    eexists. split; [vm_compute; reflexivity|].
    split; [exact Hr|].
    split; [split; [|split; [|split]]; reflexivity|].
    split; [reflexivity|]. vm_compute. reflexivity.
  - assert (R : exists w,
        run plain_runtime crossed_retry_session initial_world = Some w)
      by (eexists; vm_compute; reflexivity).
    destruct R as [w R].
    pose proof (run_reachable plain_runtime crossed_retry_session
                  initial_world w (reach_init plain_runtime) R) as Hr.
    vm_compute in R. injection R as <-.
    eexists. split; [vm_compute; reflexivity|].
    split; [exact Hr|].
    split; [split; [|split]; reflexivity|].
    split; [reflexivity|].
    split; [vm_compute; reflexivity|].
    split; [vm_compute; reflexivity|].
    split; [vm_compute; reflexivity|].
    vm_compute. reflexivity.
Qed.

(** C5, the code at the failing input.  After [overrun_session] the
    component is in a reachable state with [trialIdx] 11 and [totalTrials]
    10.  And after [last_trial_session] [trialIdx] equals [totalTrials], yet
    the pending timeout, when it fires, presents a further target and keeps
    the machine listening. *)
Theorem trialIdx_overruns_totalTrials :
  (exists w,
     run plain_runtime overrun_session initial_world = Some w
     /\ reachable plain_runtime w
     /\ trialIdx (st w) = 11%Z /\ totalTrials (st w) = 10%Z)
  /\ (exists w,
        run plain_runtime last_trial_session initial_world = Some w
        /\ reachable plain_runtime w
        /\ trialIdx (st w) = 10%Z /\ totalTrials (st w) = 10%Z
        /\ target (st w) = "7"
        /\ enabled Timeout 11000 (1 # 4) w = true
        /\ let w' := exec plain_runtime Timeout 11000 (1 # 4) w in
           target (st w') = "2" /\ status (st w') = listening
           /\ trialIdx (st w') = 10%Z
           /\ out w' = (out w ++
                [SpeechCancel; Speak (VString "two") (9 # 10) 1])%list).
Proof.
  split.
  - destruct (run plain_runtime overrun_session initial_world) as [w|] eqn:E;
      [|vm_compute in E; discriminate].
    exists w. split; [reflexivity|]. split.
    + apply (run_reachable plain_runtime overrun_session initial_world);
        [constructor|exact E].
    + vm_compute in E. injection E as <-. split; reflexivity.
  - destruct (run plain_runtime last_trial_session initial_world) as [w|] eqn:E;
      [|vm_compute in E; discriminate].
    exists w. split; [reflexivity|]. split.
    + apply (run_reachable plain_runtime last_trial_session initial_world);
        [constructor|exact E].
    + vm_compute in E. injection E as <-. repeat split.
Qed.

(** C9, the code at the failing input.  After [key_next_session] the
    machine is listening at trial 2 of 10 with target "4".  A third press of
    "n" presents another target, "7", but [trialIdx] is still 2: the
    registered listener is the one of the render that had [trialIdx] 1. *)
Theorem key_next_does_not_count :
  exists w,
    run plain_runtime key_next_session initial_world = Some w
    /\ reachable plain_runtime w
    /\ status (st w) = listening
    /\ trialIdx (st w) = 2%Z /\ totalTrials (st w) = 10%Z
    /\ target (st w) = "4"
    /\ trialIdx (listener w) = 1%Z
    /\ enabled (KeyDown "n") 2000 (3 # 4) w = true
    /\ let w' := exec plain_runtime (KeyDown "n") 2000 (3 # 4) w in
       target (st w') = "7" /\ trialIdx (st w') = 2%Z.
Proof.
  destruct (run plain_runtime key_next_session initial_world) as [w|] eqn:E;
    [|vm_compute in E; discriminate].
  exists w. split; [reflexivity|]. split.
  - apply (run_reachable plain_runtime key_next_session initial_world);
      [constructor|exact E].
  - vm_compute in E. injection E as <-. repeat split.
Qed.

(* ================================================================== *)
(** ** The theorems at concrete inputs *)
(* ================================================================== *)

Lemma toWords_matches_spec_witness :
  (0 <= 21 <= 999)%Z
  /\ toWords plain_runtime (Fin (inject_Z 21)) = VString "twenty one".
Proof.
  assert (H : (0 <= 21 <= 999)%Z) by lia.
  split; [exact H|].
  exact (proj2 (toWords_matches_spec plain_runtime 21 H) "twenty one" eq_refl).
Defined.

Lemma toWords_lookups_in_bounds_witness :
  (0 <= 219 <= 999)%Z
  /\ (forall x,
        In x (snd (toWords_traced plain_runtime (Fin (inject_Z 219)))) ->
        in_bounds x = true /\ x <> Stringified)
  /\ exists s, toWords plain_runtime (Fin (inject_Z 219)) = VString s
               /\ s <> "".
Proof.
  assert (H : (0 <= 219 <= 999)%Z) by lia.
  split; [exact H|].
  destruct (toWords_lookups_in_bounds plain_runtime 219 H) as (A & B & _).
  split; [exact A|exact B].
Defined.

Lemma randomTarget_range_witness :
  let last := (9007199254740991 # 9007199254740992)%Q in
  (3 = 1 \/ 3 = 2 \/ 3 = 3)%Z
  /\ binary64 last = true /\ (0 <= last)%Q /\ (last < 1)%Q
  /\ exists z : Z,
       randomTarget plain_runtime 3 last = decimal z
       /\ ((3 = 1 /\ 0 <= z <= 9) \/ (3 = 2 /\ 10 <= z <= 99)
           \/ (3 = 3 /\ 100 <= z <= 999))%Z
       /\ String.length (randomTarget plain_runtime 3 last) = Z.to_nat 3
       /\ (3%Z <> 1%Z ->
           exists c rest,
             randomTarget plain_runtime 3 last = String c rest
             /\ c <> "0"%char).
Proof.
  intros last.
  assert (Hd : (3 = 1 \/ 3 = 2 \/ 3 = 3)%Z) by (right; right; reflexivity).
  assert (Hb : binary64 last = true) by (vm_compute; reflexivity).
  assert (H0 : (0 <= last)%Q) by (unfold Qle; simpl; lia).
  assert (H1 : (last < 1)%Q) by reflexivity.
  split; [exact Hd|]. split; [exact Hb|]. split; [exact H0|].
  split; [exact H1|].
  exact (randomTarget_range plain_runtime 3 last Hd Hb H0 H1).
Defined.

Lemma retry_keeps_target_witness :
  deps_eqb sample_state (st sample_world) = true
  /\ status (st sample_world) = listening
  /\ (String.length (input (st sample_world))
      < String.length (target (st sample_world)))%nat
  /\ String.length (input (st sample_world) ++ "7")
     = String.length (target (st sample_world))
  /\ input (st sample_world) ++ "7" <> target (st sample_world)
  /\ (let w1 := handleDigit sample_state "7" 1000 sample_world in
      let w2 := run_callback plain_runtime (RetryTimeout sample_state) 3000 0
                  (set_timers [] w1) in
      status (st w2) = listening
      /\ input (st w2) = ""
      /\ target (st w2) = target (st sample_world)
      /\ trialIdx (st w2) = trialIdx (st sample_world)
      /\ score (st w2) = score (st sample_world)
      /\ hadErrorThisTarget (st w2) = true
      /\ out w2 = (out w1 ++
           [SpeechCancel;
            Speak (speechTextForTarget plain_runtime
                     (target (st sample_world)) (level (st sample_world)))
              (9 # 10) (clamp01 (volume sample_state))])%list).
Proof.
  assert (H1 : deps_eqb sample_state (st sample_world) = true)
    by reflexivity.
  assert (H2 : status (st sample_world) = listening) by reflexivity.
  assert (H3 : (String.length (input (st sample_world))
                < String.length (target (st sample_world)))%nat)
    by (simpl; lia).
  assert (H4 : String.length (input (st sample_world) ++ "7")
               = String.length (target (st sample_world))) by reflexivity.
  assert (H5 : input (st sample_world) ++ "7" <> target (st sample_world))
    by (simpl; discriminate).
  split; [exact H1|]. split; [exact H2|]. split; [exact H3|].
  split; [exact H4|]. split; [exact H5|].
  exact (proj1 (proj2
    (retry_keeps_target plain_runtime sample_world sample_state "7"
       1000 3000 5000 0 [] H1 H2 H3 H4 H5))).
Defined.

Lemma digit_ignored_witness :
  let s := with_status correct sample_state in
  let w := mkWorld s s (Some 0) [] 0 [] in
  coherent w
  /\ digit_event "3" (ClickDigit "3")
  /\ exec plain_runtime (ClickDigit "3") 5 0 w = set_clock 5 w.
Proof.
  intros s w.
  assert (H1 : coherent w) by reflexivity.
  assert (H2 : digit_event "3" (ClickDigit "3")) by (left; reflexivity).
  split; [exact H1|]. split; [exact H2|].
  apply (proj1 (digit_ignored plain_runtime w "3" (ClickDigit "3") 5 0 H1 H2)).
  left. simpl. discriminate.
Defined.

Lemma replay_changes_nothing_witness :
  let script := [(ClickListen, 1%Z, 0%Q); (KeyDown "l", 2%Z, 0%Q)] in
  target (st sample_world) <> ""
  /\ Forall (fun x => replay_event (fst (fst x))) script
  /\ st (exec_all plain_runtime script sample_world) = st sample_world.
Proof.
  intros script.
  assert (H1 : target (st sample_world) <> "") by (simpl; discriminate).
  assert (H2 : Forall (fun x => replay_event (fst (fst x))) script).
  { apply Forall_cons; [left; reflexivity|].
    apply Forall_cons; [right; left; reflexivity|].
    apply Forall_nil. }
  split; [exact H1|]. split; [exact H2|].
  exact (proj1 (proj1
    (replay_changes_nothing plain_runtime sample_world script H1 H2))).
Defined.

Lemma attempt_appends_record_witness :
  deps_eqb sample_state (st sample_world) = true
  /\ status (st sample_world) = listening
  /\ (String.length (input (st sample_world))
      < String.length (target (st sample_world)))%nat
  /\ String.length (input (st sample_world) ++ "7")
     = String.length (target (st sample_world))
  /\ results (st (handleDigit sample_state "7" 1000 sample_world))
     = [Trial.mk "47" "57" false 1000].
Proof.
  assert (H1 : deps_eqb sample_state (st sample_world) = true)
    by reflexivity.
  assert (H2 : status (st sample_world) = listening) by reflexivity.
  assert (H3 : (String.length (input (st sample_world))
                < String.length (target (st sample_world)))%nat)
    by (simpl; lia).
  assert (H4 : String.length (input (st sample_world) ++ "7")
               = String.length (target (st sample_world))) by reflexivity.
  split; [exact H1|]. split; [exact H2|]. split; [exact H3|].
  split; [exact H4|].
  exact (proj1
    (attempt_appends_record plain_runtime sample_world sample_state "7" 1000
       H1 H2 H3 H4)).
Defined.

Lemma reset_keeps_timers_witness :
  let t := mkTimer 3000 (RetryTimeout sample_state) in
  let w := set_timers [t] sample_world in
  reset_event ClickReset
  /\ In t (timers w)
  /\ In t (timers (exec plain_runtime ClickReset 1500 0 w)).
Proof.
  intros t w.
  assert (H1 : reset_event ClickReset) by (left; reflexivity).
  assert (H2 : In t (timers w)) by (left; reflexivity).
  split; [exact H1|]. split; [exact H2|].
  exact (proj1 (reset_keeps_timers plain_runtime w ClickReset 1500 0 t H1 H2)).
Defined.

(* ================================================================== *)
(** ** More on the verbalizer *)
(* ================================================================== *)

Section VerbalizerMore.

Variable rt : runtime.

Lemma Qltb_inject (a b : Z) : Qltb (inject_Z a) (inject_Z b) = (a <? b)%Z.
Proof.
  unfold Qltb, Qle_bool. simpl. rewrite !Z.mul_1_r.
  now rewrite Z.ltb_antisym.
Qed.

(** X1. Outside 0..999 an integer is not verbalized but stringified: up to
    2^53 in magnitude, where every integer is a binary64 value that prints
    as its own digits, [toWords] returns its decimal digits (with the minus
    sign) and reads no table; the three non-finite numbers give "NaN",
    "Infinity" and "-Infinity". *)
Theorem toWords_out_of_range (z : Z)
    (Hout : (z < 0 \/ 999 < z)%Z) (Hsize : (Z.abs z <= 2 ^ 53)%Z) :
  toWords_traced rt (Fin (inject_Z z)) = (VString (decimal z), [Stringified])
  /\ toWords rt NaN = VString "NaN"
  /\ toWords rt PosInfinity = VString "Infinity"
  /\ toWords rt NegInfinity = VString "-Infinity".
Proof.
  split; [|repeat split].
  unfold toWords_traced.
  change 0%Q with (inject_Z 0). change 999%Q with (inject_Z 999).
  rewrite !Qltb_inject.
  assert (E : ((z <? 0) || (999 <? z))%Z = true).
  { apply orb_true_iff. destruct Hout as [H|H]; [left|right];
      now apply Z.ltb_lt. }
  rewrite E.
  rewrite (String_integer rt (inject_Z z) z); [reflexivity|reflexivity|exact Hsize].
Qed.

Lemma distinct_NoDup (l : list string) : distinct l = true -> NoDup l.
Proof.
  induction l as [|a l IH]; simpl; intros H; [constructor|].
  apply andb_prop in H. destruct H as [Ha Hl].
  constructor; [|now apply IH].
  intros Hin. apply negb_true_iff in Ha.
  assert (Hex : existsb (String.eqb a) l = true).
  { apply existsb_exists. exists a. split; [exact Hin|apply String.eqb_refl]. }
  congruence.
Qed.

Lemma NoDup_map_eq {A B} (f : A -> B) (l : list A) :
  NoDup (map f l) -> forall a b, In a l -> In b l -> f a = f b -> a = b.
Proof.
  induction l as [|x l IH]; simpl; intros Hnd a b Ha Hb E; [contradiction|].
  inversion Hnd as [|? ? Hx Hl]; subst.
  destruct Ha as [->|Ha], Hb as [->|Hb].
  - reflexivity.
  - exfalso. apply Hx. rewrite E. now apply in_map.
  - exfalso. apply Hx. rewrite <- E. now apply in_map.
  - now apply IH.
Qed.

Lemma phrases_distinct :
  distinct
    (map (fun z => interpolate (toWords rt (Fin (inject_Z z))))
       (map Z.of_nat (seq 0 1000))) = true.
Proof. vm_compute. reflexivity. Qed.

Lemma in_0_999 (z : Z) :
  (0 <= z <= 999)%Z -> In z (map Z.of_nat (seq 0 1000)).
Proof.
  intros Hz. rewrite <- (Z2Nat.id z) by lia. apply in_map, in_seq. lia.
Qed.

(** X2. Two different integers of 0..999 never get the same words. *)
Theorem toWords_injective (a b : Z)
    (Ha : (0 <= a <= 999)%Z) (Hb : (0 <= b <= 999)%Z)
    (Esame : toWords rt (Fin (inject_Z a)) = toWords rt (Fin (inject_Z b))) :
  a = b.
Proof.
  apply (NoDup_map_eq
           (fun z => interpolate (toWords rt (Fin (inject_Z z))))
           (map Z.of_nat (seq 0 1000))).
  - apply distinct_NoDup, phrases_distinct.
  - now apply in_0_999.
  - now apply in_0_999.
  - simpl. now rewrite Esame.
Qed.

Lemma phrases_well_spaced (z : Z) :
  (0 <= z <= 999)%Z ->
  well_spaced_words (interpolate (toWords rt (Fin (inject_Z z)))) = true.
Proof. revert z. apply check_0_999. vm_compute. reflexivity. Qed.

(** X3. The words of an integer of 0..999 are lower-case letters and single
    spaces only, and neither start nor end with a space. *)
Theorem toWords_well_spaced (z : Z) (H : (0 <= z <= 999)%Z) :
  exists s,
    toWords rt (Fin (inject_Z z)) = VString s
    /\ well_spaced_words s = true.
Proof.
  pose proof (phrases_well_spaced z H) as Hw.
  pose proof (toWords_verbalize rt z H) as Hv.
  apply value_eqb_eq in Hv. rewrite Hv in *. simpl in Hw.
  exists (verbalize z). split; [reflexivity|exact Hw].
Qed.

End VerbalizerMore.

(* ================================================================== *)
(** ** The display transforms *)
(* ================================================================== *)

Section Display.

Variable rt : runtime.
Variable toUpperCase_high : ascii -> string.

Lemma strip_prefix_app (p s r : string) :
  strip_prefix p s = Some r -> s = p ++ r.
Proof.
  revert s. induction p as [|a p IH]; intros s H; simpl in *.
  - now injection H as ->.
  - destruct s as [|b s]; [discriminate|].
    destruct (Ascii.eqb_spec a b) as [->|]; [|discriminate].
    now rewrite (IH s H).
Qed.

Lemma first_alternative_app (alts : list string) (s a r : string) :
  first_alternative alts s = Some (a, r) -> In a alts /\ s = a ++ r.
Proof.
  induction alts as [|x alts IH]; simpl; [discriminate|].
  destruct (strip_prefix x s) as [r'|] eqn:E.
  - intros H. injection H as <- <-. split; [now left|].
    now apply strip_prefix_app.
  - intros H. destruct (IH H). split; [now right|assumption].
Qed.

Lemma match_here_app (s t o : string) :
  match_here s = Some (t, o) ->
  exists c r,
    s = t ++ String c (o ++ r) /\ is_space c = true
    /\ In t tens_words /\ In o ones_words.
Proof.
  unfold match_here.
  destruct (first_alternative tens_words s) as [[t' [|c r]]|] eqn:Et;
    try discriminate.
  destruct (is_space c) eqn:Ec; [|discriminate].
  destruct (first_alternative ones_words r) as [[o' r']|] eqn:Eo;
    [|discriminate].
  intros H. injection H as <- <-.
  destruct (first_alternative_app _ _ _ _ Et) as [It Es].
  destruct (first_alternative_app _ _ _ _ Eo) as [Io Er].
  exists c, r'. subst r. repeat split; assumption.
Qed.

Lemma replace_from_skip (u s : string) (k : nat) :
  replace_from (String.length u + k) (u ++ s) = replace_from k s.
Proof. induction u as [|c u IH]; simpl; [reflexivity|exact IH]. Qed.

Lemma tens_word_not_empty (t : string) : In t tens_words -> t <> "".
Proof.
  intros H E. subst t. simpl in H.
  repeat (destruct H as [H|H]; [discriminate|]). exact H.
Qed.

(** The scan at a match: the replacement, then the scan of what follows the
    match. *)
Lemma replace_at_match (s t o : string) :
  match_here s = Some (t, o) ->
  exists c r,
    s = t ++ String c (o ++ r) /\ is_space c = true
    /\ replace_from 0 s = t ++ String "-" (o ++ replace_from 0 r).
Proof.
  intros H. destruct (match_here_app s t o H) as (c & r & Es & Ec & It & _).
  exists c, r. split; [exact Es|]. split; [exact Ec|].
  destruct s as [|c0 s'].
  - destruct t; discriminate.
  - cbn [replace_from]. rewrite H.
    destruct t as [|t0 t']; [now apply tens_word_not_empty in It|].
    simpl in Es. injection Es as -> ->.
    replace (String.length (String t0 t') + String.length o)%nat
      with (String.length (t' ++ String c o) + 0)%nat
      by (rewrite length_append; simpl; lia).
    replace (t' ++ String c (o ++ r)) with ((t' ++ String c o) ++ r)
      by (rewrite append_assoc; reflexivity).
    rewrite replace_from_skip. reflexivity.
Qed.

Lemma spaces_to_hyphens_app (u a b : string) :
  spaces_to_hyphens a b -> spaces_to_hyphens (u ++ a) (u ++ b).
Proof. induction u as [|c u IH]; simpl; auto. Qed.

Lemma spaces_to_hyphens_length (a : string) :
  forall b, spaces_to_hyphens a b -> String.length a = String.length b.
Proof.
  induction a as [|x a IH]; intros [|y b]; simpl; try tauto.
  intros [_ H]. now rewrite (IH b H).
Qed.

Lemma replace_from_hyphens (n : nat) :
  forall s, (String.length s <= n)%nat ->
            spaces_to_hyphens s (replace_from 0 s).
Proof.
  induction n as [|n IH]; intros s Hn.
  - destruct s; [exact I|simpl in Hn; lia].
  - destruct s as [|c0 s']; [exact I|].
    destruct (match_here (String c0 s')) as [[t o]|] eqn:Em.
    + destruct (replace_at_match _ t o Em) as (c & r & Es & Ec & Er).
      rewrite Er, Es. apply spaces_to_hyphens_app. simpl.
      split; [right; now split|].
      apply spaces_to_hyphens_app. apply IH.
      rewrite Es in Hn. rewrite !length_append in Hn. simpl in Hn.
      rewrite length_append in Hn. lia.
    + cbn [replace_from]. rewrite Em. simpl. split; [now left|].
      apply IH. simpl in Hn. lia.
Qed.

(** X4. Whatever the text, [hyphenateCompoundWords] keeps its length and
    changes nothing but whitespace units, and those only into hyphens. *)
Theorem hyphenate_only_spaces (s : string) :
  spaces_to_hyphens s (hyphenateCompoundWords s)
  /\ String.length (hyphenateCompoundWords s) = String.length s.
Proof.
  assert (H : spaces_to_hyphens s (hyphenateCompoundWords s))
    by (apply (replace_from_hyphens (String.length s)); lia).
  split; [exact H|]. symmetry. now apply spaces_to_hyphens_length.
Qed.

Lemma hyphenated_checked (z : Z) :
  (0 <= z <= 999)%Z ->
  (let p := hyphenateCompoundWords
              (interpolate (toWords rt (Fin (inject_Z z)))) in
   String.eqb p (verbalize_hyphenated z)
   && String.eqb (hyphenateCompoundWords p) p) = true.
Proof. revert z. apply check_0_999. vm_compute. reflexivity. Qed.

(** X5. On the words of an integer of 0..999 the hyphenation gives the
    words with a hyphen between a tens word and the ones word behind it, and
    nothing else changed; hyphenating the result again changes nothing. *)
Theorem hyphenate_toWords (z : Z) (H : (0 <= z <= 999)%Z) :
  exists s,
    toWords rt (Fin (inject_Z z)) = VString s
    /\ hyphenateCompoundWords s = verbalize_hyphenated z
    /\ hyphenateCompoundWords (hyphenateCompoundWords s)
       = hyphenateCompoundWords s.
Proof.
  pose proof (hyphenated_checked z H) as Hc.
  pose proof (toWords_verbalize rt z H) as Hv.
  apply value_eqb_eq in Hv. rewrite Hv in *. simpl in Hc.
  apply andb_prop in Hc. destruct Hc as [H1 H2].
  apply String.eqb_eq in H1. apply String.eqb_eq in H2.
  exists (verbalize z). repeat split; assumption.
Qed.

Lemma number_of_decimal_checked (z : Z) :
  (0 <= z <= 999)%Z ->
  match Number_ rt (decimal z) with
  | Fin q => (Qnum q =? z)%Z && (Qden q =? 1)%positive
  | _ => false
  end = true.
Proof. revert z. apply check_0_999. vm_compute. reflexivity. Qed.

Lemma number_of_decimal (z : Z) :
  (0 <= z <= 999)%Z -> Number_ rt (decimal z) = Fin (inject_Z z).
Proof.
  intros H. pose proof (number_of_decimal_checked z H) as Hc.
  destruct (Number_ rt (decimal z)) as [[n d]| | |]; try discriminate.
  cbn [Qnum Qden] in Hc. apply andb_prop in Hc. destruct Hc as [Hn Hd].
  apply Z.eqb_eq in Hn. apply Pos.eqb_eq in Hd. now subst.
Qed.

Lemma digit_word_checked (z : Z) :
  (0 <= z <= 999)%Z ->
  match lookup (decimal z) digit_words with
  | Some word => (z <? 10)%Z && String.eqb word (verbalize z)
  | None => (9 <? z)%Z
  end = true.
Proof. revert z. apply check_0_999. vm_compute. reflexivity. Qed.

(** The phrase for the decimal string of [z]: the words of [z], except
    that level 1 leaves a string of several digits as it is. *)
Lemma speech_of_decimal (z lvl : Z) :
  (0 <= z <= 999)%Z ->
  speechTextForTarget rt (decimal z) lvl
  = if (2 <=? lvl)%Z || (z <? 10)%Z then VString (verbalize z)
    else VString (decimal z).
Proof.
  intros H. unfold speechTextForTarget.
  destruct (2 <=? lvl)%Z.
  - rewrite number_of_decimal by exact H.
    apply value_eqb_eq, toWords_verbalize, H.
  - pose proof (digit_word_checked z H) as Hc. cbn [orb].
    destruct (lookup (decimal z) digit_words) as [word|].
    + apply andb_prop in Hc. destruct Hc as [Hz Hw].
      apply String.eqb_eq in Hw. rewrite Hz, Hw. reflexivity.
    + replace (z <? 10)%Z with false; [reflexivity|].
      symmetry. apply Z.ltb_ge. apply Z.ltb_lt in Hc. lia.
Qed.

Lemma decimal_not_empty_checked (z : Z) :
  (0 <= z <= 999)%Z -> negb (String.eqb (decimal z) "") = true.
Proof. revert z. apply check_0_999. vm_compute. reflexivity. Qed.

Lemma capitalised_checked (z : Z) :
  (0 <= z <= 999)%Z ->
  match verbalize_hyphenated z with
  | String c rest =>
      String.eqb
        (capitaliseFirst toUpperCase_high
           (hyphenateCompoundWords (verbalize z)))
        (String (upper_ascii c) rest)
      && is_lower c
  | EmptyString => false
  end = true.
Proof. revert z. apply check_0_999. vm_compute. reflexivity. Qed.

(** X6. With the hint on and the target the decimal string of an integer of
    0..999 (at level 1: of 0..9), the page shows no hint line while it is
    idle, where the input panel is not rendered; in every other status the
    hint line shows the hyphenated words of the number with the first
    letter, and only it, turned to upper case. *)
Theorem hint_shows_capitalised_words (s : state) (z : Z)
    (Hz : (0 <= z <= 999)%Z) (Hhint : showHint s = true)
    (Htarget : target s = decimal z)
    (Hlevel : (2 <= level s \/ z <= 9)%Z) :
  exists c rest,
    verbalize_hyphenated z = String c rest
    /\ is_lower c = true
    /\ hintLine rt toUpperCase_high s
       = if Status_eqb (status s) idle then NoHint
         else HintText (String (upper_ascii c) rest).
Proof.
  pose proof (capitalised_checked z Hz) as Hc.
  destruct (verbalize_hyphenated z) as [|c rest]; [discriminate|].
  apply andb_prop in Hc. destruct Hc as [Ht Hl].
  apply String.eqb_eq in Ht.
  exists c, rest. split; [reflexivity|]. split; [exact Hl|].
  unfold hintLine. rewrite Hhint, Htarget.
  rewrite (decimal_not_empty_checked z Hz).
  destruct (Status_eqb (status s) idle); [reflexivity|].
  simpl andb. cbv iota.
  rewrite speech_of_decimal by exact Hz.
  replace ((2 <=? level s)%Z || (z <? 10)%Z) with true.
  - now rewrite Ht.
  - symmetry. apply orb_true_iff.
    destruct Hlevel as [H|H]; [left; now apply Z.leb_le|right].
    apply Z.ltb_lt. lia.
Qed.

End Display.

(* ================================================================== *)
(** ** Class names and the accuracy figure *)
(* ================================================================== *)

Lemma somes_filter_app (f : option string -> bool) (a b : list (option string)) :
  somes (filter f (a ++ b)) = (somes (filter f a) ++ somes (filter f b))%list.
Proof.
  induction a as [|x a IH]; simpl; [reflexivity|].
  destruct (f x); [|exact IH]. destruct x; simpl; now rewrite IH.
Qed.

Lemma truthy_somes (v : list (option string)) :
  Forall (fun s => s <> "") (somes (filter truthy_class v)).
Proof.
  induction v as [|x v IH]; simpl; [constructor|].
  destruct x as [[|c s]|]; simpl; try exact IH.
  constructor; [discriminate|exact IH].
Qed.

Lemma join_cons (sep a : string) (l : list string) :
  l <> [] -> join sep (a :: l) = a ++ sep ++ join sep l.
Proof. destruct l; [congruence|reflexivity]. Qed.

Lemma join_app (sep : string) (l1 l2 : list string) :
  l1 <> [] -> l2 <> [] ->
  join sep (l1 ++ l2)%list = join sep l1 ++ sep ++ join sep l2.
Proof.
  induction l1 as [|a l1 IH]; intros H1 H2; [congruence|].
  destruct l1 as [|b l1].
  - simpl app. now rewrite join_cons.
  - change ((a :: b :: l1) ++ l2)%list with (a :: ((b :: l1) ++ l2))%list.
    rewrite join_cons by discriminate.
    rewrite IH by (discriminate || assumption).
    rewrite (join_cons sep a (b :: l1)) by discriminate.
    now rewrite !append_assoc.
Qed.

Lemma join_empty (l : list string) :
  Forall (fun s => s <> "") l -> join " " l = "" -> l = [].
Proof.
  intros H E. destruct l as [|a l]; [reflexivity|].
  inversion H as [|? ? Ha _]; subst.
  destruct l; simpl in E; destruct a; try congruence; discriminate.
Qed.

Lemma somes_truthy_nil (v : list (option string)) :
  somes (filter truthy_class v) = [] <->
  forall x, In x v -> truthy_class x = false.
Proof.
  induction v as [|x v IH]; simpl.
  - split; [intros _ y []|reflexivity].
  - destruct x as [[|c s]|]; simpl.
    + rewrite IH. split.
      * intros H y [<-|Hy]; [reflexivity|now apply H].
      * intros H y Hy. apply H. now right.
    + split; [discriminate|].
      intros H. specialize (H (Some (String c s)) (or_introl eq_refl)).
      discriminate.
    + rewrite IH. split.
      * intros H y [<-|Hy]; [reflexivity|now apply H].
      * intros H y Hy. apply H. now right.
Qed.

(** X7. [classNames] gives the empty string exactly when every argument is
    falsy ([false], [null], [undefined] or the empty string); and the
    names of two argument lists put together are the names of each, with
    one space between them only when both have some: a falsy argument
    leaves no trace, not even a space. *)
Theorem classNames_app (a b : list (option string)) :
  (classNames a = "" <-> forall x, In x a -> truthy_class x = false)
  /\ classNames (a ++ b)
     = if String.eqb (classNames a) "" then classNames b
       else if String.eqb (classNames b) "" then classNames a
       else classNames a ++ " " ++ classNames b.
Proof.
  assert (empty : forall v, classNames v = "" <->
                            somes (filter truthy_class v) = []).
  { intros v. unfold classNames. split.
    - apply join_empty, truthy_somes.
    - now intros ->. }
  split.
  - rewrite empty. apply somes_truthy_nil.
  - destruct (String.eqb_spec (classNames a) "") as [Ea|Ea].
    + apply empty in Ea. unfold classNames.
      now rewrite somes_filter_app, Ea.
    + destruct (String.eqb_spec (classNames b) "") as [Eb|Eb].
      * apply empty in Eb. unfold classNames.
        now rewrite somes_filter_app, Eb, app_nil_r.
      * unfold classNames. rewrite somes_filter_app.
        apply join_app; intros E; [apply Ea|apply Eb]; now apply empty.
Qed.

Lemma accuracy_div (s : state) :
  (0 < trialIdx s)%Z ->
  accuracy s = ((200 * score s + trialIdx s) / (2 * trialIdx s))%Z.
Proof.
  intros H. unfold accuracy, Math_round.
  replace (trialIdx s =? 0)%Z with false by (symmetry; apply Z.eqb_neq; lia).
  rewrite Zdiv_Qdiv. apply Qfloor_comp.
  rewrite inject_Z_plus, !inject_Z_mult.
  assert (Hq : ~ (inject_Z (trialIdx s) == 0)%Q).
  { intros E. unfold Qeq in E. simpl in E. lia. }
  change (inject_Z 200) with 200%Q. change (inject_Z 2) with 2%Q.
  field. exact Hq.
Qed.

(** X8. When the first-try count is between 0 and the number of trials
    started, the accuracy figure is between 0 and 100; it is 0 before the
    first trial and 100 when every trial counted; and it is the percentage
    rounded to the nearest integer, a tie going up. *)
Theorem accuracy_is_rounded_percentage (s : state)
    (Hscore : (0 <= score s <= trialIdx s)%Z) :
  (0 <= accuracy s <= 100)%Z
  /\ (trialIdx s = 0%Z -> accuracy s = 0%Z)
  /\ ((0 < trialIdx s)%Z ->
      (- trialIdx s < 2 * (accuracy s * trialIdx s) - 200 * score s
       <= trialIdx s)%Z
      /\ (score s = trialIdx s -> accuracy s = 100%Z)).
Proof.
  destruct (Z.eq_dec (trialIdx s) 0) as [E|E].
  - unfold accuracy. rewrite E. simpl. repeat split; lia.
  - assert (Hpos : (0 < trialIdx s)%Z) by lia.
    pose proof (accuracy_div s Hpos) as Ha.
    set (T := trialIdx s) in *. set (S := score s) in *.
    set (a := accuracy s) in *.
    assert (Hdiv : (2 * T * a <= 200 * S + T < 2 * T * a + 2 * T)%Z).
    { rewrite Ha. split.
      - apply Z.mul_div_le. lia.
      - pose proof (Z.mul_succ_div_gt (200 * S + T) (2 * T) ltac:(lia)).
        lia. }
    repeat split; try nia.
Qed.

(* ================================================================== *)
(** ** More on the target generator, and the self-test *)
(* ================================================================== *)

Section GeneratorMore.

Variable rt : runtime.

(** The integer behind a target. *)
Lemma randomTarget_generated (lvl : Z) (rnd : Q) :
  (lvl = 1 \/ lvl = 2 \/ lvl = 3)%Z ->
  binary64 rnd = true -> (0 <= rnd)%Q -> (rnd < 1)%Q ->
  exists z : Z,
    ((lvl = 1 /\ 0 <= z <= 9) \/ (lvl = 2 /\ 10 <= z <= 99)
     \/ (lvl = 3 /\ 100 <= z <= 999))%Z
    /\ randomTarget rt lvl rnd = decimal z.
Proof.
  intros Hl Hb H0 H1.
  destruct (randomTarget_value rt lvl rnd Hl Hb H0 H1) as (z & E & Hz).
  exists z. split; [exact Hz|exact E].
Qed.

(** X9. The phrase chosen for a freshly drawn target, at the level it was
    drawn for and for a binary64 draw of [0, 1), is the words of the integer
    drawn: [Number] reads back what [String] wrote, and at level 1 the digit
    table agrees with the verbalizer. *)
Theorem phrase_of_new_target (lvl : Z) (rnd : Q)
    (Hlvl : (lvl = 1 \/ lvl = 2 \/ lvl = 3)%Z)
    (Hb : binary64 rnd = true)
    (H0 : (0 <= rnd)%Q) (H1 : (rnd < 1)%Q) :
  exists z : Z,
    (0 <= z <= 999)%Z
    /\ randomTarget rt lvl rnd = decimal z
    /\ Number_ rt (randomTarget rt lvl rnd) = Fin (inject_Z z)
    /\ speechTextForTarget rt (randomTarget rt lvl rnd) lvl
       = VString (verbalize z).
Proof.
  destruct (randomTarget_generated lvl rnd Hlvl Hb H0 H1) as (z & Hz & E).
  assert (Hr : (0 <= z <= 999)%Z) by lia.
  exists z. split; [exact Hr|]. split; [exact E|]. rewrite E.
  split; [now apply number_of_decimal|].
  rewrite speech_of_decimal by exact Hr.
  replace ((2 <=? lvl)%Z || (z <? 10)%Z) with true; [reflexivity|].
  symmetry. apply orb_true_iff.
  destruct Hz as [[-> Hz] | [[-> Hz] | [-> Hz]]];
    [right; apply Z.ltb_lt; lia | left; reflexivity | left; reflexivity].
Qed.

Lemma target_shape_checked (z : Z) :
  (0 <= z <= 999)%Z -> target_shape z = true.
Proof. revert z. apply check_0_999. vm_compute. reflexivity. Qed.

Lemma randomTarget_passes (lvl : Z) (rnd : Q) :
  (lvl = 1 \/ lvl = 2 \/ lvl = 3)%Z ->
  binary64 rnd = true -> (0 <= rnd)%Q -> (rnd < 1)%Q ->
  is_digits (Z.to_nat lvl) (randomTarget rt lvl rnd) = true
  /\ (lvl <> 1%Z -> starts_with_0 (randomTarget rt lvl rnd) = false).
Proof.
  intros Hl Hb H0 H1.
  destruct (randomTarget_generated lvl rnd Hl Hb H0 H1) as (z & Hz & ->).
  pose proof (target_shape_checked z ltac:(lia)) as Hs.
  unfold target_shape in Hs. apply andb_prop in Hs. destruct Hs as [Hd Hn].
  destruct Hz as [[-> Hz] | [[-> Hz] | [-> Hz]]].
  - replace (z <? 10)%Z with true in Hd by (symmetry; apply Z.ltb_lt; lia).
    split; [exact Hd|congruence].
  - replace (z <? 10)%Z with false in * by (symmetry; apply Z.ltb_ge; lia).
    replace (z <? 100)%Z with true in Hd by (symmetry; apply Z.ltb_lt; lia).
    split; [exact Hd|]. intros _. now apply negb_true_iff in Hn.
  - replace (z <? 10)%Z with false in * by (symmetry; apply Z.ltb_ge; lia).
    replace (z <? 100)%Z with false in Hd by (symmetry; apply Z.ltb_ge; lia).
    split; [exact Hd|]. intros _. now apply negb_true_iff in Hn.
Qed.

Lemma forallb_flat_map_all {A} (g : A -> list bool) (l : list A) :
  (forall k, forallb (fun b => b) (g k) = true) ->
  forallb (fun b => b) (flat_map g l) = true.
Proof.
  intros H. induction l as [|k l IH]; simpl; [reflexivity|].
  now rewrite forallb_app, H, IH.
Qed.

Lemma W_checked :
  forallb (fun b => b)
    (map (fun '(n, expect) =>
            value_eqb (toWords rt (Fin (inject_Z n))) (VString expect)) W)
  = true.
Proof. vm_compute. reflexivity. Qed.

(** X10. Whatever binary64 values of [0, 1) [Math.random()] returns, every
    condition the mount self-test hands to [console.assert] holds: the 303
    targets have the length and the first digit asked for, the products
    being rounded as the language rounds them, and [toWords] agrees with
    the table of nineteen numbers. *)
Theorem selfTest_passes (draw : nat -> Q)
    (Hdraw : forall i,
       binary64 (draw i) = true /\ (0 <= draw i)%Q /\ (draw i < 1)%Q) :
  forallb (fun b => b) (selfTest rt draw) = true
  /\ length (selfTest rt draw) = 324%nat.
Proof.
  assert (P : forall lvl i, (lvl = 1 \/ lvl = 2 \/ lvl = 3)%Z ->
            is_digits (Z.to_nat lvl) (randomTarget rt lvl (draw i)) = true
            /\ (lvl <> 1%Z ->
                starts_with_0 (randomTarget rt lvl (draw i)) = false)).
  { intros lvl i Hl. destruct (Hdraw i) as (Hb & H0 & H1).
    now apply randomTarget_passes. }
  split.
  - unfold selfTest. rewrite !forallb_app. apply andb_true_iff. split.
    + destruct (P 1%Z 0%nat ltac:(auto)) as [A1 _].
      destruct (P 2%Z 1%nat ltac:(auto)) as [A2 B2].
      destruct (P 3%Z 2%nat ltac:(auto)) as [A3 B3].
      cbn [forallb]. change (Z.to_nat 1) with 1%nat in A1.
      change (Z.to_nat 2) with 2%nat in A2.
      change (Z.to_nat 3) with 3%nat in A3.
      rewrite A1, A2, A3, B2, B3 by discriminate. reflexivity.
    + apply andb_true_iff. split; [|apply W_checked].
      apply forallb_flat_map_all. intros k.
      destruct (P 1%Z (3 + 3 * k)%nat ltac:(auto)) as [A1 _].
      destruct (P 2%Z (4 + 3 * k)%nat ltac:(auto)) as [A2 B2].
      destruct (P 3%Z (5 + 3 * k)%nat ltac:(auto)) as [A3 B3].
      cbn [forallb]. change (Z.to_nat 1) with 1%nat in A1.
      change (Z.to_nat 2) with 2%nat in A2.
      change (Z.to_nat 3) with 3%nat in A3.
      rewrite A1, A2, A3, B2, B3 by discriminate. reflexivity.
  - unfold selfTest. rewrite !length_app, length_map.
    rewrite (flat_map_constant_length (c := 3%nat)); [reflexivity|].
    intros; reflexivity.
Qed.

End GeneratorMore.

(* ================================================================== *)
(** ** Voice selection *)
(* ================================================================== *)

Lemma find_split {A} (f : A -> bool) (l : list A) (v : A) :
  find f l = Some v ->
  exists l1 l2,
    l = (l1 ++ v :: l2)%list /\ f v = true
    /\ forall u, In u l1 -> f u = false.
Proof.
  induction l as [|x l IH]; simpl; [discriminate|].
  destruct (f x) eqn:E.
  - intros H. injection H as ->. exists [], l.
    split; [reflexivity|]. split; [exact E|]. intros u [].
  - intros H. destruct (IH H) as (l1 & l2 & -> & Hv & H1).
    exists (x :: l1), l2. split; [reflexivity|]. split; [exact Hv|].
    intros u [<-|Hu]; [exact E|now apply H1].
Qed.

Ltac rank_cases u :=
  destruct (is_exact u), (is_nameContains u), (is_gbMale u), (is_gbAny u),
    (is_usMale u); lia.

(** X11. [pick] calls [setVoice] exactly when the list of voices is not
    empty, and then with the voice of the best rank in the order exact
    name, name pattern, British male, British, American male, any; among
    voices of that rank it is the one that comes first in the list. *)
Theorem pick_best_ranked (voices : list Voice) (v : Voice)
    (Hpick : pick voices = Some v) :
  (exists l1 l2,
     voices = (l1 ++ v :: l2)%list
     /\ (forall u, In u l1 -> (rank v < rank u)%nat)
     /\ (forall u, In u l2 -> (rank v <= rank u)%nat))
  /\ pick [] = None
  /\ forall first rest, pick (first :: rest) <> None.
Proof.
  split; [|split; [reflexivity|]].
  2:{ intros first rest. unfold pick, or_else.
      destruct (find is_exact (first :: rest)); [discriminate|].
      destruct (find is_nameContains (first :: rest)); [discriminate|].
      destruct (find is_gbMale (first :: rest)); [discriminate|].
      destruct (find is_gbAny (first :: rest)); [discriminate|].
      destruct (find is_usMale (first :: rest)); discriminate. }
  destruct voices as [|first rest]; [discriminate|].
  set (voices := first :: rest) in *.
  assert (split_at : forall (f : Voice -> bool) v,
    find f voices = Some v ->
    exists l1 l2,
      voices = (l1 ++ v :: l2)%list /\ f v = true
      /\ (forall u, In u l1 -> f u = false)
      /\ (forall u, In u l2 -> In u voices) /\ In v voices
      /\ (forall u, In u l1 -> In u voices)).
  { intros f v' Hf. destruct (find_split f voices v' Hf)
      as (l1 & l2 & E & Hv & H1).
    exists l1, l2. split; [exact E|]. split; [exact Hv|].
    split; [exact H1|]. rewrite E.
    repeat split; intros; apply in_or_app; simpl; auto. }
  revert Hpick. unfold pick. fold voices. unfold or_else.
  destruct (find is_exact voices) as [v0|] eqn:E0.
  { intros H. injection H as ->.
    destruct (split_at _ _ E0)
      as (l1 & l2 & E & Hv & H1 & _).
    exists l1, l2. split; [exact E|]. unfold rank. rewrite Hv.
    split; intros u Hu; [rewrite (H1 u Hu)|]; rank_cases u. }
  pose proof (find_none _ _ E0) as N0.
  destruct (find is_nameContains voices) as [v1|] eqn:E1.
  { intros H. injection H as ->.
    destruct (split_at _ _ E1)
      as (l1 & l2 & E & Hv & H1 & I2 & Iv & I1).
    exists l1, l2. split; [exact E|]. unfold rank.
    rewrite (N0 v Iv), Hv.
    split; intros u Hu;
      [rewrite (N0 u (I1 u Hu)), (H1 u Hu) | rewrite (N0 u (I2 u Hu))];
      rank_cases u. }
  pose proof (find_none _ _ E1) as N1.
  destruct (find is_gbMale voices) as [v2|] eqn:E2.
  { intros H. injection H as ->.
    destruct (split_at _ _ E2)
      as (l1 & l2 & E & Hv & H1 & I2 & Iv & I1).
    exists l1, l2. split; [exact E|]. unfold rank.
    rewrite (N0 v Iv), (N1 v Iv), Hv.
    split; intros u Hu;
      [rewrite (N0 u (I1 u Hu)), (N1 u (I1 u Hu)), (H1 u Hu)
      | rewrite (N0 u (I2 u Hu)), (N1 u (I2 u Hu))];
      rank_cases u. }
  pose proof (find_none _ _ E2) as N2.
  destruct (find is_gbAny voices) as [v3|] eqn:E3.
  { intros H. injection H as ->.
    destruct (split_at _ _ E3)
      as (l1 & l2 & E & Hv & H1 & I2 & Iv & I1).
    exists l1, l2. split; [exact E|]. unfold rank.
    rewrite (N0 v Iv), (N1 v Iv), (N2 v Iv), Hv.
    split; intros u Hu;
      [rewrite (N0 u (I1 u Hu)), (N1 u (I1 u Hu)), (N2 u (I1 u Hu)),
         (H1 u Hu)
      | rewrite (N0 u (I2 u Hu)), (N1 u (I2 u Hu)), (N2 u (I2 u Hu))];
      rank_cases u. }
  pose proof (find_none _ _ E3) as N3.
  destruct (find is_usMale voices) as [v4|] eqn:E4.
  { intros H. injection H as ->.
    destruct (split_at _ _ E4)
      as (l1 & l2 & E & Hv & H1 & I2 & Iv & I1).
    exists l1, l2. split; [exact E|]. unfold rank.
    rewrite (N0 v Iv), (N1 v Iv), (N2 v Iv), (N3 v Iv), Hv.
    split; intros u Hu;
      [rewrite (N0 u (I1 u Hu)), (N1 u (I1 u Hu)), (N2 u (I1 u Hu)),
         (N3 u (I1 u Hu)), (H1 u Hu)
      | rewrite (N0 u (I2 u Hu)), (N1 u (I2 u Hu)), (N2 u (I2 u Hu)),
          (N3 u (I2 u Hu))];
      rank_cases u. }
  pose proof (find_none _ _ E4) as N4.
  intros H. injection H as <-.
  exists [], rest. split; [reflexivity|].
  assert (all5 : forall u, In u voices -> rank u = 5%nat).
  { intros u Hu. unfold rank.
    now rewrite (N0 u Hu), (N1 u Hu), (N2 u Hu), (N3 u Hu), (N4 u Hu). }
  split; [intros u []|].
  intros u Hu. rewrite (all5 first) by (left; reflexivity).
  rewrite (all5 u) by (right; exact Hu). lia.
Qed.

Lemma strip_prefix_ci_app (p s r : string) :
  strip_prefix_ci p s = Some r ->
  exists q, s = q ++ r /\ String.length q = String.length p
            /\ strip_prefix_ci p q = Some "".
Proof.
  revert s. induction p as [|a p IH]; intros s H; simpl in *.
  - injection H as ->. now exists "".
  - destruct s as [|b s]; [discriminate|].
    destruct (unit_ci a b) eqn:E; [|discriminate].
    destruct (IH s H) as (q & -> & Hl & Hq).
    exists (String b q). simpl. rewrite E, Hl. now repeat split.
Qed.

Lemma test_words_tail (p : string) (c : ascii) (s : string) :
  test_words p [] s = true -> test_words p [] (String c s) = true.
Proof.
  intros H. cbn [test_words].
  destruct (strip_prefix_ci p (String c s)); [|exact H].
  cbn [rest_in_line]. reflexivity.
Qed.

Lemma test_words_here (p s : string) (r : string) :
  strip_prefix_ci p s = Some r -> test_words p [] s = true.
Proof.
  intros H. destruct s; cbn [test_words]; now rewrite H.
Qed.

Lemma female_is_male (s : string) :
  test_words "female" [] s = true -> test_words "male" [] s = true.
Proof.
  induction s as [|c s IH].
  - cbn. discriminate.
  - intros H. cbn [test_words] in H.
    destruct (strip_prefix_ci "female" (String c s)) as [r|] eqn:E.
    + clear H IH. simpl in E.
      destruct (unit_ci "f" c); [|discriminate].
      destruct s as [|c1 s]; [discriminate|].
      destruct (unit_ci "e" c1); [|discriminate].
      apply test_words_tail, test_words_tail.
      destruct s as [|c2 s]; [discriminate|].
      destruct (unit_ci "m" c2) eqn:E2; [|discriminate].
      destruct s as [|c3 s]; [discriminate|].
      destruct (unit_ci "a" c3) eqn:E3; [|discriminate].
      destruct s as [|c4 s]; [discriminate|].
      destruct (unit_ci "l" c4) eqn:E4; [|discriminate].
      destruct s as [|c5 s]; [discriminate|].
      destruct (unit_ci "e" c5) eqn:E5; [|discriminate].
      apply (test_words_here "male" _ s).
      simpl. now rewrite E2, E3, E4, E5.
    + apply test_words_tail, IH, H.
Qed.

(** X12. The test for a male voice looks for "male" anywhere in the name,
    in any letter case, so a name that contains "female" passes it: a
    British voice with such a name counts as a British male voice. *)
Theorem female_voice_passes_male_test (v : Voice)
    (Hname : test_words "female" [] (name v) = true)
    (Hlang : test_words "en-GB" [] (lang v) = true) :
  is_gbMale v = true /\ (rank v <= 2)%nat.
Proof.
  assert (H : is_gbMale v = true).
  { unfold is_gbMale. rewrite Hlang. now apply female_is_male. }
  split; [exact H|]. unfold rank. rewrite H.
  destruct (is_exact v), (is_nameContains v); lia.
Qed.

(* ================================================================== *)
(** ** What every reachable world satisfies *)
(* ================================================================== *)

Section Invariants.

Variable rt : runtime.

Lemma generated_not_empty (t : string) :
  generated t -> (0 < String.length t)%nat.
Proof.
  intros (z & Hz & ->). pose proof (decimal_not_empty_checked z Hz) as H.
  destruct (decimal z); [discriminate|simpl; lia].
Qed.

Lemma verbalize_not_empty_checked (z : Z) :
  (0 <= z <= 999)%Z -> negb (String.eqb (verbalize z) "") = true.
Proof. revert z. apply check_0_999. vm_compute. reflexivity. Qed.

Lemma clamp01_bounds (v : Q) : (0 <= clamp01 v)%Q /\ (clamp01 v <= 1)%Q.
Proof.
  unfold clamp01, Qltb.
  destruct (Qle_bool 1 v) eqn:E1; simpl.
  - split; discriminate.
  - destruct (Qle_bool 0 v) eqn:E0; simpl.
    + split; [now apply Qle_bool_iff|].
      apply Qnot_lt_le. intros H. apply Qlt_le_weak in H.
      apply Qle_bool_iff in H. congruence.
    + split; discriminate.
Qed.

Lemma good_speak_phrase (t : string) (lvl : Z) (v : Q) :
  generated t ->
  good_speak (Speak (speechTextForTarget rt t lvl) (9 # 10) (clamp01 v)).
Proof.
  intros (z & Hz & ->). simpl. rewrite speech_of_decimal by exact Hz.
  destruct (clamp01_bounds v) as [B0 B1].
  split; [|now repeat split].
  destruct ((2 <=? lvl)%Z || (z <? 10)%Z).
  - exists (verbalize z). split; [reflexivity|].
    pose proof (verbalize_not_empty_checked z Hz) as H.
    intros E. rewrite E in H. discriminate.
  - exists (decimal z). split; [reflexivity|].
    pose proof (decimal_not_empty_checked z Hz) as H.
    intros E. rewrite E in H. discriminate.
Qed.

Lemma Forall_enqueue (P : timer -> Prop) t l :
  P t -> Forall P l -> Forall P (enqueue t l).
Proof.
  intros Ht Hl. induction Hl as [|x l Hx Hl IH]; simpl.
  - now constructor.
  - destruct (due x <=? due t)%Z; constructor; auto.
Qed.

Lemma drop_last_length (s : string) :
  (String.length (drop_last s) <= String.length s)%nat.
Proof.
  induction s as [|c s IH]; simpl; [lia|].
  destruct s; simpl in *; lia.
Qed.

Lemma digit_key_length (d : string) :
  is_digit_key d = true -> String.length d = 1%nat.
Proof. destruct d as [|c [|c' d]]; simpl; try discriminate; reflexivity. Qed.

(* set_clock *)
Lemma Sound_set_clock now w :
  Sound w -> (clock w <= now)%Z -> Sound (set_clock now w).
Proof.
  intros [] Hn. constructor; simpl; auto.
  intros t Ht. specialize (snd_ref0 t Ht). lia.
Qed.

Lemma Inv_commit w : Sound w -> Inv (commit w).
Proof.
  intros H. split; [|apply commit_coherent].
  unfold commit. destruct (deps_eqb (st w) (listener w)); [exact H|].
  destruct H. constructor; simpl; auto.
Qed.

Arguments randomTarget : simpl never.
Arguments speechTextForTarget : simpl never.
Arguments clamp01 : simpl never.

Ltac fields := constructor; unfold good_snap; simpl.
Ltac snap_ok :=
  unfold good_snap in *;
  repeat match goal with H : _ /\ _ |- _ => destruct H end;
  repeat split; try assumption; try lia.

Lemma Sound_startNextTrial snap rnd w :
  Sound w -> good_snap snap ->
  binary64 rnd = true -> (0 <= rnd)%Q -> (rnd < 1)%Q ->
  Sound (startNextTrial rt snap (level snap) (clock w) rnd w).
Proof.
  intros [] (Hl & Ht & Hi) Hd H0 H1. unfold startNextTrial.
  destruct (totalTrials snap <=? trialIdx snap)%Z eqn:E.
  - fields; auto.
    + intros Hb. destruct (snd_blank0 Hb). auto.
    + discriminate.
  - apply Z.leb_gt in E.
    destruct (randomTarget_generated rt (level snap) rnd Hl Hd H0 H1)
      as (z & Hz & Ez).
    assert (G : generated (randomTarget rt (level snap) rnd)).
    { exists z. split; [lia|exact Ez]. }
    pose proof (generated_not_empty _ G) as Hne.
    fields; auto.
    + snap_ok.
    + intros Hb. rewrite Hb in Hne. simpl in Hne. lia.
    + lia.
    + intros t Et. injection Et as <-. lia.
    + apply log_speak; [assumption|]. now apply good_speak_phrase.
Qed.

Lemma Sound_resetAll snap w :
  Sound w -> good_snap snap -> Sound (resetAll snap (clock w) w).
Proof.
  intros [] Hs. unfold resetAll.
  fields; auto.
  - snap_ok.
  - apply Forall_enqueue; assumption.
  - lia.
  - intros Hb. split; [now left|].
    apply Forall_enqueue; [exact I|]. now apply snd_blank0.
  - lia.
  - discriminate.
  - now apply log_cancel.
Qed.

Lemma Sound_backspace snap w : Sound w -> Sound (backspace snap w).
Proof.
  intros H. unfold backspace.
  destruct (negb (Status_eqb (status snap) listening)); [exact H|].
  destruct (String.length (input snap) =? 0)%nat; [exact H|].
  destruct H. pose proof (drop_last_length (input (st w))) as Hd.
  fields; auto.
  - lia.
  - intros Hl. specialize (snd_listening0 Hl). lia.
Qed.

Lemma Sound_clear snap w : Sound w -> Sound (clear snap w).
Proof.
  intros H. unfold clear.
  destruct (negb (Status_eqb (status snap) listening)); [exact H|].
  destruct H. fields; auto.
  - lia.
  - intros Hl. specialize (snd_listening0 Hl). lia.
Qed.

Lemma Sound_listen snap w :
  Sound w -> target snap = target (st w) -> Sound (listen rt snap w).
Proof.
  intros H Et. unfold listen.
  destruct (String.eqb_spec (target snap) "") as [E|E]; [exact H|].
  destruct H. fields; auto.
  apply log_speak; [assumption|]. apply good_speak_phrase.
  rewrite Et in *. destruct snd_target0; [contradiction|assumption].
Qed.

Lemma Sound_level_effect w : Sound w -> Sound (level_effect w).
Proof.
  intros []. unfold level_effect. fields; auto.
  - snap_ok.
  - lia.
  - intros Hb. split; [now left|]. now apply snd_blank0.
  - lia.
  - discriminate.
  - now apply log_cancel.
Qed.

Lemma Sound_handleDigit snap d w :
  Sound w -> good_snap snap ->
  status snap = status (st w) -> input snap = input (st w) ->
  target snap = target (st w) ->
  String.length d = 1%nat ->
  Sound (handleDigit snap d (clock w) w).
Proof.
  intros H Hs Es Ei Et Hd. unfold handleDigit.
  destruct (negb (Status_eqb (status snap) listening)); [exact H|].
  destruct (String.length (target snap) <=? String.length (input snap))%nat
    eqn:Eg; [exact H|].
  apply Nat.leb_gt in Eg.
  assert (Hn : String.length (input snap ++ d)
               = S (String.length (input snap)))
    by (rewrite length_append; lia).
  destruct H.
  assert (G : generated (target (st w))).
  { destruct snd_target0 as [E|G]; [|exact G].
    rewrite Et, E in Eg. simpl in Eg. lia. }
  assert (Hne : target (st w) <> "").
  { intros E. rewrite Et, E in Eg. simpl in Eg. lia. }
  destruct (String.length (input snap ++ d) =? String.length (target snap))%nat
    eqn:Ec.
  - apply Nat.eqb_eq in Ec.
    assert (R : good_record
              (Trial.mk (target snap) (input snap ++ d)
                 (String.eqb (input snap ++ d) (target snap))
                 (clock w - match trialStartRef w with
                            | Some t => t | None => clock w end))).
    { repeat split; simpl; try assumption.
      - now rewrite Et.
      - destruct (trialStartRef w) as [t|] eqn:Er; [|lia].
        specialize (snd_ref0 t eq_refl). lia. }
    destruct (String.eqb (input snap ++ d) (target snap)) eqn:Eq.
    + fields; auto.
      * apply Forall_enqueue; assumption.
      * intros Hb. contradiction.
      * rewrite <- Et. lia.
      * discriminate.
      * apply Forall_app. split; [assumption|]. now constructor.
      * now apply log_chime.
    + fields; auto.
      * apply Forall_enqueue; [|assumption].
        split; [assumption|]. now rewrite Et.
      * intros Hb. contradiction.
      * rewrite <- Et. lia.
      * discriminate.
      * apply Forall_app. split; [assumption|]. now constructor.
      * now apply log_tone.
  - apply Nat.eqb_neq in Ec.
    fields; auto.
    + rewrite <- Et. lia.
    + intros _. rewrite <- Et. lia.
Qed.

Lemma Sound_run_callback t rnd w :
  Sound w -> good_timer t ->
  binary64 rnd = true -> (0 <= rnd)%Q -> (rnd < 1)%Q ->
  (is_start t \/ target (st w) <> "") ->
  Sound (run_callback rt (cb t) (clock w) rnd w).
Proof.
  intros H Ht Hd H0 H1 Hb. unfold good_timer, is_start in *.
  destruct (cb t) as [snap|snap|snap]; simpl.
  - set (w' := if negb (hadErrorThisTarget snap)
               then setScore_fn (fun s => (s + 1)%Z) w else w).
    assert (H' : Sound w').
    { subst w'. destruct (negb (hadErrorThisTarget snap)); [|exact H].
      destruct H. fields; auto. lia. }
    assert (Ec : clock w' = clock w)
      by (subst w'; now destruct (negb (hadErrorThisTarget snap))).
    destruct (totalTrials snap <=? trialIdx snap)%Z eqn:E.
    + destruct H'. fields; auto.
      * intros Hx. destruct (snd_blank0 Hx). auto.
      * discriminate.
    + pose proof (Sound_startNextTrial snap rnd w' H' Ht Hd H0 H1) as S.
      rewrite Ec in S. exact S.
  - destruct Ht as [Hs G]. destruct Hb as [[]|Hne].
    destruct H.
    assert (Hlen : (0 < String.length (target (st w)))%nat).
    { destruct (target (st w)); [congruence|simpl; lia]. }
    fields; auto.
    + intros Hx. contradiction.
    + lia.
    + apply log_speak; [assumption|]. now apply good_speak_phrase.
  - now apply Sound_startNextTrial.
Qed.

Lemma Sound_frame (f : state -> state) w :
  Sound w ->
  (forall s, level (f s) = level s /\ totalTrials (f s) = totalTrials s
             /\ trialIdx (f s) = trialIdx s /\ target (f s) = target s
             /\ input (f s) = input s /\ status (f s) = status s
             /\ results (f s) = results s /\ score (f s) = score s) ->
  Sound (upd f w).
Proof.
  intros [] Hf. destruct (Hf (st w)) as (E1 & E2 & E3 & E4 & E5 & E6 & E7 & E8).
  constructor; unfold good_snap; cbn [st listener timers trialStartRef clock
    out upd]; rewrite ?E1, ?E2, ?E3, ?E4, ?E5, ?E6, ?E7, ?E8; auto.
Qed.

Lemma Sound_setStatus_idle w : Sound w -> Sound (setStatus idle w).
Proof.
  intros []. fields; auto.
  - intros Hb. split; [now left|]. now apply snd_blank0.
  - discriminate.
Qed.

Lemma Sound_setLevel v w :
  Sound w -> (v = 1 \/ v = 2 \/ v = 3)%Z -> Sound (setLevel v w).
Proof. intros [] Hv. fields; auto. snap_ok. Qed.

Lemma Sound_setTotalTrials v w :
  Sound w -> (v = 10 \/ v = 25 \/ v = 50)%Z -> Sound (setTotalTrials v w).
Proof. intros [] Hv. fields; auto. snap_ok. Qed.

Lemma Sound_set_timers_tail t rest w :
  Sound w -> timers w = t :: rest -> Sound (set_timers rest w).
Proof.
  intros [] E. rewrite E in *. fields; auto.
  - now inversion snd_timers0.
  - intros Hb. destruct (snd_blank0 Hb) as [A B]. split; [exact A|].
    now inversion B.
Qed.

Lemma or3_of_eqb (v a b c : Z) :
  ((v =? a) || (v =? b) || (v =? c))%Z = true -> v = a \/ v = b \/ v = c.
Proof.
  intros H. apply orb_true_iff in H. destruct H as [H|H].
  - apply orb_true_iff in H. destruct H as [H|H]; apply Z.eqb_eq in H; auto.
  - apply Z.eqb_eq in H. auto.
Qed.

Lemma Sound_onKey key rnd w :
  Sound w -> coherent w ->
  binary64 rnd = true -> (0 <= rnd)%Q -> (rnd < 1)%Q ->
  Sound (onKey rt (listener w) key (clock w) rnd w).
Proof.
  intros H C Hd H0 H1.
  destruct (deps_eqb_fields _ _ C) as (Es & Ei & Et & _).
  pose proof (snd_listener w H) as Hl.
  unfold onKey.
  destruct (is_digit_key key) eqn:Ek.
  { apply Sound_handleDigit; auto. now apply digit_key_length. }
  destruct (String.eqb key "Backspace"); [now apply Sound_backspace|].
  destruct (String.eqb (toLowerCase key) "l");
    [apply Sound_listen; auto|].
  destruct (String.eqb (toLowerCase key) "c"); [now apply Sound_clear|].
  destruct (String.eqb (toLowerCase key) "n");
    [now apply Sound_startNextTrial|].
  destruct (String.eqb (toLowerCase key) "s"); [now apply Sound_resetAll|].
  destruct (String.eqb (toLowerCase key) "h").
  { apply Sound_frame; [exact H|]. intros s. now repeat split. }
  destruct (String.eqb (toLowerCase key) "g"); [|exact H].
  apply Sound_frame; [exact H|]. intros s. now repeat split.
Qed.

(** One task keeps the invariant. *)
Lemma Inv_exec e now rnd w :
  Inv w -> enabled e now rnd w = true -> Inv (exec rt e now rnd w).
Proof.
  intros [S C] En. unfold enabled in En.
  apply andb_prop in En. destruct En as [En Ee].
  apply andb_prop in En. destruct En as [En E1].
  apply andb_prop in En. destruct En as [En E0].
  apply andb_prop in En. destruct En as [Ec Ed].
  apply Z.leb_le in Ec. apply Qle_bool_iff in E0.
  assert (H1 : (rnd < 1)%Q).
  { unfold Qltb in E1. apply negb_true_iff in E1.
    apply Qnot_le_lt. intros Hle. apply Qle_bool_iff in Hle. congruence. }
  pose proof (Sound_set_clock now w S Ec) as S0.
  assert (C0 : coherent (set_clock now w)) by exact C.
  unfold exec. cbv zeta. set (w0 := set_clock now w) in *.
  change now with (clock w0).
  pose proof (snd_st w0 S0) as Hst.
  destruct e.
  - apply Inv_commit, Sound_handleDigit; auto.
    apply andb_prop in Ee. destruct Ee as [Ek _].
    now apply digit_key_length.
  - now apply Inv_commit, Sound_backspace.
  - now apply Inv_commit, Sound_clear.
  - apply Inv_commit, Sound_frame; [exact S0|]. intros s. now repeat split.
  - apply Inv_commit, Sound_frame; [exact S0|]. intros s. now repeat split.
  - apply Inv_commit, Sound_listen; auto.
  - now apply Inv_commit, Sound_startNextTrial.
  - now apply Inv_commit, Sound_resetAll.
  - now apply Inv_commit, Sound_resetAll.
  - apply Inv_commit.
    apply (Sound_resetAll (st w0) (setStatus idle w0)); [|exact Hst].
    now apply Sound_setStatus_idle.
  - now apply Inv_commit, Sound_setStatus_idle.
  - destruct (v =? level (st w0))%Z; [now split|].
    apply Inv_commit, Sound_level_effect.
    apply Inv_commit, Sound_setLevel; [exact S0|]. now apply or3_of_eqb.
  - destruct (v =? totalTrials (st w0))%Z; [now split|].
    assert (I1 : Inv (commit (setTotalTrials v w0))).
    { apply Inv_commit, Sound_setTotalTrials; [exact S0|].
      now apply or3_of_eqb. }
    destruct I1 as [S1 _].
    set (w1 := commit (setTotalTrials v w0)) in *.
    apply Inv_commit. unfold totalTrials_effect.
    destruct (negb (Status_eqb (status (st w1)) idle)
              || (0 <? length (results (st w1)))%nat
              || (0 <? trialIdx (st w1))%Z); [|exact S1].
    assert (Ecl : clock w0 = clock w1).
    { subst w1. unfold commit.
      now destruct (deps_eqb (st (setTotalTrials v w0))
                      (listener (setTotalTrials v w0))). }
    rewrite Ecl. apply Sound_resetAll; [exact S1|]. apply (snd_st w1 S1).
  - apply Inv_commit, Sound_frame; [exact S0|]. intros s. now repeat split.
  - apply Inv_commit.
    apply (Sound_onKey key rnd w0); assumption.
  - destruct (timers w0) as [|t rest] eqn:Et; [now split|].
    apply Inv_commit.
    pose proof (Sound_set_timers_tail t rest w0 S0 Et) as S1.
    apply (Sound_run_callback t rnd (set_timers rest w0)); auto.
    + pose proof (snd_timers w0 S0) as Hf. rewrite Et in Hf.
      now inversion Hf.
    + destruct (string_dec (target (st w0)) "") as [Eb|Eb]; [left|now right].
      destruct (snd_blank w0 S0 Eb) as [_ Hall]. rewrite Et in Hall.
      now inversion Hall.
Qed.

Lemma Inv_initial : Inv initial_world.
Proof.
  split; [|reflexivity].
  constructor; unfold good_snap; simpl; auto; try lia; try discriminate.
  apply (log_cancel []). constructor.
Qed.

Lemma reachable_sound w : reachable rt w -> Inv w.
Proof.
  induction 1 as [|w w' _ IH Hs].
  - apply Inv_initial.
  - destruct Hs. now apply Inv_exec.
Qed.

Lemma app_snoc_split {A} (l1 l2 l : list A) (a b : A) :
  (l1 ++ a :: l2 = l ++ [b])%list ->
  (l2 = [] /\ a = b /\ l1 = l)
  \/ exists l2', l2 = (l2' ++ [b])%list /\ l = (l1 ++ a :: l2')%list.
Proof.
  intros H. destruct l2 as [|y l2].
  - left. apply app_inj_tail in H. destruct H as [-> ->]. auto.
  - right.
    destruct (exists_last (l := y :: l2) ltac:(discriminate)) as (m & x & E).
    rewrite E in *.
    change (l1 ++ a :: m ++ [x])%list with (l1 ++ (a :: m) ++ [x])%list in H.
    rewrite app_assoc in H. apply app_inj_tail in H. destruct H as [<- <-].
    now exists m.
Qed.

(** In a well-made log every request to speak is well made and directly
    follows a request for silence. *)
Lemma log_ok_speak (l : list output) :
  log_ok l ->
  forall l1 text rate vol l2,
    l = (l1 ++ Speak text rate vol :: l2)%list ->
    good_speak (Speak text rate vol)
    /\ exists l0, l1 = (l0 ++ [SpeechCancel])%list.
Proof.
  induction 1 as [|l _ IH|l _ IH|l _ IH|l t r v _ IH G];
    intros l1 text rate vol l2 E.
  - destruct l1; discriminate.
  - symmetry in E.
    destruct (app_snoc_split _ _ _ _ _ E) as [(_ & Ex & _)|(l2' & _ & El)];
      [discriminate|]. now apply (IH _ _ _ _ _ El).
  - symmetry in E.
    destruct (app_snoc_split _ _ _ _ _ E) as [(_ & Ex & _)|(l2' & _ & El)];
      [discriminate|]. now apply (IH _ _ _ _ _ El).
  - symmetry in E.
    destruct (app_snoc_split _ _ _ _ _ E) as [(_ & Ex & _)|(l2' & _ & El)];
      [discriminate|]. now apply (IH _ _ _ _ _ El).
  - change (l ++ [SpeechCancel; Speak t r v])%list
      with (l ++ [SpeechCancel] ++ [Speak t r v])%list in E.
    rewrite app_assoc in E. symmetry in E.
    destruct (app_snoc_split _ _ _ _ _ E) as [(_ & Ex & El)|(l2' & _ & El)].
    + injection Ex as -> -> ->. split; [exact G|]. now exists l.
    + symmetry in El.
      destruct (app_snoc_split _ _ _ _ _ El)
        as [(_ & Ex & _)|(l2'' & _ & El')]; [discriminate|].
      now apply (IH _ _ _ _ _ El').
Qed.

(** X13. In every reachable world the input is no longer than the target,
    and strictly shorter while the machine is listening. *)
Theorem input_within_target (w : world) (Hreach : reachable rt w) :
  (String.length (input (st w)) <= String.length (target (st w)))%nat
  /\ (status (st w) = listening ->
      (String.length (input (st w)) < String.length (target (st w)))%nat).
Proof.
  destruct (reachable_sound w Hreach) as [S _].
  split; [apply (snd_input w S)|apply (snd_listening w S)].
Qed.

(** X14. In every reachable world the target is either empty, which it is
    only while the machine is idle or complete, or the decimal string of an
    integer of 0..999. *)
Theorem target_is_a_number (w : world) (Hreach : reachable rt w) :
  (target (st w) = "" \/ generated (target (st w)))
  /\ (target (st w) = "" ->
      status (st w) = idle \/ status (st w) = complete).
Proof.
  destruct (reachable_sound w Hreach) as [S _].
  split; [apply (snd_target w S)|].
  intros E. apply (snd_blank w S E).
Qed.

(** X15. In every reachable world each record holds a target that is the
    decimal string of an integer of 0..999, a response of the target's
    length, a verdict that says whether the two are equal, and an elapsed
    time that is not negative. *)
Theorem records_are_consistent (w : world) (Hreach : reachable rt w) :
  forall r, In r (results (st w)) ->
    generated (Trial.target r)
    /\ String.length (Trial.response r) = String.length (Trial.target r)
    /\ (Trial.correct r = true <-> Trial.response r = Trial.target r)
    /\ (0 <= Trial.timeMs r)%Z.
Proof.
  destruct (reachable_sound w Hreach) as [S _].
  pose proof (snd_results w S) as H. rewrite Forall_forall in H.
  intros r Hr. destruct (H r Hr) as (A & B & C & D).
  split; [exact A|]. split; [exact B|]. split; [|exact D].
  rewrite C. apply String.eqb_eq.
Qed.

(** X16. In every reachable world each request to speak in the log directly
    follows a request for silence, carries a non-empty string (never
    [undefined]), the rate 0.9 and a volume within [0, 1]. *)
Theorem speech_requests_are_well_made (w : world) (Hreach : reachable rt w) :
  forall l1 text rate vol l2,
    out w = (l1 ++ Speak text rate vol :: l2)%list ->
    (exists l0, l1 = (l0 ++ [SpeechCancel])%list)
    /\ (exists s, text = VString s /\ s <> "")
    /\ rate = (9 # 10)%Q /\ (0 <= vol)%Q /\ (vol <= 1)%Q.
Proof.
  destruct (reachable_sound w Hreach) as [S _].
  intros l1 text rate vol l2 E.
  destruct (log_ok_speak _ (snd_out w S) _ _ _ _ _ E) as [G L].
  split; [exact L|exact G].
Qed.

(** X17. In every reachable world the level is 1, 2 or 3, the session
    length is 10, 25 or 50, the number of trials started is between 0 and
    50 and the first-try count is not negative. *)
Theorem counters_stay_in_range (w : world) (Hreach : reachable rt w) :
  (level (st w) = 1 \/ level (st w) = 2 \/ level (st w) = 3)%Z
  /\ (totalTrials (st w) = 10 \/ totalTrials (st w) = 25
      \/ totalTrials (st w) = 50)%Z
  /\ (0 <= trialIdx (st w) <= 50)%Z
  /\ (0 <= score (st w))%Z.
Proof.
  destruct (reachable_sound w Hreach) as [S _].
  destruct (snd_st w S) as (A & B & C).
  repeat split; try assumption; try lia. apply (snd_score w S).
Qed.

(** X18. In every reachable world the registered key handler is one that
    saw the current status, input, target, level, session length and error
    flag, and an equal volume. *)
Theorem key_handler_sees_current_state (w : world)
    (Hreach : reachable rt w) :
  status (listener w) = status (st w)
  /\ input (listener w) = input (st w)
  /\ target (listener w) = target (st w)
  /\ level (listener w) = level (st w)
  /\ totalTrials (listener w) = totalTrials (st w)
  /\ (volume (listener w) == volume (st w))%Q
  /\ hadErrorThisTarget (listener w) = hadErrorThisTarget (st w).
Proof.
  destruct (reachable_sound w Hreach) as [_ C].
  destruct (deps_eqb_fields _ _ C) as (A & B & D & E & F & G & H).
  repeat split; try (symmetry; assumption).
Qed.

(** X19. In every reachable world the hint line renders: it is absent, or
    it is a text; the phrase behind it is never [undefined]. *)
Theorem hint_never_throws (toUpperCase_high : ascii -> string) (w : world)
    (Hreach : reachable rt w) :
  hintLine rt toUpperCase_high (st w) <> HintThrows.
Proof.
  destruct (reachable_sound w Hreach) as [S _].
  unfold hintLine.
  destruct (negb (Status_eqb (status (st w)) idle)); [|discriminate].
  cbn [andb].
  destruct (showHint (st w) && negb (String.eqb (target (st w)) "")) eqn:E;
    [|discriminate].
  apply andb_prop in E. destruct E as [_ E]. apply negb_true_iff in E.
  apply String.eqb_neq in E.
  destruct (snd_target w S) as [Eb|(z & Hz & Ez)]; [contradiction|].
  rewrite Ez, speech_of_decimal by exact Hz.
  destruct ((2 <=? level (st w))%Z || (z <? 10)%Z); discriminate.
Qed.

End Invariants.

(* ================================================================== *)
(** ** More on the trial state machine *)
(* ================================================================== *)

Section MachineMore.

Variable rt : runtime.

Lemma drop_last_snoc (s : string) (c : ascii) :
  drop_last (s ++ String c "") = s.
Proof.
  induction s as [|x s IH]; [reflexivity|].
  simpl. rewrite IH. destruct s; reflexivity.
Qed.

Lemma digit_key_unit (d : string) :
  is_digit_key d = true -> exists c, d = String c "".
Proof.
  destruct d as [|c [|c' d]]; simpl; try discriminate. now exists c.
Qed.

Lemma with_input_back (s : state) (x : string) :
  with_input (input s) (with_input x s) = s.
Proof. now destruct s. Qed.

Lemma backspace_removes snap w :
  status snap = listening -> input snap <> "" ->
  backspace snap w = setInput_fn drop_last w.
Proof.
  intros Hs Hi. unfold backspace. rewrite Hs. simpl.
  destruct (input snap); [congruence|reflexivity].
Qed.

Lemma backspace_ignored snap w :
  status snap <> listening \/ input snap = "" -> backspace snap w = w.
Proof.
  intros [H|H]; unfold backspace.
  - destruct (Status_eqb (status snap) listening) eqn:E; [|reflexivity].
    apply Status_eqb_eq in E. contradiction.
  - rewrite H. now destruct (negb (Status_eqb (status snap) listening)).
Qed.

(** X20. While listening, a digit that does not complete the input,
    followed by a backspace, leaves the state as it was, by keypad or by
    keyboard; and a backspace outside listening, or on an empty input,
    changes nothing at all. *)
Theorem digit_then_backspace (w : world) (d : string) (e1 e2 : event)
    (now1 now2 : Z) (rnd1 rnd2 : Q)
    (Hcoh : coherent w)
    (Hdigit : is_digit_key d = true)
    (He1 : e1 = ClickDigit d \/ e1 = KeyDown d)
    (He2 : e2 = ClickBackspace \/ e2 = KeyDown "Backspace") :
  (status (st w) = listening ->
   (String.length (input (st w) ++ d) < String.length (target (st w)))%nat ->
   st (exec rt e2 now2 rnd2 (exec rt e1 now1 rnd1 w)) = st w)
  /\ (status (st w) <> listening \/ input (st w) = "" ->
      exec rt e2 now2 rnd2 w = set_clock now2 w).
Proof.
  destruct (deps_eqb_fields _ _ Hcoh) as (Es & Ei & Et & _).
  split.
  - intros Hl Hlen.
    destruct (digit_key_unit d Hdigit) as [c ->].
    set (w1 := exec rt e1 now1 rnd1 w).
    assert (C1 : coherent w1) by (now apply exec_coherent).
    assert (S1 : st w1 = with_input (input (st w) ++ String c "") (st w)).
    { subst w1. destruct He1 as [-> | ->]; unfold exec;
        rewrite st_commit.
      - rewrite handleDigit_partial by assumption. reflexivity.
      - unfold onKey. rewrite Hdigit.
        rewrite handleDigit_partial.
        + simpl. now rewrite <- Ei.
        + simpl. now rewrite <- Es.
        + simpl. now rewrite <- Ei, <- Et. }
    destruct (deps_eqb_fields _ _ C1) as (Es1 & Ei1 & _).
    assert (Hs1 : status (st w1) = listening) by (now rewrite S1).
    assert (Hi1 : input (st w1) <> "").
    { rewrite S1. simpl. destruct (input (st w)); discriminate. }
    destruct He2 as [-> | ->]; unfold exec; rewrite st_commit.
    + rewrite backspace_removes by assumption.
      simpl. rewrite S1. simpl. rewrite drop_last_snoc.
      apply with_input_back.
    + change (onKey rt ?s "Backspace" ?n ?r ?x) with (backspace s x).
      rewrite backspace_removes.
      * simpl. rewrite S1. simpl. rewrite drop_last_snoc.
        apply with_input_back.
      * simpl. now rewrite <- Es1.
      * simpl. now rewrite <- Ei1.
  - intros Hc.
    assert (C0 : coherent (set_clock now2 w)) by exact Hcoh.
    destruct He2 as [-> | ->]; unfold exec.
    + rewrite backspace_ignored by exact Hc. now apply commit_id.
    + change (onKey rt ?s "Backspace" ?n ?r ?x) with (backspace s x).
      rewrite backspace_ignored; [now apply commit_id|].
      simpl. now rewrite <- Es, <- Ei.
Qed.

Lemma handleDigit_same_state s1 s2 d now w :
  status s1 = status s2 -> input s1 = input s2 -> target s1 = target s2 ->
  st (handleDigit s1 d now w) = st (handleDigit s2 d now w)
  /\ out (handleDigit s1 d now w) = out (handleDigit s2 d now w)
  /\ trialStartRef (handleDigit s1 d now w)
     = trialStartRef (handleDigit s2 d now w).
Proof.
  intros Es Ei Et. unfold handleDigit. rewrite Es, Ei, Et.
  destruct (negb (Status_eqb (status s2) listening)); [auto|].
  destruct (String.length (target s2) <=? String.length (input s2))%nat;
    [auto|].
  destruct (String.length (input s2 ++ d) =? String.length (target s2))%nat;
    [|auto].
  destruct (String.eqb (input s2 ++ d) (target s2)); auto.
Qed.

Lemma same_status_backspace s1 s2 w :
  status s1 = status s2 -> input s1 = input s2 ->
  backspace s1 w = backspace s2 w.
Proof. intros Es Ei. unfold backspace. now rewrite Es, Ei. Qed.

Lemma same_status_clear s1 s2 w :
  status s1 = status s2 -> clear s1 w = clear s2 w.
Proof. intros Es. unfold clear. now rewrite Es. Qed.

(** X21. When the registered key handler has seen the current state (which
    it has in every reachable world), a digit key, Backspace and "c" do to
    the state, the log and the reference cell exactly what the keypad key,
    the backspace button and the Clear button do, and "l" does to the
    state what the Listen button does. *)
Theorem keys_act_like_buttons (w : world) (now : Z) (rnd : Q)
    (Hcoh : coherent w) :
  (forall d, is_digit_key d = true ->
     st (exec rt (KeyDown d) now rnd w)
     = st (exec rt (ClickDigit d) now rnd w)
     /\ out (exec rt (KeyDown d) now rnd w)
        = out (exec rt (ClickDigit d) now rnd w)
     /\ trialStartRef (exec rt (KeyDown d) now rnd w)
        = trialStartRef (exec rt (ClickDigit d) now rnd w))
  /\ exec rt (KeyDown "Backspace") now rnd w
     = exec rt ClickBackspace now rnd w
  /\ (forall k, k = "c" \/ k = "C" ->
      exec rt (KeyDown k) now rnd w = exec rt ClickClear now rnd w)
  /\ (forall k, k = "l" \/ k = "L" ->
      st (exec rt (KeyDown k) now rnd w)
      = st (exec rt ClickListen now rnd w)).
Proof.
  destruct (deps_eqb_fields _ _ Hcoh) as (Es & Ei & Et & _).
  split; [|split; [|split]].
  - intros d Hd. unfold exec. rewrite !st_commit, !out_commit, !ref_commit.
    unfold onKey. rewrite Hd.
    apply handleDigit_same_state; simpl; now symmetry.
  - unfold exec.
    change (onKey rt ?s "Backspace" ?n ?r ?x) with (backspace s x).
    f_equal. apply same_status_backspace; simpl; now symmetry.
  - intros k [-> | ->]; unfold exec.
    + change (onKey rt ?s "c" ?n ?r ?x) with (clear s x).
      f_equal. apply same_status_clear; simpl; now symmetry.
    + change (onKey rt ?s "C" ?n ?r ?x) with (clear s x).
      f_equal. apply same_status_clear; simpl; now symmetry.
  - intros k [-> | ->]; unfold exec; rewrite !st_commit.
    + change (onKey rt ?s "l" ?n ?r ?x) with (listen rt s x).
      now rewrite !st_listen.
    + change (onKey rt ?s "L" ?n ?r ?x) with (listen rt s x).
      now rewrite !st_listen.
Qed.

(** X22. A correct answer given while the error flag is clear is credited
    once: the attempt puts the machine in [correct], appends the record
    and plays the chime, the count still unchanged; when its timeout runs
    (the queue then being [rest]), the count is one higher, and the machine
    is complete with the target kept if the render of the attempt had
    started every trial, or else listening to a new target with one trial
    more than that render. *)
Theorem first_try_is_credited (w : world) (snap : state) (d : string)
    (now now1 : Z) (rnd : Q) (rest : list timer)
    (Hsnap : deps_eqb snap (st w) = true)
    (Hlistening : status (st w) = listening)
    (Hshort :
       (String.length (input (st w)) < String.length (target (st w)))%nat)
    (Hright : input (st w) ++ d = target (st w))
    (Hfirst : hadErrorThisTarget (st w) = false) :
  let w1 := handleDigit snap d now w in
  let w2 :=
    run_callback rt (CorrectTimeout snap) now1 rnd (set_timers rest w1) in
  (status (st w1) = correct
   /\ score (st w1) = score (st w)
   /\ results (st w1)
      = (results (st w) ++
         [Trial.mk (target (st w)) (target (st w)) true (elapsed now w)])%list
   /\ out w1 = (out w ++ [CorrectChime])%list
   /\ timers w1
      = enqueue (mkTimer (now + 2000) (CorrectTimeout snap)) (timers w))
  /\ score (st w2) = (score (st w) + 1)%Z
  /\ ((totalTrials snap <= trialIdx snap)%Z ->
      status (st w2) = complete /\ target (st w2) = target (st w)
      /\ trialIdx (st w2) = trialIdx (st w) /\ out w2 = out w1)
  /\ ((trialIdx snap < totalTrials snap)%Z ->
      status (st w2) = listening
      /\ trialIdx (st w2) = (trialIdx snap + 1)%Z
      /\ target (st w2) = randomTarget rt (level snap) rnd
      /\ input (st w2) = ""
      /\ hadErrorThisTarget (st w2) = false).
Proof.
  destruct (deps_eqb_fields _ _ Hsnap) as (Es & Ei & Et & _ & _ & _ & Ef).
  intros w1 w2.
  assert (E1 : w1 = setTimeout (CorrectTimeout snap) 2000 now
      (playCorrectChime
        (setStatus correct
          (setResults_fn
             (fun r => (r ++ [Trial.mk (target snap) (input snap ++ d) true
                         (elapsed now w)])%list)
             (setInput (input snap ++ d) w))))).
  { apply handleDigit_right; rewrite ?Es, ?Ei, ?Et; assumption. }
  split; [|split; [|split]].
  - rewrite E1. simpl. rewrite Ei, Et, Hright. repeat split.
  - subst w2. rewrite E1. unfold run_callback. rewrite Ef, Hfirst.
    simpl negb. cbv iota.
    destruct (totalTrials snap <=? trialIdx snap)%Z; [reflexivity|].
    rewrite score_startNextTrial. reflexivity.
  - intros H. apply Z.leb_le in H.
    subst w2. rewrite E1. unfold run_callback. rewrite H, Ef, Hfirst.
    simpl. rewrite ?Ei, ?Et, ?Hright. repeat split; now rewrite ?Et.
  - intros H. apply Z.leb_gt in H.
    subst w2. rewrite E1. unfold run_callback, startNextTrial.
    rewrite H, Ef, Hfirst. repeat split.
Qed.

(** X23. Selecting another level resets the session without starting one:
    afterwards the level is the selected one, the machine is idle with no
    record, no trial, no credit and no input, hint off and error flag
    clear; the target, the session length, the volume and the guide switch
    are as before; speech is silenced; and no timeout is added or removed.
    Selecting the current level changes nothing. *)
Theorem level_change_resets (w : world) (v : Z) (now : Z) (rnd : Q) :
  let w' := exec rt (ChangeLevel v) now rnd w in
  (v <> level (st w) ->
   st w' = mkState v (totalTrials (st w)) 0 (target (st w)) "" idle []
             (volume (st w)) 0 false false (showGuide (st w))
   /\ timers w' = timers w
   /\ trialStartRef w' = trialStartRef w
   /\ out w' = (out w ++ [SpeechCancel])%list)
  /\ (v = level (st w) -> w' = set_clock now w).
Proof.
  intros w'. subst w'. unfold exec. cbv zeta.
  change (level (st (set_clock now w))) with (level (st w)).
  split.
  - intros H. apply Z.eqb_neq in H. rewrite H.
    rewrite st_commit, timers_commit, ref_commit, out_commit.
    unfold level_effect. cbn [st timers trialStartRef out setHadErrorThisTarget
      setShowHint setInput setStatus setTrialIdx setScore setResults upd emit].
    rewrite st_commit, timers_commit, ref_commit, out_commit.
    repeat split.
  - intros ->. now rewrite Z.eqb_refl.
Qed.


(** X25. Reset, Start and Restart clear the session and leave it idle, with
    one timeout added, due 100 ms later, that holds the render the button
    was clicked in.  When that timeout runs it counts from that render:
    if that render had started every trial, the machine goes to complete
    and no target is drawn; otherwise the machine listens to a new target
    and the trials started are those of that render plus one. *)
Theorem reset_then_start (w : world) (e : event) (now now1 : Z)
    (rnd rnd1 : Q) (rest : list timer)
    (He : e = ClickReset \/ e = ClickStart \/ e = ClickRestart) :
  let w1 := exec rt e now rnd w in
  let w2 :=
    run_callback rt (StartTimeout (st w)) now1 rnd1 (set_timers rest w1) in
  (st w1 = mkState (level (st w)) (totalTrials (st w)) 0 (target (st w)) ""
             idle [] (volume (st w)) 0 false false false
   /\ timers w1
      = enqueue (mkTimer (now + 100) (StartTimeout (st w))) (timers w)
   /\ out w1 = (out w ++ [SpeechCancel])%list)
  /\ ((totalTrials (st w) <= trialIdx (st w))%Z ->
      status (st w2) = complete /\ trialIdx (st w2) = 0%Z
      /\ target (st w2) = target (st w) /\ out w2 = out w1)
  /\ ((trialIdx (st w) < totalTrials (st w))%Z ->
      status (st w2) = listening
      /\ trialIdx (st w2) = (trialIdx (st w) + 1)%Z
      /\ target (st w2) = randomTarget rt (level (st w)) rnd1
      /\ score (st w2) = 0%Z /\ results (st w2) = []).
Proof.
  intros w1 w2.
  assert (S1 : st w1 = mkState (level (st w)) (totalTrials (st w)) 0
                         (target (st w)) "" idle [] (volume (st w)) 0 false
                         false false
               /\ timers w1
                  = enqueue (mkTimer (now + 100) (StartTimeout (st w)))
                      (timers w)
               /\ out w1 = (out w ++ [SpeechCancel])%list).
  { subst w1. destruct He as [-> | [-> | ->]]; unfold exec;
      rewrite st_commit, timers_commit, out_commit; repeat split. }
  destruct S1 as (A & B & C).
  split; [now repeat split|]. split.
  - intros H. apply Z.leb_le in H. subst w2.
    unfold run_callback, startNextTrial. rewrite H.
    cbn [st out setStatus setShowGuide upd set_timers]. rewrite A.
    repeat split.
  - intros H. apply Z.leb_gt in H. subst w2.
    unfold run_callback, startNextTrial. rewrite H.
    cbn [st out speak emit set_trialStartRef setHadErrorThisTarget
      setShowHint setStatus setInput setTarget setTrialIdx upd set_timers].
    rewrite A. repeat split.
Qed.

Lemma get_app_unit (a : string) (c : ascii) (b : string) :
  String.get (String.length a) (a ++ String c b) = Some c.
Proof. induction a as [|x a IH]; simpl; [reflexivity|exact IH]. Qed.

Lemma get_split (n : nat) :
  forall (t : string) (c : ascii),
    String.get n t = Some c ->
    exists a b, t = a ++ String c b /\ String.length a = n.
Proof.
  induction n as [|n IH]; intros [|x t] c H; simpl in H; try discriminate.
  - injection H as ->. now exists "", t.
  - destruct (IH t c H) as (a & b & -> & <-).
    now exists (String x a), b.
Qed.

Lemma get_beyond (n : nat) :
  forall t : string, (String.length t <= n)%nat -> String.get n t = None.
Proof.
  induction n as [|n IH]; intros [|x t] H; simpl in *; try reflexivity;
    try lia.
  apply IH. lia.
Qed.

(** X26. The guide highlights at most one key, and only while it is on and
    the machine is listening: the key of the unit the target has at the
    position the input has reached, whatever was typed before; so it is
    the next right key exactly when the input so far is right.  Once the
    input has the target's length no key is highlighted. *)
Theorem guide_points_to_next_digit (s : state) (d : string) :
  (highlighted s d = true ->
   showGuide s = true /\ status s = listening
   /\ (exists a rest,
         target s = a ++ d ++ rest
         /\ String.length a = String.length (input s))
   /\ forall d', highlighted s d' = true -> d' = d)
  /\ ((String.length (target s) <= String.length (input s))%nat ->
      highlighted s d = false)
  /\ (showGuide s = true -> status s = listening ->
      forall c rest,
        target s = input s ++ String c rest ->
        highlighted s (String c "") = true).
Proof.
  unfold highlighted. split; [|split].
  - intros H. apply andb_prop in H. destruct H as [H Hd].
    apply andb_prop in H. destruct H as [Hg Hs].
    apply Status_eqb_eq in Hs.
    destruct (String.get (String.length (input s)) (target s)) as [c|] eqn:E;
      [|discriminate].
    apply String.eqb_eq in Hd. subst d.
    split; [exact Hg|]. split; [exact Hs|]. split.
    + destruct (get_split _ _ _ E) as (a & b & Et & El).
      exists a, b. split; [exact Et|exact El].
    + intros d' Hd'. rewrite Hg in Hd'.
      apply andb_prop in Hd'. destruct Hd' as [_ Hd'].
      now apply String.eqb_eq in Hd'.
  - intros H. rewrite get_beyond by exact H.
    now rewrite andb_false_r.
  - intros Hg Hs c rest Et. rewrite Hg, Et.
    rewrite get_app_unit, String.eqb_refl, Hs. reflexivity.
Qed.

End MachineMore.

(* ================================================================== *)
(** ** Worked instances of the further properties *)

Lemma world_after_reachable (script : list (event * Z * Q)) :
  reachable plain_runtime (world_after script).
Proof.
  unfold world_after.
  destruct (run plain_runtime script initial_world) as [w|] eqn:E.
  - exact (run_reachable plain_runtime script initial_world w
             (reach_init plain_runtime) E).
  - apply reach_init.
Qed.

Lemma toWords_out_of_range_witness :
  (1000 < 0 \/ 999 < 1000)%Z /\ (Z.abs 1000 <= 2 ^ 53)%Z
  /\ toWords_traced plain_runtime (Fin (inject_Z 1000))
     = (VString (decimal 1000), [Stringified]).
Proof.
  assert (Hout : (1000 < 0 \/ 999 < 1000)%Z) by (right; lia).
  assert (Hsize : (Z.abs 1000 <= 2 ^ 53)%Z) by (vm_compute; discriminate).
  split; [exact Hout|]. split; [exact Hsize|].
  exact (proj1 (toWords_out_of_range plain_runtime 1000 Hout Hsize)).
Defined.

Lemma toWords_injective_witness :
  (0 <= 21 <= 999)%Z /\ (0 <= 20 + 1 <= 999)%Z
  /\ toWords plain_runtime (Fin (inject_Z 21))
     = toWords plain_runtime (Fin (inject_Z (20 + 1)))
  /\ 21%Z = (20 + 1)%Z.
Proof.
  assert (Ha : (0 <= 21 <= 999)%Z) by lia.
  assert (Hb : (0 <= 20 + 1 <= 999)%Z) by lia.
  assert (E : toWords plain_runtime (Fin (inject_Z 21))
              = toWords plain_runtime (Fin (inject_Z (20 + 1))))
    by reflexivity.
  split; [exact Ha|]. split; [exact Hb|]. split; [exact E|].
  exact (toWords_injective plain_runtime 21 (20 + 1) Ha Hb E).
Defined.

Lemma toWords_well_spaced_witness :
  (0 <= 340 <= 999)%Z
  /\ exists s,
       toWords plain_runtime (Fin (inject_Z 340)) = VString s
       /\ well_spaced_words s = true.
Proof.
  assert (H : (0 <= 340 <= 999)%Z) by lia.
  split; [exact H|].
  exact (toWords_well_spaced plain_runtime 340 H).
Defined.

Lemma hyphenate_toWords_witness :
  (0 <= 121 <= 999)%Z
  /\ exists s,
       toWords plain_runtime (Fin (inject_Z 121)) = VString s
       /\ hyphenateCompoundWords s = verbalize_hyphenated 121
       /\ hyphenateCompoundWords (hyphenateCompoundWords s)
          = hyphenateCompoundWords s.
Proof.
  assert (H : (0 <= 121 <= 999)%Z) by lia.
  split; [exact H|].
  exact (hyphenate_toWords plain_runtime 121 H).
Defined.

Lemma hint_shows_capitalised_words_witness :
  (0 <= 47 <= 999)%Z /\ showHint hint_state = true
  /\ target hint_state = decimal 47
  /\ (2 <= level hint_state \/ 47 <= 9)%Z
  /\ exists c rest,
       verbalize_hyphenated 47 = String c rest
       /\ is_lower c = true
       /\ hintLine plain_runtime (fun c => String c "") hint_state
          = if Status_eqb (status hint_state) idle then NoHint
            else HintText (String (upper_ascii c) rest).
Proof.
  assert (Hz : (0 <= 47 <= 999)%Z) by lia.
  assert (Hhint : showHint hint_state = true) by reflexivity.
  assert (Htarget : target hint_state = decimal 47) by reflexivity.
  assert (Hlevel : (2 <= level hint_state \/ 47 <= 9)%Z)
    by (left; simpl; lia).
  split; [exact Hz|]. split; [exact Hhint|]. split; [exact Htarget|].
  split; [exact Hlevel|].
  exact (hint_shows_capitalised_words plain_runtime (fun c => String c "")
           hint_state 47 Hz Hhint Htarget Hlevel).
Defined.

Lemma accuracy_is_rounded_percentage_witness :
  (0 <= score scored_state <= trialIdx scored_state)%Z
  /\ (0 <= accuracy scored_state <= 100)%Z.
Proof.
  assert (Hscore : (0 <= score scored_state <= trialIdx scored_state)%Z)
    by (simpl; lia).
  split; [exact Hscore|].
  exact (proj1 (accuracy_is_rounded_percentage scored_state Hscore)).
Defined.

Lemma phrase_of_new_target_witness :
  (2 = 1 \/ 2 = 2 \/ 2 = 3)%Z
  /\ binary64 near_37_90 = true
  /\ (0 <= near_37_90)%Q /\ (near_37_90 < 1)%Q
  /\ exists z : Z,
       (0 <= z <= 999)%Z
       /\ randomTarget plain_runtime 2 near_37_90 = decimal z
       /\ Number_ plain_runtime (randomTarget plain_runtime 2 near_37_90)
          = Fin (inject_Z z)
       /\ speechTextForTarget plain_runtime
            (randomTarget plain_runtime 2 near_37_90) 2
          = VString (verbalize z).
Proof.
  assert (Hlvl : (2 = 1 \/ 2 = 2 \/ 2 = 3)%Z) by (right; left; reflexivity).
  assert (Hb : binary64 near_37_90 = true) by (vm_compute; reflexivity).
  assert (H0 : (0 <= near_37_90)%Q) by (unfold Qle; simpl; lia).
  assert (H1 : (near_37_90 < 1)%Q) by reflexivity.
  split; [exact Hlvl|]. split; [exact Hb|]. split; [exact H0|].
  split; [exact H1|].
  exact (phrase_of_new_target plain_runtime 2 near_37_90 Hlvl Hb H0 H1).
Defined.

Lemma selfTest_passes_witness :
  (forall i : nat,
     binary64 ((fun _ => near_37_90) i) = true
     /\ (0 <= (fun _ => near_37_90) i)%Q
     /\ ((fun _ => near_37_90) i < 1)%Q)
  /\ forallb (fun b => b) (selfTest plain_runtime (fun _ => near_37_90))
     = true
  /\ length (selfTest plain_runtime (fun _ => near_37_90)) = 324%nat.
Proof.
  assert (Hdraw : forall i : nat,
            binary64 ((fun _ : nat => near_37_90) i) = true
            /\ (0 <= (fun _ : nat => near_37_90) i)%Q
            /\ ((fun _ : nat => near_37_90) i < 1)%Q).
  { intros i. split; [vm_compute; reflexivity|].
    split; [unfold Qle; simpl; lia | reflexivity]. }
  split; [exact Hdraw|].
  exact (selfTest_passes plain_runtime (fun _ => near_37_90) Hdraw).
Defined.

Lemma pick_best_ranked_witness :
  let v := mkVoice "Google UK English Female" "en-GB" in
  pick sample_voices = Some v
  /\ exists l1 l2,
       sample_voices = (l1 ++ v :: l2)%list
       /\ (forall u, In u l1 -> (rank v < rank u)%nat)
       /\ (forall u, In u l2 -> (rank v <= rank u)%nat).
Proof.
  intros v.
  assert (Hpick : pick sample_voices = Some v) by reflexivity.
  split; [exact Hpick|].
  exact (proj1 (pick_best_ranked sample_voices v Hpick)).
Defined.

Lemma female_voice_passes_male_test_witness :
  let v := mkVoice "Google UK English Female" "en-GB" in
  test_words "female" [] (name v) = true
  /\ test_words "en-GB" [] (lang v) = true
  /\ is_gbMale v = true /\ (rank v <= 2)%nat.
Proof.
  intros v.
  assert (Hname : test_words "female" [] (name v) = true) by reflexivity.
  assert (Hlang : test_words "en-GB" [] (lang v) = true) by reflexivity.
  split; [exact Hname|]. split; [exact Hlang|].
  exact (female_voice_passes_male_test v Hname Hlang).
Defined.

Lemma input_within_target_witness :
  reachable plain_runtime (world_after retry_session)
  /\ (String.length (input (st (world_after retry_session)))
      <= String.length (target (st (world_after retry_session))))%nat.
Proof.
  split; [exact (world_after_reachable retry_session)|].
  exact (proj1 (input_within_target plain_runtime (world_after retry_session)
                  (world_after_reachable retry_session))).
Defined.

Lemma target_is_a_number_witness :
  reachable plain_runtime (world_after reset_session)
  /\ (target (st (world_after reset_session)) = ""
      \/ generated (target (st (world_after reset_session)))).
Proof.
  split; [exact (world_after_reachable reset_session)|].
  exact (proj1 (target_is_a_number plain_runtime (world_after reset_session)
                  (world_after_reachable reset_session))).
Defined.

Lemma records_are_consistent_witness :
  reachable plain_runtime (world_after retry_session)
  /\ forall r, In r (results (st (world_after retry_session))) ->
       generated (Trial.target r)
       /\ String.length (Trial.response r) = String.length (Trial.target r)
       /\ (Trial.correct r = true <-> Trial.response r = Trial.target r)
       /\ (0 <= Trial.timeMs r)%Z.
Proof.
  split; [exact (world_after_reachable retry_session)|].
  exact (records_are_consistent plain_runtime (world_after retry_session)
           (world_after_reachable retry_session)).
Defined.

Lemma speech_requests_are_well_made_witness :
  reachable plain_runtime (world_after retry_session)
  /\ forall l1 text rate vol l2,
       out (world_after retry_session)
       = (l1 ++ Speak text rate vol :: l2)%list ->
       (exists l0, l1 = (l0 ++ [SpeechCancel])%list)
       /\ (exists s, text = VString s /\ s <> "")
       /\ rate = (9 # 10)%Q /\ (0 <= vol)%Q /\ (vol <= 1)%Q.
Proof.
  split; [exact (world_after_reachable retry_session)|].
  exact (speech_requests_are_well_made plain_runtime
           (world_after retry_session)
           (world_after_reachable retry_session)).
Defined.

Lemma counters_stay_in_range_witness :
  reachable plain_runtime (world_after overrun_session)
  /\ (0 <= trialIdx (st (world_after overrun_session)) <= 50)%Z.
Proof.
  split; [exact (world_after_reachable overrun_session)|].
  exact (proj1 (proj2 (proj2
    (counters_stay_in_range plain_runtime (world_after overrun_session)
       (world_after_reachable overrun_session))))).
Defined.

Lemma key_handler_sees_current_state_witness :
  reachable plain_runtime (world_after key_next_session)
  /\ status (listener (world_after key_next_session))
     = status (st (world_after key_next_session)).
Proof.
  split; [exact (world_after_reachable key_next_session)|].
  exact (proj1 (key_handler_sees_current_state plain_runtime
                  (world_after key_next_session)
                  (world_after_reachable key_next_session))).
Defined.

Lemma hint_never_throws_witness :
  reachable plain_runtime (world_after hint_session)
  /\ showHint (st (world_after hint_session)) = true
  /\ status (st (world_after hint_session)) = listening
  /\ hintLine plain_runtime (fun c => String c "")
       (st (world_after hint_session)) <> HintThrows.
Proof.
  split; [exact (world_after_reachable hint_session)|].
  split; [reflexivity|]. split; [reflexivity|].
  exact (hint_never_throws plain_runtime (fun c => String c "")
           (world_after hint_session)
           (world_after_reachable hint_session)).
Defined.

Lemma digit_then_backspace_witness :
  coherent sample_world3 /\ is_digit_key "9" = true
  /\ (KeyDown "9" = ClickDigit "9" \/ KeyDown "9" = KeyDown "9")
  /\ (ClickBackspace = ClickBackspace
      \/ ClickBackspace = KeyDown "Backspace")
  /\ st (exec plain_runtime ClickBackspace 2000 0
           (exec plain_runtime (KeyDown "9") 1000 0 sample_world3))
     = st sample_world3.
Proof.
  assert (Hcoh : coherent sample_world3) by reflexivity.
  assert (Hdigit : is_digit_key "9" = true) by reflexivity.
  assert (He1 : KeyDown "9" = ClickDigit "9" \/ KeyDown "9" = KeyDown "9")
    by (right; reflexivity).
  assert (He2 : ClickBackspace = ClickBackspace
                \/ ClickBackspace = KeyDown "Backspace")
    by (left; reflexivity).
  split; [exact Hcoh|]. split; [exact Hdigit|]. split; [exact He1|].
  split; [exact He2|].
  apply (proj1 (digit_then_backspace plain_runtime sample_world3 "9"
                  (KeyDown "9") ClickBackspace 1000 2000 0 0
                  Hcoh Hdigit He1 He2)).
  - reflexivity.
  - simpl. lia.
Defined.

Lemma keys_act_like_buttons_witness :
  coherent sample_world3
  /\ exec plain_runtime (KeyDown "Backspace") 1000 0 sample_world3
     = exec plain_runtime ClickBackspace 1000 0 sample_world3.
Proof.
  assert (Hcoh : coherent sample_world3) by reflexivity.
  split; [exact Hcoh|].
  exact (proj1 (proj2
    (keys_act_like_buttons plain_runtime sample_world3 1000 0 Hcoh))).
Defined.

Lemma first_try_is_credited_witness :
  deps_eqb sample_state3 (st sample_world3) = true
  /\ status (st sample_world3) = listening
  /\ (String.length (input (st sample_world3))
      < String.length (target (st sample_world3)))%nat
  /\ input (st sample_world3) ++ "70" = target (st sample_world3)
  /\ hadErrorThisTarget (st sample_world3) = false
  /\ (let w1 := handleDigit sample_state3 "70" 1000 sample_world3 in
      let w2 :=
        run_callback plain_runtime (CorrectTimeout sample_state3) 3000
          (1 # 2) (set_timers [] w1) in
      score (st w2) = (score (st sample_world3) + 1)%Z).
Proof.
  assert (H1 : deps_eqb sample_state3 (st sample_world3) = true)
    by reflexivity.
  assert (H2 : status (st sample_world3) = listening) by reflexivity.
  assert (H3 : (String.length (input (st sample_world3))
                < String.length (target (st sample_world3)))%nat)
    by (simpl; lia).
  assert (H4 : input (st sample_world3) ++ "70"
               = target (st sample_world3)) by reflexivity.
  assert (H5 : hadErrorThisTarget (st sample_world3) = false)
    by reflexivity.
  split; [exact H1|]. split; [exact H2|]. split; [exact H3|].
  split; [exact H4|]. split; [exact H5|].
  exact (proj1 (proj2
    (first_try_is_credited plain_runtime sample_world3 sample_state3 "70"
       1000 3000 (1 # 2) [] H1 H2 H3 H4 H5))).
Defined.


Lemma reset_then_start_witness :
  (ClickReset = ClickReset \/ ClickReset = ClickStart
   \/ ClickReset = ClickRestart)
  /\ timers (exec plain_runtime ClickReset 1000 0 sample_world3)
     = enqueue (mkTimer (1000 + 100) (StartTimeout (st sample_world3)))
         (timers sample_world3).
Proof.
  assert (He : ClickReset = ClickReset \/ ClickReset = ClickStart
               \/ ClickReset = ClickRestart) by (left; reflexivity).
  split; [exact He|].
  exact (proj1 (proj2 (proj1
    (reset_then_start plain_runtime sample_world3 ClickReset 1000 3000 0 0
       [] He)))).
Defined.
